(** * Stooq price ingestion: a model of [create_stooq_data.ipynb]

    The notebook unpacks the Stooq archives ([download_price_data]), reads the
    per-ticker text files of one asset class into a single table
    ([get_stooq_prices_and_tickers]) and writes, for every asset class of
    [markets], the table of the years 2000-2019 and the ticker series to the
    HDF5 store [DATA_STORE].

    Python values are modelled as follows.
    - An exception is a constructor of [exn]; a call that may raise returns an
      [outcome].
    - The console and the file reads form a trace of [event]s, the store is a
      [gmap] from key to stored object; both are threaded through the code by
      the monad [Py].
    - A [DataFrame] is the list of its rows (in positional order) together with
      the labels of its index levels and of its columns.
    - float64 payloads are opaque to the notebook (it never does arithmetic on
      them), so they are a type with decidable equality; the numeric-literal
      parser behind [pd.to_numeric] comes with it (class [Float64]). *)

From Stdlib Require Import Ascii String.
From stdpp Require Import base list strings gmap sorting pretty.

(** ** Exceptions and outcomes *)

Inductive exn :=
  | FileNotFoundError
  | EmptyDataError
  | IndexError
  | ValueError
  | KeyError
  | UnsortedIndexError
  | ParserError
  | UnicodeDecodeError
  | BadZipFile
  | FileExistsError
  | NotADirectoryError
  | IsADirectoryError
  | OSError.

Global Instance exn_eq_dec : EqDecision exn.
Proof. solve_decision. Defined.

Inductive outcome (A : Type) :=
  | Ok (a : A)
  | Raise (e : exn).
Arguments Ok {A} a.
Arguments Raise {A} e.

Definition returns {A} (o : outcome A) : Prop :=
  match o with Ok _ => True | Raise _ => False end.

(** ** Python strings and paths *)

Definition newline : string := String "010"%char "".
Definition tab : string := String "009"%char "".

(** [s.startswith(p)] and [s.endswith(p)]. *)
Definition startswith (p s : string) : bool := String.prefix p s.
Definition endswith (p s : string) : bool :=
  String.prefix (String.rev p) (String.rev s).

(** [s.rfind(c)]: the index of the last [c], [None] for Python's -1. *)
Fixpoint rfind (c : ascii) (s : string) : option nat :=
  match s with
  | "" => None
  | String a s' =>
      match rfind c s' with
      | Some i => Some (S i)
      | None => if decide (a = c) then Some 0 else None
      end
  end.

(** [s.split(c)[0]]: the part of [s] before the first [c]. *)
Fixpoint split_head (c : ascii) (s : string) : string :=
  match s with
  | "" => ""
  | String a s' => if decide (a = c) then "" else String a (split_head c s')
  end.

(** [s.replace(a, b)] for one-character [a] and [b]. *)
Fixpoint replace (a b : ascii) (s : string) : string :=
  match s with
  | "" => ""
  | String c s' => String (if decide (c = a) then b else c) (replace a b s')
  end.

(** [s.lower()] on ASCII letters; other characters are left alone. *)
Definition lower_char (c : ascii) : ascii :=
  let n := nat_of_ascii c in
  if (65 <=? n) && (n <=? 90) then ascii_of_nat (n + 32) else c.

Fixpoint lower (s : string) : string :=
  match s with
  | "" => ""
  | String c s' => String (lower_char c) (lower s')
  end.

(** [PurePath.name]: the final component of a POSIX path. *)
Definition name (path : string) : string :=
  match rfind "/"%char path with
  | Some i => String.substring (S i) (String.length path - S i) path
  | None => path
  end.

(** [PurePath.stem]: the name without its last suffix,
    [name[:i] if 0 < i < len(name) - 1 else name] with [i = name.rfind('.')]. *)
Definition stem (path : string) : string :=
  let n := name path in
  match rfind "."%char n with
  | Some i =>
      if (0 <? i) && (i <? String.length n - 1)
      then String.substring 0 i n
      else n
  | None => n
  end.

(** A [PurePosixPath] is kept as its [as_posix()] string. The components of
    a string are its pieces between slashes, without the empty ones and the
    single dots; its root is [/], or [//] when it starts with exactly two
    slashes. *)
Definition component (cur : string) : list string :=
  if decide (cur = "" ∨ cur = ".") then [] else [cur].

Fixpoint parts_from (cur s : string) : list string :=
  match s with
  | "" => component cur
  | String a s' =>
      if decide (a = "/"%char) then component cur ++ parts_from "" s'
      else parts_from (cur +:+ String a "") s'
  end.

Definition parts (s : string) : list string := parts_from "" s.

Definition root (s : string) : string :=
  if startswith "///" s then "/"
  else if startswith "//" s then "//"
  else if startswith "/" s then "/"
  else "".

Fixpoint join_parts (ps : list string) : string :=
  match ps with
  | [] => ""
  | [p] => p
  | p :: ps' => p +:+ "/" +:+ join_parts ps'
  end.

Definition as_posix (root : string) (ps : list string) : string :=
  match ps with
  | [] => if decide (root = "") then "." else root
  | _ :: _ => root +:+ join_parts ps
  end.

(** [a / b]: the components of [b] after those of [a]; an absolute [b]
    replaces [a]. *)
Definition joinpath (a b : string) : string :=
  if decide (root b = "") then as_posix (root a) (parts a ++ parts b)
  else as_posix (root b) (parts b).
Infix "//" := joinpath (at level 40, left associativity).

Definition stooq_path : string := "stooq".
Definition DATA_STORE : string := "assets.h5".

(** ** Cells, rows and frames *)

(** The numeric backend: the float64 values and the literal parser that
    [pd.to_numeric] applies to a string. *)
Class Float64 := {
  float64 : Type;
  float64_eq_dec :: EqDecision float64;
  to_float : string → option float64
}.

(** [Timestamp]: a calendar date with the time of day ([HHMMSS], 0 for a
    daily bar). *)
Record Timestamp := mkTimestamp {
  year : Z;
  month : Z;
  day : Z;
  time : Z
}.

Global Instance Timestamp_eq_dec : EqDecision Timestamp.
Proof. solve_decision. Defined.

Definition Timestamp_leb (a b : Timestamp) : bool :=
  match year a ?= year b with
  | Lt => true | Gt => false
  | Eq =>
    match month a ?= month b with
    | Lt => true | Gt => false
    | Eq =>
      match day a ?= day b with
      | Lt => true | Gt => false
      | Eq => bool_decide (time a ≤ time b)
      end
    end
  end%Z.

Section Model.
Context `{Float64}.

(** A cell of a price column as [pd.read_csv] leaves it: a number, a
    missing value, or text that is not a number (the column then has
    dtype object). A number is given by its float64 value, the precision at
    which a column of integers is kept once [pd.concat] joins it with a
    column of floats. *)
Inductive cell :=
  | Num (x : float64)
  | NaN
  | Str (s : string).

Global Instance cell_eq_dec : EqDecision cell.
Proof. solve_decision. Defined.

(** One price observation, under the column schema of [usecols]. The date
    column is parsed to datetime64: a [Timestamp], or [None] for the [NaT]
    that an empty date cell gives. *)
Record Row := mkRow {
  ticker : string;
  date : option Timestamp;
  open : cell;
  high : cell;
  low : cell;
  close : cell;
  volume : cell
}.

Global Instance Row_eq_dec : EqDecision Row.
Proof. solve_decision. Defined.

(** A frame: index level names ([[]] for a [RangeIndex]), column labels,
    rows in positional order. *)
Record DataFrame := mkDataFrame {
  index_names : list string;
  columns : list string;
  rows : list Row
}.

Global Instance DataFrame_eq_dec : EqDecision DataFrame.
Proof. solve_decision. Defined.

(** ** The world: console, file reads and the HDF5 store *)

(** A column specification of [pd.read_csv]: one label, or a list of
    labels that [parse_dates] combines into one column. *)
Inductive colspec :=
  | Col (label : string)
  | Cols (labels : list string).

Global Instance colspec_eq_dec : EqDecision colspec.
Proof. solve_decision. Defined.

Inductive event :=
  | Read (path : string) (names : list string) (usecols parse_dates : list colspec)
  | Print (line : string)
  | PrintDescribe (df : DataFrame)
  | PrintInfo (df : DataFrame).

(** An object held by the store under one key. *)
Inductive stored :=
  | Prices (df : DataFrame)
  | Tickers (series : gmap string string).

Record World := mkWorld {
  console : list event;
  store : gmap string stored
}.

(** Computations of the notebook: they change the world and return or raise. *)
Definition Py (A : Type) : Type := World → World * outcome A.

Definition ret {A} (a : A) : Py A := λ w, (w, Ok a).
Definition raise {A} (e : exn) : Py A := λ w, (w, Raise e).
Definition bind {A B} (m : Py A) (k : A → Py B) : Py B := λ w,
  match m w with
  | (w', Ok a) => k a w'
  | (w', Raise e) => (w', Raise e)
  end.
Definition lift {A} (o : outcome A) : Py A := λ w, (w, o).

Definition emit (e : event) : Py unit := λ w,
  ({| console := console w ++ [e]; store := store w |}, Ok ()).
Definition print (line : string) : Py unit := emit (Print line).

(** [obj.empty]: a frame with no row or no column, a series with no
    entry. *)
Definition is_empty (obj : stored) : bool :=
  match obj with
  | Prices df => bool_decide (rows df = [] ∨ columns df = [])
  | Tickers series => bool_decide (series = ∅)
  end.

(** What a key holds after the write of [obj], given what it held before:
    the table format stores no node for an empty object. *)
Definition held_after (obj : stored) (before : option stored) : option stored :=
  if is_empty obj then before else Some obj.

Definition put (key : string) (obj : stored) (store : gmap string stored)
    : gmap string stored :=
  if is_empty obj then store else <[key := obj]> store.

(** [obj.to_hdf(DATA_STORE, key, format='t')]: the store file is opened in
    append mode and the node [key] is written, replacing an older one;
    for an empty object the call returns without writing. *)
Definition to_hdf (obj : stored) (key : string) : Py unit := λ w,
  ({| console := console w; store := put key obj (store w) |}, Ok ()).

(** [for x in l: body(x)]. *)
Fixpoint for_each {A} (l : list A) (body : A → Py unit) : Py unit :=
  match l with
  | [] => ret ()
  | x :: l' => bind (body x) (λ _, for_each l' body)
  end.

(** ** The files of the Stooq tree *)

(** What [pd.read_csv] makes of a file under the schema of the call: it
    raises, or it returns the data rows below the header line. *)
Inductive csv :=
  | Unreadable (e : exn)
  | Table (data : list Row).

Global Instance csv_eq_dec : EqDecision csv.
Proof. solve_decision. Defined.

Record File := mkFile {
  path : string;
  content : csv
}.

(** [path.glob('**/*.txt')]: the files below [dir], at any depth, whose
    name matches [*.txt]; the file system lists them in enumeration
    order. *)
Definition glob_txt (fs : list File) (dir : string) : list File :=
  filter (λ f, startswith (dir +:+ "/") (path f) && endswith ".txt" (name (path f))) fs.

(** ** The pandas operations the notebook calls *)

Definition labels_of (c : colspec) : list string :=
  match c with Col l => [l] | Cols ls => ls end.

(** The label of the column that [parse_dates] makes of a specification:
    a combined column is named by joining its labels with an underscore. *)
Fixpoint join_labels (ls : list string) : string :=
  match ls with
  | [] => ""
  | [l] => l
  | l :: ls' => l +:+ "_" +:+ join_labels ls'
  end.

Definition combined (parse_dates : list colspec) : list (list string) :=
  omap (λ c, match c with Col _ => None | Cols ls => Some ls end) parse_dates.

(** Column labels of the frame [pd.read_csv] returns: the combined date
    columns first, then the labels of [names] that [usecols] selects and
    that no combined column consumed. *)
Definition read_columns (names : list string) (usecols parse_dates : list colspec)
    : list string :=
  let used := mjoin (labels_of <$> usecols) in
  let consumed := mjoin (combined parse_dates) in
  (join_labels <$> combined parse_dates)
    ++ filter (λ l, l ∈ used ∧ l ∉ consumed) names.

Definition read_csv (file : File) (names : list string)
    (usecols parse_dates : list colspec) : outcome DataFrame :=
  match content file with
  | Unreadable e => Raise e
  | Table data =>
      Ok {| index_names := [];
            columns := read_columns names usecols parse_dates;
            rows := data |}
  end.

(** [df.ticker.iloc[0]]. *)
Definition ticker_iloc0 (df : DataFrame) : outcome string :=
  match rows df with
  | [] => Raise IndexError
  | r :: _ => Ok (ticker r)
  end.

(** [pd.concat(frames, ignore_index=True)]: the rows of the frames one
    after the other under a fresh [RangeIndex]; the columns are the union
    of the frames' columns in order of first appearance. *)
Definition concat_columns (frames : list DataFrame) : list string :=
  foldl (λ acc df, acc ++ filter (λ l, l ∉ acc) (columns df)) [] frames.

Definition pd_concat (frames : list DataFrame) : outcome DataFrame :=
  match frames with
  | [] => Raise ValueError
  | _ :: _ =>
      Ok {| index_names := [];
            columns := concat_columns frames;
            rows := mjoin (rows <$> frames) |}
  end.

(** [df.rename(columns=str.lower)]. *)
Definition rename_lower (df : DataFrame) : DataFrame :=
  {| index_names := index_names df;
     columns := lower <$> columns df;
     rows := rows df |}.

(** [df.set_index(keys)]: the columns [keys] become the index and the old
    index is dropped; a label that is no column is a [KeyError]. *)
Definition set_index (keys : list string) (df : DataFrame) : outcome DataFrame :=
  if decide (Forall (λ k, k ∈ columns df) keys)
  then Ok {| index_names := keys;
             columns := filter (λ l, l ∉ keys) (columns df);
             rows := rows df |}
  else Raise KeyError.

(** [df.reset_index()]: the index levels become the leading columns. *)
Definition reset_index (df : DataFrame) : DataFrame :=
  {| index_names := [];
     columns := index_names df ++ columns df;
     rows := rows df |}.

(** [pd.to_numeric(x, errors='coerce')] on one cell: numbers and missing
    values stay, text becomes the number it spells or else NaN. *)
Definition to_numeric (c : cell) : cell :=
  match c with
  | Num x => Num x
  | NaN => NaN
  | Str s => match to_float s with Some x => Num x | None => NaN end
  end.

Definition to_numeric_row (r : Row) : Row :=
  {| ticker := ticker r; date := date r;
     open := to_numeric (open r); high := to_numeric (high r);
     low := to_numeric (low r); close := to_numeric (close r);
     volume := to_numeric (volume r) |}.

(** [df.apply(lambda x: pd.to_numeric(x, errors='coerce'))] on a frame
    whose columns are the five price columns (ticker and date being index
    levels, which [apply] does not touch). *)
Definition apply_to_numeric (df : DataFrame) : DataFrame :=
  {| index_names := index_names df;
     columns := columns df;
     rows := to_numeric_row <$> rows df |}.

(** Order of the dates under [sort_index]: ascending, [NaT] last. *)
Definition date_leb (d1 d2 : option Timestamp) : bool :=
  match d1, d2 with
  | Some a, Some b => Timestamp_leb a b
  | _, None => true
  | None, Some _ => false
  end.

(** Order of the (ticker, date) index: by ticker, then by date. *)
Definition index_leb (r1 r2 : Row) : bool :=
  if decide (ticker r1 = ticker r2)
  then date_leb (date r1) (date r2)
  else String.leb (ticker r1) (ticker r2).

Definition index_le (r1 r2 : Row) : Prop := index_leb r1 r2.

Global Instance index_le_dec : RelDecision index_le.
Proof. intros r1 r2. unfold index_le. apply _. Defined.

(** [df.sort_index()] on the (ticker, date) index. *)
Definition sort_index (df : DataFrame) : DataFrame :=
  {| index_names := index_names df;
     columns := columns df;
     rows := merge_sort index_le (rows df) |}.

(** Order of the codes of the date level: the code of a date is its rank
    among the dates, the code of [NaT] is -1. *)
Definition code_leb (d1 d2 : option Timestamp) : bool :=
  match d1, d2 with
  | Some a, Some b => Timestamp_leb a b
  | None, _ => true
  | Some _, None => false
  end.

Definition codes_leb (r1 r2 : Row) : bool :=
  if decide (ticker r1 = ticker r2)
  then code_leb (date r1) (date r2)
  else String.leb (ticker r1) (ticker r2).

Definition codes_le (r1 r2 : Row) : Prop := codes_leb r1 r2.

(** The index is lexsorted to its full depth: the codes of every row are
    at or above those of the row before it. *)
Fixpoint is_lexsorted (rs : list Row) : bool :=
  match rs with
  | r1 :: rs' =>
      match rs' with
      | r2 :: _ => codes_leb r1 r2 && is_lexsorted rs'
      | [] => true
      end
  | [] => true
  end.

(** A date from the first day of year [lo] to the last instant of year
    [hi]. *)
Definition in_years (lo hi : Z) (r : Row) : Prop :=
  match date r with
  | Some t => (lo ≤ year t ≤ hi)%Z
  | None => False
  end.

Global Instance in_years_dec lo hi r : Decision (in_years lo hi r).
Proof. unfold in_years. destruct (date r); apply _. Defined.

(** [df.loc[idx[:, lo:hi], :]] with year strings [lo] and [hi]: every
    ticker, and the dates of the years [lo] to [hi]. A slice on the second
    level needs an index that is lexsorted to depth two, or else it raises
    [UnsortedIndexError]. *)
Definition loc_years (lo hi : Z) (df : DataFrame) : outcome DataFrame :=
  if is_lexsorted (rows df)
  then Ok {| index_names := index_names df;
             columns := columns df;
             rows := filter (in_years lo hi) (rows df) |}
  else Raise UnsortedIndexError.

(** The value a row has in the column [label]. *)
Inductive field :=
  | FTicker (s : string)
  | FDate (t : option Timestamp)
  | FCell (c : cell).

Global Instance field_eq_dec : EqDecision field.
Proof. solve_decision. Defined.

Definition get_field (r : Row) (label : string) : option field :=
  if decide (label = "ticker") then Some (FTicker (ticker r))
  else if decide (label = "date") then Some (FDate (date r))
  else if decide (label = "date_time") then Some (FDate (date r))
  else if decide (label = "open") then Some (FCell (open r))
  else if decide (label = "high") then Some (FCell (high r))
  else if decide (label = "low") then Some (FCell (low r))
  else if decide (label = "close") then Some (FCell (close r))
  else if decide (label = "volume") then Some (FCell (volume r))
  else None.

(** A row as [drop_duplicates] sees it: its values in the columns (the
    index is not looked at). *)
Definition column_values (df : DataFrame) (r : Row) : list (option field) :=
  get_field r <$> columns df.

(** [df.duplicated()], [keep='first']: the mask that is true at a row whose
    column values occurred at an earlier row. *)
Fixpoint duplicated_from {K} `{EqDecision K} (seen : list K) (keys : list K)
    : list bool :=
  match keys with
  | [] => []
  | k :: keys' => bool_decide (k ∈ seen) :: duplicated_from (k :: seen) keys'
  end.

Definition duplicated (df : DataFrame) : list bool :=
  duplicated_from [] (column_values df <$> rows df).

(** [l[mask]]: boolean-mask selection. *)
Fixpoint select {A} (mask : list bool) (l : list A) : list A :=
  match mask, l with
  | m :: mask', x :: l' => if m then x :: select mask' l' else select mask' l'
  | _, _ => []
  end.

(** The elements of [xs] at which the mask of [duplicated_from] is false. *)
Definition kept {A K} `{EqDecision K} (key : A → K) (seen : list K)
    (xs : list A) : list A :=
  select (negb <$> duplicated_from seen (key <$> xs)) xs.

(** [df.drop_duplicates()] is [df[~df.duplicated()]]. *)
Definition drop_duplicates (df : DataFrame) : DataFrame :=
  {| index_names := index_names df;
     columns := columns df;
     rows := select (negb <$> duplicated df) (rows df) |}.

(** ** [get_stooq_prices_and_tickers] *)

Definition intraday (frequency : string) : bool :=
  bool_decide (frequency ∈ ["5 min"; "hourly"]).

Definition parse_dates (frequency : string) : list colspec :=
  if intraday frequency then [Cols ["date"; "time"]] else [Col "date"].

Definition date_label (frequency : string) : string :=
  if intraday frequency then "date_time" else "date".

Definition names : list string :=
  ["ticker"; "freq"; "date"; "time";
   "open"; "high"; "low"; "close"; "volume"; "openint"].

Definition usecols (frequency : string) : list colspec :=
  [Col "ticker"; Col "open"; Col "high"; Col "low"; Col "close"; Col "volume"]
    ++ parse_dates frequency.

(** The local variables the loop over the files updates. *)
Record Locals := mkLocals {
  prices : list DataFrame;
  tickers : gmap string string
}.

(** The body of the [try]: what it leaves in the locals, and whether it ran
    to its end or raised. [prices.append(df)] is done before
    [df.ticker.iloc[0]] is evaluated and stays done if that raises. *)
Definition try_body (frequency : string) (file : File) (l : Locals)
    : Locals * outcome unit :=
  match read_csv file names (usecols frequency) (parse_dates frequency) with
  | Raise e => (l, Raise e)
  | Ok df =>
      let l := {| prices := prices l ++ [df]; tickers := tickers l |} in
      match ticker_iloc0 df with
      | Raise e => (l, Raise e)
      | Ok t =>
          ({| prices := prices l;
              tickers := <[t := lower (split_head "." (stem (path file)))]> (tickers l) |},
           Ok ())
      end
  end.

(** [except (pd.errors.EmptyDataError, IndexError)]. *)
Definition caught (e : exn) : bool :=
  match e with
  | EmptyDataError | IndexError => true
  | _ => false
  end.

(** One iteration of [for i, file in enumerate(files, 1)]. *)
Definition iteration (frequency : string) (i : nat) (file : File) (l : Locals)
    : Py Locals :=
  bind (if decide (i `mod` 500 = 0) then print (pretty i) else ret ()) (λ _,
  bind (emit (Read (path file) names (usecols frequency) (parse_dates frequency))) (λ _,
  match try_body frequency file l with
  | (l', Ok _) => ret l'
  | (l', Raise e) =>
      if caught e
      then bind (print (tab +:+ "data missing" +:+ " " +:+ stem (path file))) (λ _, ret l')
      else raise e
  end)).

Fixpoint process_files (frequency : string) (i : nat) (files : list File)
    (l : Locals) : Py Locals :=
  match files with
  | [] => ret l
  | file :: files' =>
      bind (iteration frequency i file l) (process_files frequency (S i) files')
  end.

Definition data_path (frequency market asset_class : string) : string :=
  stooq_path // "data/data" // frequency // market // asset_class.

Definition get_stooq_prices_and_tickers (fs : list File)
    (frequency market asset_class : string)
    : Py (DataFrame * gmap string string) :=
  let path := data_path frequency market asset_class in
  bind (print path) (λ _,
  let files := glob_txt fs path in
  bind (process_files frequency 1 files {| prices := []; tickers := ∅ |}) (λ l,
  bind (lift (pd_concat (prices l))) (λ combined,
  bind (lift (set_index ["ticker"; date_label frequency] (rename_lower combined))) (λ indexed,
  ret (apply_to_numeric indexed, tickers l))))).

(** ** The loop over [markets] that fills the store *)

Definition markets : list (string * list string) :=
  [("us", ["nasdaq etfs"; "nasdaq stocks"; "nyse etfs"; "nyse stocks";
           "nysemkt stocks"])].

Definition frequency : string := "daily".

(** [f'stooq/{market}/{asset_class.replace(" ", "/")}/']. *)
Definition store_key (market asset_class : string) : string :=
  "stooq/" +:+ market +:+ "/" +:+ replace " " "/" asset_class +:+ "/".

(** From the table [get_stooq_prices_and_tickers] returned to the table
    that is written: the years 2000-2019 of the sorted table, without
    duplicate rows, indexed and sorted again. *)
Definition deduplicated (prices : DataFrame) : DataFrame :=
  drop_duplicates (reset_index prices).

Definition written_table (prices : DataFrame) : outcome DataFrame :=
  match loc_years 2000 2019 (sort_index prices) with
  | Raise e => Raise e
  | Ok prices =>
      let names := index_names prices in
      match set_index names (deduplicated prices) with
      | Ok prices => Ok (sort_index prices)
      | Raise e => Raise e
      end
  end.

Definition store_asset_class (fs : list File) (market asset_class : string)
    : Py unit :=
  bind (print (newline +:+ asset_class)) (λ _,
  bind (get_stooq_prices_and_tickers fs frequency market asset_class) (λ '(prices, tickers),
  bind (lift (written_table prices)) (λ prices,
  bind (print (newline +:+ "No. of observations per asset")) (λ _,
  bind (emit (PrintDescribe prices)) (λ _,
  let key := store_key market asset_class in
  bind (emit (PrintInfo prices)) (λ _,
  bind (print "None") (λ _,
  bind (to_hdf (Prices prices) (key +:+ "prices")) (λ _,
  to_hdf (Tickers tickers) (key +:+ "tickers"))))))))).

Definition store_loop (fs : list File) : Py unit :=
  for_each markets (λ '(market, asset_classes),
    for_each asset_classes (λ asset_class,
      store_asset_class fs market asset_class)).

(** ** Vocabulary for the statements *)

(** The data rows a file contributes: those of the frame [pd.read_csv]
    returns for it, none when the read raises. *)
Definition data_of (file : File) : list Row :=
  match content file with
  | Table data => data
  | Unreadable _ => []
  end.

(** The frame the loop appends to [prices] for a file, if any. *)
Definition frame_of (frequency : string) (file : File) : option DataFrame :=
  match read_csv file names (usecols frequency) (parse_dates frequency) with
  | Ok df => Some df
  | Raise _ => None
  end.

(** A file whose [try] body raises one of the two caught errors:
    [pd.read_csv] raises [EmptyDataError] or [IndexError], or it returns a
    frame without rows and [df.ticker.iloc[0]] raises [IndexError]. *)
Definition skipped (file : File) : Prop :=
  content file = Unreadable EmptyDataError
  ∨ content file = Unreadable IndexError
  ∨ content file = Table [].

Global Instance skipped_dec file : Decision (skipped file).
Proof. unfold skipped. apply _. Defined.

(** A file whose read raises an error the [except] clause does not list. *)
Definition aborts (file : File) : Prop :=
  ∃ e, content file = Unreadable e ∧ caught e = false.

Global Instance aborts_dec file : Decision (aborts file).
Proof.
  unfold aborts. destruct (content file) as [e|data].
  - destruct (caught e) eqn:He; [right|left; eauto].
    intros (e' & [= <-] & He'). congruence.
  - right. by intros (e' & [=] & _).
Defined.

(** A file that is read into a frame (with or without rows). *)
Definition has_frame (file : File) : Prop := ∃ data, content file = Table data.

Global Instance has_frame_dec file : Decision (has_frame file).
Proof.
  unfold has_frame. destruct (content file) as [e|data].
  - right. by intros (data & [=]).
  - left. eauto.
Defined.

(** A file that is read into a frame with at least one row. *)
Definition parsed (file : File) : Prop := data_of file ≠ [].

Global Instance parsed_dec file : Decision (parsed file).
Proof. unfold parsed. apply _. Defined.

(** The ticker of the first data row, and the value stored for it:
    [file.stem.split('.')[0].lower()]. *)
Definition first_ticker (file : File) : option string :=
  match data_of file with
  | r :: _ => Some (ticker r)
  | [] => None
  end.

Definition stem_key (file : File) : string :=
  lower (split_head "." (stem (path file))).

(** The entry a file writes into the [tickers] dict. *)
Definition add_ticker (acc : gmap string string) (file : File) : gmap string string :=
  match data_of file with
  | r :: _ => <[ticker r := lower (split_head "." (stem (path file)))]> acc
  | [] => acc
  end.

Definition price_columns : list string :=
  ["open"; "high"; "low"; "close"; "volume"].

(** The table [get_stooq_prices_and_tickers] returns for a list of files,
    and the table the store loop writes for it. *)
Definition combined_prices (frequency : string) (files : list File) : DataFrame :=
  {| index_names := ["ticker"; date_label frequency];
     columns := price_columns;
     rows := to_numeric_row <$> mjoin (data_of <$> files) |}.

(** The sorted table can be sliced by years, and the slice that is then
    taken. *)
Definition sliceable (prices : DataFrame) : Prop :=
  is_lexsorted (rows (sort_index prices)).

Definition selected_years (prices : DataFrame) : DataFrame :=
  {| index_names := index_names prices;
     columns := columns prices;
     rows := filter (in_years 2000 2019) (rows (sort_index prices)) |}.

Definition stored_prices (files : list File) : DataFrame :=
  {| index_names := ["ticker"; "date"];
     columns := price_columns;
     rows := merge_sort index_le
               (rows (deduplicated (selected_years (combined_prices frequency files)))) |}.

(** The two writes of one asset class, as a change of the store. *)
Definition write_asset_class (fs : list File) (market : string)
    (store : gmap string stored) (asset_class : string) : gmap string stored :=
  let files := glob_txt fs (data_path frequency market asset_class) in
  put (store_key market asset_class +:+ "tickers") (Tickers (foldl add_ticker ∅ files))
    (put (store_key market asset_class +:+ "prices") (Prices (stored_prices files)) store).

(** The lines one iteration puts on the console before the file is read. *)
Definition counter_line (i : nat) : list event :=
  if decide (i `mod` 500 = 0) then [Print (pretty i)] else [].

Definition read_event (frequency : string) (file : File) : event :=
  Read (path file) names (usecols frequency) (parse_dates frequency).

Definition missing_line (file : File) : event :=
  Print (tab +:+ "data missing" +:+ " " +:+ stem (path file)).

(** The trace of one iteration that runs to its end, and of the loop. *)
Definition iteration_trace (frequency : string) (i : nat) (file : File)
    : list event :=
  counter_line i
    ++ read_event frequency file
    :: (if decide (skipped file) then [missing_line file] else []).

Fixpoint files_trace (frequency : string) (i : nat) (files : list File)
    : list event :=
  match files with
  | [] => []
  | file :: files' =>
      iteration_trace frequency i file ++ files_trace frequency (S i) files'
  end.

Definition is_read (e : event) : Prop :=
  match e with Read _ _ _ _ => True | _ => False end.

Global Instance is_read_dec e : Decision (is_read e).
Proof. destruct e; simpl; apply _. Defined.

End Model.

(** ** [download_price_data] *)

Module Download.
(** A regular file holds bytes; the bytes of a zip archive are kept as the
    members they encode, in [namelist()] order. *)
Inductive content :=
  | Bytes (data : string)
  | ZipArchive (members : list (string * string)).

Record Disk := mkDisk {
  files : gmap string content;
  dirs : gset string;
  console : list string
}.

(** The directories above a path: ["a/b/c.txt"] has ["a"] and ["a/b"]. *)
Fixpoint prefixes_at (c : ascii) (acc s : string) : list string :=
  match s with
  | "" => []
  | String a s' =>
      if decide (a = c)
      then acc :: prefixes_at c (acc +:+ String a "") s'
      else prefixes_at c (acc +:+ String a "") s'
  end.

Definition ancestors (path : string) : list string := prefixes_at "/" "" path.

Section OS.
(** The paths the operating system cannot create a file at although the
    directory is there (a reserved device name, an over-long path):
    opening one for writing raises [FileNotFoundError]. *)
Variable cannot_create : string → bool.

Definition path_exists (d : Disk) (path : string) : bool :=
  bool_decide (path ∈ dom (files d) ∨ path ∈ dirs d).

(** [ZipFile(path).namelist()] with the data of each member. *)
Definition ZipFile (d : Disk) (path : string) : outcome (list (string * string)) :=
  match files d !! path with
  | Some (ZipArchive members) => Ok members
  | Some (Bytes _) => Raise BadZipFile
  | None => if decide (path ∈ dirs d) then Raise IsADirectoryError
            else Raise FileNotFoundError
  end.

(** [local_file.parent.mkdir(parents=True, exist_ok=True)]. *)
Definition mkdir_parent (local_file : string) (d : Disk) : Disk * outcome unit :=
  if decide (Exists (λ a, a ∈ dom (files d)) (ancestors local_file))
  then (d, Raise (if decide (default "" (last (ancestors local_file)) ∈ dom (files d))
                  then FileExistsError else NotADirectoryError))
  else ({| files := files d;
           dirs := dirs d ∪ list_to_set (ancestors local_file);
           console := console d |}, Ok ()).

(** [with local_file.open('wb') as output: ... output.write(line)] for
    the lines of the member. *)
Definition write_member (local_file data : string) (d : Disk) : Disk * outcome unit :=
  if decide (local_file ∈ dirs d) then (d, Raise IsADirectoryError)
  else if cannot_create local_file then (d, Raise FileNotFoundError)
  else ({| files := <[local_file := Bytes data]> (files d);
           dirs := dirs d;
           console := console d |}, Ok ()).

Definition errno2 (path : string) : string :=
  "[Errno 2] No such file or directory: '" +:+ path +:+ "'".

(** One iteration of the loop over [zip_file.namelist()]. *)
Definition extract_member (member : string * string) (d : Disk) : Disk * outcome unit :=
  let '(file, data) := member in
  if negb (endswith ".txt" file) then (d, Ok ())
  else
    let local_file := stooq_path // file in
    match mkdir_parent local_file d with
    | (d, Raise e) => (d, Raise e)
    | (d, Ok _) =>
        match write_member local_file data d with
        | (d, Raise FileNotFoundError) =>
            ({| files := files d; dirs := dirs d;
                console := console d ++ [errno2 local_file] |}, Ok ())
        | r => r
        end
    end.

Fixpoint extract_members (members : list (string * string)) (d : Disk)
    : Disk * outcome unit :=
  match members with
  | [] => (d, Ok ())
  | m :: members' =>
      match extract_member m d with
      | (d, Ok _) => extract_members members' d
      | (d, Raise e) => (d, Raise e)
      end
  end.

(** Vocabulary for the statements: the members that are written, and
    those whose file the operating system refuses. *)
Definition is_txt (m : string * string) : bool := endswith ".txt" m.1.
Definition local_file (m : string * string) : string := stooq_path // m.1.
Definition extracted (m : string * string) : bool :=
  is_txt m && negb (cannot_create (local_file m)).
Definition refused (m : string * string) : bool :=
  is_txt m && cannot_create (local_file m).
Definition write (fs : gmap string content) (m : string * string)
    : gmap string content :=
  <[local_file m := Bytes m.2]> fs.

Definition data_name (market freq : string) : string :=
  stooq_path // ".downloaded" // (freq +:+ "_" +:+ market +:+ "_txt.zip").

Definition download_price_data (market freq : string) (d : Disk)
    : Disk * outcome unit :=
  if negb (path_exists d (data_name market freq))
  then (d, Raise FileNotFoundError)
  else
    match ZipFile d (data_name market freq) with
    | Raise e => (d, Raise e)
    | Ok members => extract_members members d
    end.
End OS.
End Download.

(** ** The loop over the markets to unpack *)

Global Instance content_eq_dec : EqDecision Download.content.
Proof. solve_decision. Defined.

(** [for market in ['us', 'jp']: download_price_data(market=market)], the
    frequency being the default ['d']. *)
Fixpoint download_markets (cannot_create : string → bool) (markets : list string)
    (d : Download.Disk) : Download.Disk * outcome unit :=
  match markets with
  | [] => (d, Ok ())
  | market :: markets' =>
      match Download.download_price_data cannot_create market "d" d with
      | (d, Ok _) => download_markets cannot_create markets' d
      | (d, Raise e) => (d, Raise e)
      end
  end.

Definition download_all (cannot_create : string → bool) (d : Download.Disk)
    : Download.Disk * outcome unit :=
  download_markets cannot_create ["us"; "jp"] d.

(** ** The symbols cell *)

Module Metadata.
(** The errors of the cell: those of [exn], and the [AttributeError] of the
    [.str] accessor on a column that holds no text. *)
Inductive error :=
  | Base (e : exn)
  | AttributeError.

Global Instance error_eq_dec : EqDecision error.
Proof. solve_decision. Defined.

Inductive result (A : Type) :=
  | Done (a : A)
  | Fails (e : error).
Arguments Done {A} a.
Arguments Fails {A} e.

(** A cell of a text column: a string, or [None] for a missing value. *)
Definition cell : Type := option string.

(** A column as [pd.read_csv] types it: text (dtype object), or numbers. *)
Inductive column :=
  | Text (values : list cell)
  | Numbers.

(** What [pd.read_csv(path, sep=r'\s+')] makes of a file: it raises, or it
    returns the columns of the frame. *)
Inductive master :=
  | Unreadable (e : exn)
  | Parsed (columns : list column).

(** A row of the frame once its columns are named [ticker] and [name]. *)
Definition Symbol : Type := cell * cell.

Record Disk := mkDisk {
  masters : gmap string master;
  csvs : gmap string (list Symbol);
  dirs : gset string;
  console : list string
}.

(** [s.strip()] on ASCII text: without the whitespace at both ends. *)
Definition is_space (c : ascii) : bool :=
  let n := nat_of_ascii c in
  ((9 <=? n) && (n <=? 13)) || ((28 <=? n) && (n <=? 32)).

Fixpoint lstrip (s : string) : string :=
  match s with
  | "" => ""
  | String c s' => if is_space c then lstrip s' else s
  end.

Definition strip (s : string) : string :=
  String.rev (lstrip (String.rev (lstrip s))).

Definition strip_cell (c : cell) : cell :=
  match c with
  | Some s => Some (strip s)
  | None => None
  end.

(** [df.apply(lambda x: x.str.strip())]: every column must hold text. *)
Fixpoint strip_columns (columns : list column) : result (list (list cell)) :=
  match columns with
  | [] => Done []
  | Numbers :: _ => Fails AttributeError
  | Text values :: columns' =>
      match strip_columns columns' with
      | Done stripped => Done ((strip_cell <$> values) :: stripped)
      | Fails e => Fails e
      end
  end.

(** [df.columns = ['ticker', 'name']]: a frame of another width is a
    [ValueError]; the rows of the two columns are then paired up. *)
Definition set_columns (columns : list (list cell)) : result (list Symbol) :=
  match columns with
  | [tickers; names] => Done (zip tickers names)
  | _ => Fails (Base ValueError)
  end.

(** [df.drop_duplicates('ticker')]: the first row of every ticker (the
    missing ticker counts as one value). *)
Definition drop_duplicates_ticker (rows : list Symbol) : list Symbol :=
  kept fst [] rows.

(** [df.dropna()]: the rows without a missing value. *)
Definition complete (r : Symbol) : Prop := is_Some r.1 ∧ is_Some r.2.

Definition dropna (rows : list Symbol) : list Symbol := filter complete rows.

(** [f'{n:,.0f}'] for a row count: the decimal digits in groups of three. *)
Fixpoint commas_rev (s : string) (k : nat) : string :=
  match s with
  | "" => ""
  | String c s' =>
      match k with
      | 0 => String "," (String c (commas_rev s' 2))
      | S k' => String c (commas_rev s' k')
      end
  end.

Definition thousands (n : nat) : string :=
  String.rev (commas_rev (String.rev (pretty n)) 3).

Definition is_file (d : Disk) (path : string) : Prop :=
  path ∈ dom (masters d) ∨ path ∈ dom (csvs d).

Definition path_exists (d : Disk) (path : string) : bool :=
  bool_decide (is_file d path ∨ path ∈ dirs d).

Definition read_csv (d : Disk) (path : string) : result (list column) :=
  match masters d !! path with
  | Some (Parsed columns) => Done columns
  | Some (Unreadable e) => Fails (Base e)
  | None => Fails (Base (if decide (path ∈ dirs d) then IsADirectoryError
                         else FileNotFoundError))
  end.

(** [if not path.exists(): path.mkdir(parents=True)]. *)
Definition ensure_dir (path : string) (d : Disk) : Disk * result unit :=
  if path_exists d path then (d, Done ())
  else if decide (Exists (is_file d) (Download.ancestors path))
       then (d, Fails (Base NotADirectoryError))
       else ({| masters := masters d; csvs := csvs d;
                dirs := dirs d ∪ list_to_set (Download.ancestors path) ∪ {[path]};
                console := console d |}, Done ()).

(** [df.to_csv(path, index=False)] into the directory [parent]: pandas
    checks that the parent is a directory and raises [OSError] if not. *)
Definition to_csv (rows : list Symbol) (parent path : string) (d : Disk)
    : Disk * result unit :=
  if decide (parent ∉ dirs d) then (d, Fails (Base OSError))
  else if decide (path ∈ dirs d) then (d, Fails (Base IsADirectoryError))
  else ({| masters := masters d; csvs := <[path := rows]> (csvs d);
           dirs := dirs d; console := console d |}, Done ()).

Definition meta_path : string := "stooq" // "data/meta".

Definition master_path (market asset_class freq : string) : string :=
  meta_path // (freq +:+ "_" +:+ market +:+ "_ms/data/daily/" +:+ market +:+ "/"
                +:+ asset_class +:+ "/EMASTER").

Definition tickers_dir (market : string) : string :=
  stooq_path // "tickers" // market.

Definition tickers_csv (market asset_class : string) : string :=
  tickers_dir market // (asset_class +:+ ".csv").

(** The symbols a frame of columns is reduced to. *)
Definition symbols_of (columns : list column) : result (list Symbol) :=
  match strip_columns columns with
  | Fails e => Fails e
  | Done stripped =>
      match set_columns stripped with
      | Fails e => Fails e
      | Done rows => Done (dropna (drop_duplicates_ticker rows))
      end
  end.

(** The body of the loop over [metadata_dict]. *)
Definition store_symbols (market asset_class freq : string) (d : Disk)
    : Disk * result unit :=
  match read_csv d (master_path market asset_class freq) with
  | Fails e => (d, Fails e)
  | Done columns =>
      match symbols_of columns with
      | Fails e => (d, Fails e)
      | Done df =>
          let d := {| masters := masters d; csvs := csvs d; dirs := dirs d;
                      console := console d
                        ++ [market +:+ " " +:+ asset_class +:+ " "
                            +:+ "# tickers: " +:+ thousands (length df)] |} in
          match ensure_dir (tickers_dir market) d with
          | (d, Fails e) => (d, Fails e)
          | (d, Done _) =>
              to_csv df (tickers_dir market) (tickers_csv market asset_class) d
          end
      end
  end.

(** The dict the cell iterates over: the second assignment replaces the
    first. *)
Definition metadata_dict : list (string * string * string * nat) :=
  [("us", "nasdaq etfs", "d", 70)].

Fixpoint store_all_symbols (entries : list (string * string * string * nat))
    (d : Disk) : Disk * result unit :=
  match entries with
  | [] => (d, Done ())
  | (market, asset_class, freq, _) :: entries' =>
      match store_symbols market asset_class freq d with
      | (d, Done _) => store_all_symbols entries' d
      | (d, Fails e) => (d, Fails e)
      end
  end.
End Metadata.

(** ** A small Stooq tree *)

(** A numeric backend for the examples: whole-number values, and a literal
    parser that reads a non-empty string of decimal digits. *)
Fixpoint digits (acc : Z) (s : string) : option Z :=
  match s with
  | "" => Some acc
  | String c s' =>
      match Ascii.is_nat c with
      | Some n => digits (10 * acc + Z.of_nat n) s'
      | None => None
      end
  end.

Definition whole_number (s : string) : option Z :=
  match s with
  | "" => None
  | _ => digits 0 s
  end.

Definition whole_numbers : Float64 :=
  {| float64 := Z; to_float := whole_number |}.

Module Example.
Local Existing Instance whole_numbers.

Definition num (z : Z) : cell := Num (z : float64).

Definition bar (t : string) (y m d : Z) (o h l c v : cell) : Row :=
  {| ticker := t; date := Some (mkTimestamp y m d 0);
     open := o; high := h; low := l; close := c; volume := v |}.

Definition etfs : string := "stooq/data/data/daily/us/nasdaq etfs".

(** Two bars of 2010-07-21 that differ in the close only, an exact copy of
    the first, a bar of 1999 and a bar whose open is the text ["N/D"]. *)
Definition aadr_1 : Row := bar "AADR.US" 2010 7 21 (num 10) (num 12) (num 9) (num 11) (num 500).
Definition aadr_2 : Row := bar "AADR.US" 2010 7 21 (num 10) (num 12) (num 9) (num 10) (num 500).
Definition aadr_1999 : Row := bar "AADR.US" 1999 12 31 (num 8) (num 8) (num 8) (num 8) NaN.
Definition aadr_text : Row := bar "AADR.US" 2010 7 22 (Str "N/D") (num 12) (num 9) (num 11) (Str "700").

Definition aadr : File :=
  {| path := etfs // "aadr.us.txt";
     content := Table [aadr_1; aadr_2; aadr_1999; aadr_1; aadr_text] |}.
(** A file without a line of data and a file with the header line only:
    with [names] given, [pd.read_csv] returns a frame without rows for
    both. *)
Definition no_data : File :=
  {| path := etfs // "acwx.us.txt"; content := Table [] |}.
Definition header_only : File :=
  {| path := etfs // "1" // "agzd.us.txt"; content := Table [] |}.
Definition aadr_again : File :=
  {| path := etfs // "2" // "AADR_old.US.txt";
     content := Table [bar "AADR.US" 2011 1 3 (num 20) (num 21) (num 19) (num 20) (num 50)] |}.
Definition notes : File :=
  {| path := etfs // "notes.md"; content := Unreadable UnicodeDecodeError |}.
Definition garbled : File :=
  {| path := etfs // "airr.us.txt"; content := Unreadable UnicodeDecodeError |}.

Definition one_bar (asset_class stem t : string) : File :=
  {| path := "stooq/data/data/daily/us" // asset_class // (stem +:+ ".us.txt");
     content := Table [bar t 2015 6 1 (num 1) (num 2) (num 1) (num 2) (num 3)] |}.

(** The tree: the five asset classes of [markets], each with a readable
    file. *)
Definition fs : list File :=
  [aadr; no_data; header_only; aadr_again; notes;
   one_bar "nasdaq stocks" "aapl" "AAPL.US";
   one_bar "nyse etfs" "spy" "SPY.US";
   one_bar "nyse stocks" "ibm" "IBM.US";
   one_bar "nysemkt stocks" "imo" "IMO.US"].

(** Trees on which the call raises: no file at all, and a file that is
    not valid text; and a tree with no file that holds data. *)
Definition no_files : list File := [].
Definition with_garbled : list File := [aadr; garbled; aadr_again].
Definition only_missing : list File := [no_data].

Definition w0 : World := {| console := []; store := ∅ |}.

(** The calls of the examples. *)
Definition etfs_files : list File := glob_txt fs (data_path "daily" "us" "nasdaq etfs").
Definition read_etfs : World * outcome (DataFrame * gmap string string) :=
  get_stooq_prices_and_tickers fs "daily" "us" "nasdaq etfs" w0.
Definition stored_etfs : World * outcome unit :=
  store_asset_class fs "us" "nasdaq etfs" w0.
Definition stored_all : World * outcome unit := store_loop fs w0.


(** The archive of the US market with a member the operating system
    refuses to create. *)
Definition refuses (path : string) : bool := endswith "/prn.us.txt" path.

Definition zip_members : list (string * string) :=
  [("data/daily/us/nyse etfs/", "");
   ("data/daily/us/nyse etfs/spy.us.txt", "SPY.US,D,20150601,000000,1,2,1,2,3,0");
   ("data/daily/us/nyse etfs/prn.us.txt", "PRN.US,D,20150601,000000,1,2,1,2,3,0");
   ("data/daily/us/readme.md", "notes")].

Definition disk0 : Download.Disk :=
  {| Download.files := {[ "stooq/.downloaded/d_us_txt.zip" := Download.ZipArchive zip_members ]};
     Download.dirs := {[ "stooq"; "stooq/.downloaded" ]};
     Download.console := [] |}.

Definition unpacked : Download.Disk * outcome unit :=
  Download.download_price_data refuses "us" "d" disk0.
End Example.

(** ** Further trees and disks *)

Module Scenario.
Import Example.
Local Existing Instance whole_numbers.

(** A tree whose only matching file holds a header and no row. *)
Definition only_headers : list File := [header_only].


(** A tree whose [nyse etfs] file has the header line only, and one whose
    [nyse etfs] bars are all of 1999. *)
Definition with_empty_class : list File :=
  [aadr;
   one_bar "nasdaq stocks" "aapl" "AAPL.US";
   {| path := "stooq/data/data/daily/us/nyse etfs" // "spy.us.txt"; content := Table [] |};
   one_bar "nyse stocks" "ibm" "IBM.US";
   one_bar "nysemkt stocks" "imo" "IMO.US"].

Definition spy_1999 : File :=
  {| path := "stooq/data/data/daily/us/nyse etfs" // "spy.us.txt";
     content := Table [bar "SPY.US" 1999 12 30 (num 1) (num 2) (num 1) (num 2) (num 3);
                       bar "SPY.US" 1999 12 31 (num 2) (num 3) (num 2) (num 3) (num 4)] |}.

Definition with_old_class : list File :=
  [aadr; one_bar "nasdaq stocks" "aapl" "AAPL.US"; spy_1999;
   one_bar "nyse stocks" "ibm" "IBM.US"; one_bar "nysemkt stocks" "imo" "IMO.US"].




(** A store that holds an older prices table under the key of [nyse etfs],
    with a row twice. *)
Definition old_table : DataFrame :=
  {| index_names := ["ticker"; "date"];
     columns := price_columns;
     rows := [bar "OLD.US" 2001 1 2 (num 1) (num 1) (num 1) (num 1) (num 1);
              bar "OLD.US" 2001 1 2 (num 1) (num 1) (num 1) (num 1) (num 1)] |}.

Definition w_old : World :=
  {| console := []; store := {[ "stooq/us/nyse/etfs/prices" := Prices old_table ]} |}.

(** A store that already holds an object of the Japanese market. *)
Definition w_jp : World :=
  {| console := [];
     store := {[ "stooq/jp/tse/stocks/tickers" := Tickers {[ "7203.JP" := "7203" ]} ]} |}.

(** A master file as [pd.read_csv] returns it: AADR.US twice, a row without
    a ticker, and AGZD.US first without and then with a name. *)
Definition emaster : Metadata.master :=
  Metadata.Parsed
    [Metadata.Text [Some "AADR.US"; Some "AADR.US "; Some "ACWX.US"; None;
                    Some "AGZD.US"; Some "AGZD.US"];
     Metadata.Text [Some "ADVISORSHARES"; Some "DORSEY"; Some " ISHARES"; Some "NAMEONLY";
                    None; Some "WISDOMTREE"]].

Definition meta_disk : Metadata.Disk :=
  {| Metadata.masters := {[ Metadata.master_path "us" "nasdaq etfs" "d" := emaster ]};
     Metadata.csvs := ∅;
     Metadata.dirs :=
       list_to_set (Download.ancestors (Metadata.master_path "us" "nasdaq etfs" "d"));
     Metadata.console := [] |}.

Definition symbols_stored : Metadata.Disk * Metadata.result unit :=
  Metadata.store_symbols "us" "nasdaq etfs" "d" meta_disk.

(** A disk for an absolute market and an absolute asset class: the csv
    of the asset class [/a] is [/a.csv], a directory above the tickers
    directory [/a.csv/b] of the market. *)
Definition absolute_disk : Metadata.Disk :=
  {| Metadata.masters := {[ Metadata.master_path "/a.csv/b" "/a" "d" := emaster ]};
     Metadata.csvs := ∅;
     Metadata.dirs := ∅;
     Metadata.console := [] |}.

(** The disk of the notebook's own run: the master file is not valid text. *)
Definition undecodable_disk : Metadata.Disk :=
  {| Metadata.masters :=
       {[ Metadata.master_path "us" "nasdaq etfs" "d"
          := Metadata.Unreadable UnicodeDecodeError ]};
     Metadata.csvs := ∅;
     Metadata.dirs :=
       list_to_set (Download.ancestors (Metadata.master_path "us" "nasdaq etfs" "d"));
     Metadata.console := [] |}.
End Scenario.

(** * Properties *)

Section Properties.
Context `{Float64}.
Implicit Types (w : World) (l : Locals) (file : File) (df : DataFrame).

(** ** The loop over the files *)

Lemma emit_eq e w :
  emit e w = ({| console := console w ++ [e]; store := store w |}, Ok ()).
Proof. reflexivity. Qed.

Lemma counter_eq i w :
  (if decide (i `mod` 500 = 0) then print (pretty i) else ret ()) w
  = ({| console := console w ++ counter_line i; store := store w |}, Ok ()).
Proof.
  unfold counter_line. destruct (decide _); simpl.
  - reflexivity.
  - rewrite app_nil_r. by destruct w.
Qed.

(** What one iteration does, by the content of the file. *)
Lemma iteration_unreadable frequency i file l w e :
  content file = Unreadable e →
  iteration frequency i file l w
  = if caught e
    then ({| console := console w ++ counter_line i
               ++ [read_event frequency file; missing_line file];
             store := store w |}, Ok l)
    else ({| console := console w ++ counter_line i ++ [read_event frequency file];
             store := store w |}, Raise e).
Proof.
  intros Hc. unfold iteration, bind. rewrite counter_eq, emit_eq.
  unfold try_body, read_csv. rewrite Hc. simpl.
  destruct (caught e); simpl; unfold raise, ret, print; rewrite ?emit_eq; simpl;
    by rewrite <- !(assoc_L (++)).
Qed.

Lemma iteration_empty frequency i file l w :
  content file = Table [] →
  iteration frequency i file l w
  = ({| console := console w ++ counter_line i
          ++ [read_event frequency file; missing_line file];
        store := store w |},
     Ok {| prices := prices l ++ [{| index_names := [];
                                     columns := read_columns names (usecols frequency)
                                                  (parse_dates frequency);
                                     rows := [] |}];
           tickers := tickers l |}).
Proof.
  intros Hc. unfold iteration, bind. rewrite counter_eq, emit_eq.
  unfold try_body, read_csv. rewrite Hc. simpl.
  unfold ret, print; rewrite ?emit_eq; simpl. by rewrite <- !(assoc_L (++)).
Qed.

Lemma iteration_table frequency i file l w r data :
  content file = Table (r :: data) →
  iteration frequency i file l w
  = ({| console := console w ++ counter_line i ++ [read_event frequency file];
        store := store w |},
     Ok {| prices := prices l ++ [{| index_names := [];
                                     columns := read_columns names (usecols frequency)
                                                  (parse_dates frequency);
                                     rows := r :: data |}];
           tickers := <[ticker r := lower (split_head "." (stem (path file)))]> (tickers l) |}).
Proof.
  intros Hc. unfold iteration, bind. rewrite counter_eq, emit_eq.
  unfold try_body, read_csv. rewrite Hc. simpl.
  unfold ret. by rewrite <- !(assoc_L (++)).
Qed.

Lemma content_cases file :
  aborts file ∨ skipped file
  ∨ ∃ r data, content file = Table (r :: data).
Proof.
  unfold aborts, skipped. destruct (content file) as [e|[|r data]] eqn:Hc; eauto 6.
  destruct (caught e) eqn:He; [|eauto].
  right; left. destruct e; simplify_eq; auto.
Qed.

Lemma skipped_data file : skipped file → data_of file = [].
Proof. unfold skipped, data_of. intros [->|[->| ->]]; done. Qed.

Lemma skipped_not_aborts file : skipped file → ¬ aborts file.
Proof. unfold skipped, aborts. intros [Hs|[Hs|Hs]] (e & He & Hc); rewrite Hs in He; by simplify_eq. Qed.

(** A skipped file: the read is traced once, the line is printed, the
    locals keep what they held (an empty frame may be appended). *)
Lemma iteration_skipped frequency i file l w :
  skipped file →
  ∃ l', iteration frequency i file l w
        = ({| console := console w ++ counter_line i
                ++ [read_event frequency file; missing_line file];
              store := store w |}, Ok l')
    ∧ tickers l' = tickers l
    ∧ prices l `prefix_of` prices l'
    ∧ mjoin (rows <$> prices l') = mjoin (rows <$> prices l).
Proof.
  intros [Hc|[Hc|Hc]].
  - exists l. rewrite (iteration_unreadable _ _ _ _ _ _ Hc). done.
  - exists l. rewrite (iteration_unreadable _ _ _ _ _ _ Hc). done.
  - eexists. rewrite (iteration_empty _ _ _ _ _ Hc). split; [done|]. simpl.
    split; [done|]. split; [by apply prefix_app_r|].
    rewrite fmap_app, join_app. simpl. by rewrite !app_nil_r.
Qed.

Lemma process_files_app frequency i pre post l w :
  process_files frequency i (pre ++ post) l w
  = match process_files frequency i pre l w with
    | (w1, Ok l1) => process_files frequency (i + length pre) post l1 w1
    | (w1, Raise e) => (w1, Raise e)
    end.
Proof.
  revert i l w. induction pre as [|file pre IH]; intros i l w; simpl.
  - unfold ret. by rewrite Nat.add_0_r.
  - unfold bind. destruct (iteration frequency i file l w) as [w1 [l1|e]]; [|done].
    rewrite IH. by replace (S i + length pre) with (i + S (length pre)) by lia.
Qed.

Lemma frame_of_rows frequency files :
  mjoin (rows <$> omap (frame_of frequency) files) = mjoin (data_of <$> files).
Proof.
  induction files as [|file files IH]; [done|]. csimpl.
  rewrite <- IH. unfold frame_of at 1, read_csv, data_of.
  by destruct (content file).
Qed.

Lemma iteration_Ok frequency i file l w w1 l1 :
  iteration frequency i file l w = (w1, Ok l1) →
  ¬ aborts file
  ∧ prices l1 = prices l ++ omap (frame_of frequency) [file]
  ∧ tickers l1 = add_ticker (tickers l) file
  ∧ store w1 = store w
  ∧ console w1 = console w ++ iteration_trace frequency i file.
Proof.
  csimpl. unfold iteration_trace, add_ticker, data_of, frame_of, read_csv, aborts.
  destruct (content file) as [e|[|r data]] eqn:Hc.
  - rewrite (iteration_unreadable _ _ _ _ _ _ Hc).
    destruct (caught e) eqn:He; intros ?; simplify_eq; simpl.
    rewrite app_nil_r. split; [intros (? & ? & ?); congruence|].
    rewrite decide_True; [done|].
    unfold skipped. rewrite Hc. destruct e; simplify_eq; auto.
  - rewrite (iteration_empty _ _ _ _ _ Hc). intros ?; simplify_eq; simpl.
    split; [intros (? & ? & ?); congruence|].
    rewrite decide_True; [done|]. unfold skipped. rewrite Hc. auto.
  - rewrite (iteration_table _ _ _ _ _ _ _ Hc). intros ?; simplify_eq; simpl.
    split; [intros (? & ? & ?); congruence|].
    rewrite decide_False; [done|]. unfold skipped. rewrite Hc. intros [?|[?|?]]; congruence.
Qed.

(** If the loop runs to its end, no file aborted it, and the locals and the
    trace are those of the files taken in order. *)
Lemma process_files_Ok frequency files : ∀ i l w w' l',
  process_files frequency i files l w = (w', Ok l') →
  Forall (λ file, ¬ aborts file) files
  ∧ prices l' = prices l ++ omap (frame_of frequency) files
  ∧ tickers l' = foldl add_ticker (tickers l) files
  ∧ store w' = store w
  ∧ console w' = console w ++ files_trace frequency i files.
Proof.
  induction files as [|file files IH]; intros i l w w' l' Hrun; simpl in Hrun.
  - unfold ret in Hrun. simplify_eq. simpl. by rewrite !app_nil_r.
  - unfold bind in Hrun.
    destruct (iteration frequency i file l w) as [w1 [l1|e]] eqn:Hit; [|done].
    apply iteration_Ok in Hit as (Hab1 & Hp1 & Ht1 & Hs1 & Hc1).
    apply IH in Hrun as (Hab & Hp & Ht & Hs & Hc).
    split; [by constructor|].
    rewrite Hp, Hp1, Ht, Ht1, Hs, Hs1, Hc, Hc1. simpl.
    rewrite <- !(assoc_L (++)). repeat split; try done.
    by destruct (frame_of frequency file).
Qed.

(** Conversely the loop runs to its end when no file aborts it. *)
Lemma process_files_returns frequency files : ∀ i l w,
  Forall (λ file, ¬ aborts file) files →
  ∃ w' l', process_files frequency i files l w = (w', Ok l').
Proof.
  induction files as [|file files IH]; intros i l w Hall; simpl.
  - unfold ret. eauto.
  - apply Forall_cons in Hall as [Hfile Hall]. unfold bind.
    destruct (content_cases file) as [?|[Hs|(r & data & Hc)]]; [done|..].
    + destruct (iteration_skipped frequency i file l w Hs) as (l1 & -> & _).
      apply IH, Hall.
    + rewrite (iteration_table _ _ _ _ _ _ _ Hc). apply IH, Hall.
Qed.

(** ** The combined table *)

Lemma read_columns_eq frequency :
  read_columns names (usecols frequency) (parse_dates frequency)
  = if intraday frequency
    then "date_time" :: "ticker" :: price_columns
    else "ticker" :: "date" :: price_columns.
Proof. unfold usecols, parse_dates. by destruct (intraday frequency). Qed.

Lemma frame_of_columns frequency files :
  Forall (λ df, columns df
                = read_columns names (usecols frequency) (parse_dates frequency))
         (omap (frame_of frequency) files).
Proof.
  induction files as [|file files IH]; csimpl; [done|].
  unfold frame_of at 1, read_csv. destruct (content file); [done|].
  by constructor.
Qed.

Lemma filter_known (cs acc : list string) :
  cs ⊆ acc → filter (λ c, c ∉ acc) cs = [].
Proof.
  induction cs as [|c cs IH]; intros Hsub; [done|].
  rewrite filter_cons_False; [|set_solver]. apply IH. set_solver.
Qed.

Lemma filter_fresh (cs : list string) : filter (λ c, c ∉ []) cs = cs.
Proof.
  induction cs as [|c cs IH]; [done|].
  rewrite filter_cons_True; [|set_solver]. by rewrite IH.
Qed.

Lemma concat_columns_same cs df frames :
  Forall (λ df, columns df = cs) (df :: frames) →
  concat_columns (df :: frames) = cs.
Proof.
  intros [Hdf Hall]%Forall_cons. unfold concat_columns. simpl.
  rewrite Hdf, filter_fresh. clear Hdf.
  induction Hall as [|df' frames Hdf' _ IH]; [done|]. simpl.
  rewrite Hdf', filter_known, app_nil_r; done.
Qed.

Lemma set_index_combined frequency data :
  set_index ["ticker"; date_label frequency]
    (rename_lower
       {| index_names := [];
          columns := read_columns names (usecols frequency) (parse_dates frequency);
          rows := data |})
  = Ok {| index_names := ["ticker"; date_label frequency];
          columns := price_columns;
          rows := data |}.
Proof.
  rewrite read_columns_eq. unfold date_label.
  by destruct (intraday frequency).
Qed.

(** The steps after the loop, for a non-empty list of frames read with the
    schema of the call. *)
Lemma combine_frames frequency files df frames :
  omap (frame_of frequency) files = df :: frames →
  ∃ combined,
    pd_concat (df :: frames) = Ok combined
    ∧ rows combined = mjoin (data_of <$> files)
    ∧ set_index ["ticker"; date_label frequency] (rename_lower combined)
      = Ok {| index_names := ["ticker"; date_label frequency];
              columns := price_columns;
              rows := rows combined |}.
Proof.
  intros Hframes. eexists. split; [reflexivity|]. cbn [rows]. split.
  - rewrite <- Hframes. apply frame_of_rows.
  - erewrite concat_columns_same;
      [|rewrite <- Hframes; apply frame_of_columns].
    apply set_index_combined.
Qed.

Lemma has_frame_omap frequency files :
  omap (frame_of frequency) files ≠ [] ↔ Exists has_frame files.
Proof.
  induction files as [|file files IH]; csimpl.
  - split; [done|]. by intros ?%Exists_nil.
  - rewrite Exists_cons, <- IH. unfold frame_of at 1, read_csv, has_frame.
    destruct (content file) as [e|data]; simpl.
    + split; [auto|]. intros [(? & ?)|?]; done.
    + split; [eauto|done].
Qed.

(** What [get_stooq_prices_and_tickers] returns, when it returns. *)
Lemma get_stooq_Ok fs frequency market asset_class w w' df t :
  get_stooq_prices_and_tickers fs frequency market asset_class w = (w', Ok (df, t)) →
  let files := glob_txt fs (data_path frequency market asset_class) in
  Forall (λ file, ¬ aborts file) files
  ∧ Exists has_frame files
  ∧ df = {| index_names := ["ticker"; date_label frequency];
            columns := price_columns;
            rows := to_numeric_row <$> mjoin (data_of <$> files) |}
  ∧ t = foldl add_ticker ∅ files
  ∧ store w' = store w
  ∧ console w' = console w
      ++ Print (data_path frequency market asset_class)
      :: files_trace frequency 1 files.
Proof.
  intros Hrun files. unfold get_stooq_prices_and_tickers, bind in Hrun.
  unfold print in Hrun. rewrite emit_eq in Hrun. fold files in Hrun.
  destruct (process_files _ _ _ _ _) as [w1 [l1|e]] eqn:Hloop; [|done].
  apply process_files_Ok in Hloop as (Hab & Hp & Ht & Hs & Hc).
  simpl in Hp, Ht, Hs, Hc. unfold lift in Hrun.
  destruct (prices l1) as [|df1 frames] eqn:Hl1; [done|].
  destruct (combine_frames frequency files df1 frames) as (combined & Hcat & Hrows & Hidx);
    [done|].
  rewrite Hcat, Hidx in Hrun. unfold ret in Hrun. simplify_eq.
  split; [done|]. split; [apply (has_frame_omap frequency); by rewrite <- Hp|].
  rewrite Hs, Hc, <- (assoc_L (++)). unfold apply_to_numeric. simpl.
  by rewrite Hrows.
Qed.

(** When it returns: no file aborts the loop and some file is read into a
    frame. *)
Lemma get_stooq_returns fs frequency market asset_class w :
  let files := glob_txt fs (data_path frequency market asset_class) in
  Forall (λ file, ¬ aborts file) files →
  Exists has_frame files →
  ∃ w' r, get_stooq_prices_and_tickers fs frequency market asset_class w = (w', Ok r).
Proof.
  intros files Hab Hex. unfold get_stooq_prices_and_tickers, bind.
  unfold print. rewrite emit_eq. fold files.
  destruct (process_files_returns frequency files 1
              {| prices := []; tickers := ∅ |}
              {| console := console w ++ [Print (data_path frequency market asset_class)];
                 store := store w |} Hab) as (w1 & l1 & Hloop).
  rewrite Hloop. apply process_files_Ok in Hloop as (_ & Hp & _).
  simpl in Hp. apply (has_frame_omap frequency) in Hex.
  destruct (omap (frame_of frequency) files) as [|df1 frames] eqn:Hframes; [done|].
  destruct (combine_frames frequency files df1 frames) as (combined & Hcat & Hrows & Hidx);
    [done|].
  unfold lift. rewrite Hp, Hcat, Hidx. unfold ret. eauto.
Qed.

(** ** Duplicates *)

Section Duplicates.
Context {A K : Type} `{EqDecision K} (key : A → K).
Implicit Types (xs : list A) (seen : list K).
Abbreviation kept := (kept key).

Lemma kept_cons seen x xs :
  kept seen (x :: xs)
  = if decide (key x ∈ seen) then kept (key x :: seen) xs
    else x :: kept (key x :: seen) xs.
Proof.
  unfold kept. cbn [fmap list_fmap duplicated_from select].
  unfold bool_decide. by destruct (decide_rel _ _ _).
Qed.

Lemma kept_sublist xs : ∀ seen, kept seen xs `sublist_of` xs.
Proof.
  induction xs as [|x xs IH]; intros seen; [done|]. rewrite kept_cons.
  case_decide; [apply sublist_cons|apply sublist_skip]; apply IH.
Qed.

Lemma kept_fresh xs : ∀ seen x, x ∈ kept seen xs → key x ∉ seen.
Proof.
  induction xs as [|y xs IH]; intros seen x; [by intros ?%elem_of_nil|].
  rewrite kept_cons. destruct (decide _) as [Hy|Hy].
  - intros Hx%IH. set_solver.
  - intros [->|Hx%IH]%elem_of_cons; set_solver.
Qed.

Lemma kept_NoDup_keys xs : ∀ seen, NoDup (key <$> kept seen xs).
Proof.
  induction xs as [|x xs IH]; intros seen; [constructor|]. rewrite kept_cons.
  destruct (decide _); [apply IH|]. csimpl. constructor; [|apply IH].
  intros (y & Hy & Hin%kept_fresh)%list_elem_of_fmap. set_solver.
Qed.

Lemma kept_NoDup xs seen : NoDup (kept seen xs).
Proof. eapply NoDup_fmap_1, kept_NoDup_keys. Qed.

(** Every key that is not yet seen keeps a representative; when the key
    determines the element, the element itself. *)
Lemma kept_elem xs : ∀ seen x,
  (∀ y, y ∈ xs → key y = key x → y = x) →
  x ∈ kept seen xs ↔ x ∈ xs ∧ key x ∉ seen.
Proof.
  induction xs as [|y xs IH]; intros seen x Hinj.
  { split; [by intros ?%elem_of_nil|by intros [?%elem_of_nil _]]. }
  rewrite kept_cons.
  assert (Hx : x ∈ kept (key y :: seen) xs ↔ x ∈ xs ∧ key x ∉ key y :: seen).
  { apply IH. intros z Hz. apply Hinj. by right. }
  destruct (decide (key y ∈ seen)) as [Hy|Hy].
  - rewrite Hx. split.
    + intros [Hin Hk]. split; [by right|]. intros ?. apply Hk. by right.
    + intros [[->|Hin]%elem_of_cons Hk]; [done|].
      split; [done|]. intros [Heq|?]%elem_of_cons; [|done]. congruence.
  - rewrite elem_of_cons, Hx. split.
    + intros [->|[Hin Hk]]; [split; [by left|done]|].
      split; [by right|]. intros ?. apply Hk. by right.
    + intros [[->|Hin]%elem_of_cons Hk]; [by left|].
      destruct (decide (key y = key x)) as [Heq|Hne].
      * left. symmetry. apply Hinj; [by left|done].
      * right. split; [done|]. intros [?|?]%elem_of_cons; [|done]. congruence.
Qed.

(** The mask is true exactly at an element whose key was seen or occurs
    at an earlier position. *)
Lemma duplicated_from_lookup (ks : list K) : ∀ seen i k,
  ks !! i = Some k →
  duplicated_from seen ks !! i
  = Some (bool_decide (k ∈ seen ∨ k ∈ take i ks)).
Proof.
  induction ks as [|k0 ks IH]; intros seen i k Hi; [done|].
  destruct i as [|i]; simpl in *.
  - simplify_eq. f_equal. apply bool_decide_ext. rewrite elem_of_nil. tauto.
  - rewrite (IH _ _ _ Hi). f_equal. apply bool_decide_ext.
    rewrite !elem_of_cons. tauto.
Qed.
End Duplicates.

(** ** The table that is written *)

(** Over the seven columns, the column values determine the row. *)
Lemma column_values_inj d (r1 r2 : Row) :
  d = "date" ∨ d = "date_time" →
  get_field r1 <$> "ticker" :: d :: price_columns
  = get_field r2 <$> "ticker" :: d :: price_columns →
  r1 = r2.
Proof.
  intros [-> | ->] Heq; vm_compute in Heq;
    destruct r1, r2; simpl in *; by simplify_eq.
Qed.

Lemma date_label_cases frequency :
  date_label frequency = "date" ∨ date_label frequency = "date_time".
Proof. unfold date_label. destruct (intraday frequency); auto. Qed.

Lemma rows_deduplicated df :
  rows (deduplicated df) = kept (column_values (reset_index df)) [] (rows df).
Proof. reflexivity. Qed.

Lemma set_index_deduplicated d df :
  d = "date" ∨ d = "date_time" →
  index_names df = ["ticker"; d] →
  columns df = price_columns →
  set_index (index_names df) (deduplicated df)
  = Ok {| index_names := ["ticker"; d];
          columns := price_columns;
          rows := rows (deduplicated df) |}.
Proof.
  intros Hd Hidx Hcols.
  assert (Hc : columns (deduplicated df) = ["ticker"; d] ++ price_columns).
  { cbn [deduplicated drop_duplicates reset_index columns]. by rewrite Hidx, Hcols. }
  unfold set_index. rewrite Hc, Hidx. by destruct Hd as [-> | ->].
Qed.

(** The slice of the sorted table: taken when the index is lexsorted. *)
Lemma loc_years_sorted df :
  loc_years 2000 2019 (sort_index df)
  = if decide (sliceable df) then Ok (selected_years df) else Raise UnsortedIndexError.
Proof.
  unfold loc_years, sliceable, selected_years.
  by destruct (is_lexsorted (rows (sort_index df))).
Qed.

(** A table with the (ticker, date) index and the five price columns is
    written when it can be sliced, and the written table has the same
    shape; when it cannot be sliced the step raises. *)
Lemma written_table_Ok d df :
  d = "date" ∨ d = "date_time" →
  index_names df = ["ticker"; d] →
  columns df = price_columns →
  sliceable df →
  written_table df
  = Ok {| index_names := ["ticker"; d];
          columns := price_columns;
          rows := merge_sort index_le (rows (deduplicated (selected_years df))) |}.
Proof.
  intros Hd Hidx Hcols Hs. unfold written_table.
  rewrite loc_years_sorted, decide_True by done. cbn zeta.
  by rewrite (set_index_deduplicated d).
Qed.

Lemma written_table_unsorted df :
  ¬ sliceable df → written_table df = Raise UnsortedIndexError.
Proof.
  intros Hs. unfold written_table. by rewrite loc_years_sorted, decide_False.
Qed.

Lemma written_table_sliceable df table :
  written_table df = Ok table → sliceable df.
Proof.
  intros Hw. destruct (decide (sliceable df)) as [|Hs]; [done|].
  by rewrite written_table_unsorted in Hw.
Qed.

Lemma elem_of_selected_years df r :
  r ∈ rows (selected_years df)
  ↔ r ∈ rows df ∧ in_years 2000 2019 r.
Proof.
  unfold selected_years, sort_index. cbn [rows].
  rewrite list_elem_of_filter, merge_sort_Permutation. tauto.
Qed.

Lemma deduplicated_sublist df : rows (deduplicated df) `sublist_of` rows df.
Proof. rewrite rows_deduplicated. apply kept_sublist. Qed.

Lemma deduplicated_elem d df r :
  d = "date" ∨ d = "date_time" →
  index_names df = ["ticker"; d] →
  columns df = price_columns →
  r ∈ rows (deduplicated df) ↔ r ∈ rows df.
Proof.
  intros Hd Hidx Hcols. rewrite rows_deduplicated, kept_elem.
  - rewrite elem_of_nil. tauto.
  - intros r' _. unfold column_values, reset_index. cbn [columns].
    rewrite Hidx, Hcols. by apply column_values_inj.
Qed.

Lemma deduplicated_NoDup df : NoDup (rows (deduplicated df)).
Proof. rewrite rows_deduplicated. apply kept_NoDup. Qed.

(** ** The store *)

Lemma store_key_fields market asset_class :
  store_key market asset_class +:+ "prices"
  ≠ store_key market asset_class +:+ "tickers".
Proof. by intros ?%(inj (String.app _)). Qed.

Lemma put_lookup key obj (store : gmap string stored) :
  put key obj store !! key = held_after obj (store !! key).
Proof.
  unfold put, held_after. destruct (is_empty obj); [done|apply lookup_insert_eq].
Qed.

Lemma put_lookup_ne key obj (store : gmap string stored) k :
  key ≠ k → put key obj store !! k = store !! k.
Proof.
  intros Hne. unfold put. destruct (is_empty obj); [done|by apply lookup_insert_ne].
Qed.

Lemma to_hdf_eq obj key w :
  to_hdf obj key w = ({| console := console w; store := put key obj (store w) |}, Ok ()).
Proof. reflexivity. Qed.

(** One asset class: what is in the store once its two writes are done. *)
Lemma store_asset_class_Ok fs market asset_class w w' :
  store_asset_class fs market asset_class w = (w', Ok ()) →
  let files := glob_txt fs (data_path frequency market asset_class) in
  (∃ w1, get_stooq_prices_and_tickers fs frequency market asset_class
           {| console := console w ++ [Print (newline +:+ asset_class)];
              store := store w |}
         = (w1, Ok (combined_prices frequency files, foldl add_ticker ∅ files)))
  ∧ written_table (combined_prices frequency files) = Ok (stored_prices files)
  ∧ store w' = write_asset_class fs market (store w) asset_class.
Proof.
  intros Hrun files. unfold store_asset_class, bind in Hrun.
  unfold print in Hrun. rewrite emit_eq in Hrun.
  destruct (get_stooq_prices_and_tickers _ _ _ _ _) as [w1 [[prices t]|e]] eqn:Hget;
    [|done].
  pose proof (get_stooq_Ok _ _ _ _ _ _ _ _ Hget) as (_ & _ & Hdf & Ht & Hs & _).
  fold files in Hdf, Ht. fold (combined_prices frequency files) in Hdf.
  simpl in Hs. subst prices t. unfold lift in Hrun.
  destruct (decide (sliceable (combined_prices frequency files))) as [Hsl|Hsl];
    [|by rewrite written_table_unsorted in Hrun].
  pose proof (written_table_Ok "date" (combined_prices frequency files)
                (or_introl eq_refl) eq_refl eq_refl Hsl) as Hw.
  rewrite Hw in Hrun. rewrite !emit_eq, !to_hdf_eq in Hrun.
  cbn [store console] in Hrun. injection Hrun as <-.
  split; [by exists w1|]. split; [exact Hw|].
  cbn [store]. by rewrite Hs.
Qed.

Lemma written_rows files r :
  r ∈ rows (stored_prices files)
  ↔ r ∈ rows (combined_prices frequency files) ∧ in_years 2000 2019 r.
Proof.
  unfold stored_prices. cbn [rows]. rewrite merge_sort_Permutation.
  rewrite (deduplicated_elem "date") by auto.
  apply elem_of_selected_years.
Qed.

Lemma written_rows_NoDup files : NoDup (rows (stored_prices files)).
Proof.
  unfold stored_prices. cbn [rows]. rewrite merge_sort_Permutation.
  apply deduplicated_NoDup.
Qed.

(** What the two keys of an asset class hold after its step. *)
Lemma written_lookup fs market asset_class (store : gmap string stored) :
  let files := glob_txt fs (data_path frequency market asset_class) in
  write_asset_class fs market store asset_class
    !! (store_key market asset_class +:+ "prices")
  = held_after (Prices (stored_prices files))
      (store !! (store_key market asset_class +:+ "prices"))
  ∧ write_asset_class fs market store asset_class
      !! (store_key market asset_class +:+ "tickers")
    = held_after (Tickers (foldl add_ticker ∅ files))
        (store !! (store_key market asset_class +:+ "tickers")).
Proof.
  intros files. unfold write_asset_class. cbv zeta. fold files. split.
  - rewrite put_lookup_ne by (symmetry; apply store_key_fields). apply put_lookup.
  - rewrite put_lookup. by rewrite put_lookup_ne by apply store_key_fields.
Qed.

(** The step returns with the table that is handed to [to_hdf]. *)
Lemma store_asset_class_written fs market asset_class w w' :
  store_asset_class fs market asset_class w = (w', Ok ()) →
  let files := glob_txt fs (data_path frequency market asset_class) in
  ∃ w1,
    get_stooq_prices_and_tickers fs frequency market asset_class
      {| console := console w ++ [Print (newline +:+ asset_class)]; store := store w |}
    = (w1, Ok (combined_prices frequency files, foldl add_ticker ∅ files))
    ∧ written_table (combined_prices frequency files) = Ok (stored_prices files)
    ∧ store w' !! (store_key market asset_class +:+ "prices")
      = held_after (Prices (stored_prices files))
          (store w !! (store_key market asset_class +:+ "prices"))
    ∧ store w' !! (store_key market asset_class +:+ "tickers")
      = held_after (Tickers (foldl add_ticker ∅ files))
          (store w !! (store_key market asset_class +:+ "tickers")).
Proof.
  intros ([w1 Hget] & Hw & ->)%store_asset_class_Ok files.
  exists w1. split; [done|]. split; [done|]. apply written_lookup.
Qed.

(** The writes are done whenever the table can be read and sliced. *)
Lemma store_asset_class_returns fs market asset_class w :
  Forall (λ file, ¬ aborts file)
         (glob_txt fs (data_path frequency market asset_class)) →
  Exists has_frame (glob_txt fs (data_path frequency market asset_class)) →
  sliceable (combined_prices frequency
               (glob_txt fs (data_path frequency market asset_class))) →
  ∃ w', store_asset_class fs market asset_class w = (w', Ok ()).
Proof.
  intros Hab Hex Hsl. unfold store_asset_class, bind. unfold print. rewrite emit_eq.
  destruct (get_stooq_returns fs frequency market asset_class
              {| console := console w ++ [Print (newline +:+ asset_class)];
                 store := store w |} Hab Hex) as (w1 & [prices t] & Hget).
  rewrite Hget. apply get_stooq_Ok in Hget as (_ & _ & -> & _).
  unfold lift.
  pose proof (written_table_Ok "date"
                (combined_prices frequency
                   (glob_txt fs (data_path frequency market asset_class)))
                (or_introl eq_refl) eq_refl eq_refl Hsl) as Hw.
  unfold combined_prices in Hw at 1. rewrite Hw.
  rewrite !emit_eq, !to_hdf_eq. eauto.
Qed.

(** ** The trace of the loop *)

Lemma files_trace_app frequency pre post : ∀ i,
  files_trace frequency i (pre ++ post)
  = files_trace frequency i pre ++ files_trace frequency (i + length pre) post.
Proof.
  induction pre as [|file pre IH]; intros i; simpl.
  - by rewrite Nat.add_0_r.
  - rewrite IH, <- (assoc_L (++)).
    by replace (S i + length pre) with (i + S (length pre)) by lia.
Qed.

Lemma reads_of_counter i : filter is_read (counter_line i) = [].
Proof. unfold counter_line. by destruct (decide _). Qed.

Lemma reads_of_trace frequency files : ∀ i,
  filter is_read (files_trace frequency i files) = read_event frequency <$> files.
Proof.
  induction files as [|file files IH]; intros i; [done|]. simpl.
  unfold iteration_trace. rewrite !filter_app, reads_of_counter, IH.
  rewrite filter_cons_True by done. by destruct (decide (skipped file)).
Qed.

Lemma missing_line_in_trace frequency file :
  skipped file → ∀ i, missing_line file ∈ iteration_trace frequency i file.
Proof.
  intros Hs i. unfold iteration_trace. rewrite decide_True by done.
  apply elem_of_app. right. apply elem_of_cons. right. by left.
Qed.

(** ** Skipped files *)

(** C1. A file whose parse raises the empty-data error or an [IndexError]
    is logged to the console and skipped; it is read once (no retry), the
    loop goes on with the files after it, the frames and tickers collected
    before it stay, and the combined result holds the rows of all the other
    files. *)
Theorem skipped_file_logged_and_skipped
    fs frequency market asset_class w pre file post :
  glob_txt fs (data_path frequency market asset_class) = pre ++ file :: post →
  skipped file →
  Forall (λ f, ¬ aborts f) pre →
  let l0 := {| prices := []; tickers := ∅ |} in
  let w0 := {| console := console w ++ [Print (data_path frequency market asset_class)];
               store := store w |} in
  let i := S (length pre) in
  ∃ w1 l1 w2 l2,
    process_files frequency 1 pre l0 w0 = (w1, Ok l1)
    ∧ iteration frequency i file l1 w1 = (w2, Ok l2)
    ∧ console w2 = console w1 ++ counter_line i
                     ++ [read_event frequency file; missing_line file]
    ∧ tickers l2 = tickers l1
    ∧ prices l1 `prefix_of` prices l2
    ∧ mjoin (rows <$> prices l2) = mjoin (rows <$> prices l1)
    ∧ process_files frequency 1 (pre ++ file :: post) l0 w0
      = process_files frequency (S i) post l2 w2
    ∧ ∀ w' prices tickers,
        get_stooq_prices_and_tickers fs frequency market asset_class w
        = (w', Ok (prices, tickers)) →
        rows prices = to_numeric_row <$> mjoin (data_of <$> pre ++ post)
        ∧ missing_line file ∈ console w'.
Proof.
  intros Hglob Hskip Hpre l0 w0 i.
  destruct (process_files_returns frequency pre 1 l0 w0 Hpre) as (w1 & l1 & Hloop).
  destruct (iteration_skipped frequency i file l1 w1 Hskip)
    as (l2 & Hit & Ht & Hp & Hrows).
  exists w1, l1. eexists. exists l2.
  split; [done|]. split; [exact Hit|]. split; [done|].
  split; [done|]. split; [done|]. split; [done|]. split.
  - rewrite process_files_app, Hloop. cbn [process_files]. unfold bind at 1.
    change (1 + length pre) with i. by rewrite Hit.
  - intros w' prices tickers Hget.
    apply get_stooq_Ok in Hget as (_ & _ & -> & _ & _ & Hc). rewrite Hglob in Hc.
    rewrite Hglob. cbn [rows]. split.
    + rewrite !fmap_app, !join_app. csimpl.
      by rewrite (skipped_data file Hskip).
    + rewrite Hc, files_trace_app. simpl.
      apply elem_of_app. right. apply elem_of_cons. right.
      apply elem_of_app. right. apply elem_of_app. left.
      by apply missing_line_in_trace.
Qed.

(** ** Returning normally *)

(** C2, amended. [get_stooq_prices_and_tickers] returns a (prices, tickers)
    result when no file's read raises an error other than the two caught
    ones and at least one file is read into a frame. *)
Theorem get_stooq_returns_normally fs frequency market asset_class w :
  Forall (λ file, ¬ aborts file)
         (glob_txt fs (data_path frequency market asset_class)) →
  Exists has_frame (glob_txt fs (data_path frequency market asset_class)) →
  returns (get_stooq_prices_and_tickers fs frequency market asset_class w).2.
Proof.
  intros Hab Hex.
  destruct (get_stooq_returns fs frequency market asset_class w Hab Hex)
    as (w' & r & ->).
  done.
Qed.

(** An error the [except] clause does not list is propagated. *)
Lemma get_stooq_propagates fs frequency market asset_class w pre file post e :
  glob_txt fs (data_path frequency market asset_class) = pre ++ file :: post →
  Forall (λ f, ¬ aborts f) pre →
  content file = Unreadable e →
  caught e = false →
  (get_stooq_prices_and_tickers fs frequency market asset_class w).2 = Raise e.
Proof.
  intros Hglob Hpre Hc He. unfold get_stooq_prices_and_tickers, bind.
  unfold print. rewrite emit_eq, Hglob, process_files_app.
  destruct (process_files_returns frequency pre 1 {| prices := []; tickers := ∅ |}
              {| console := console w ++ [Print (data_path frequency market asset_class)];
                 store := store w |} Hpre) as (w1 & l1 & ->).
  simpl. unfold bind. by rewrite (iteration_unreadable _ _ _ _ _ _ Hc), He.
Qed.

(** With no frame collected, [pd.concat] raises. *)
Lemma get_stooq_nothing_to_concatenate fs frequency market asset_class w :
  Forall (λ file, ¬ aborts file ∧ ¬ has_frame file)
         (glob_txt fs (data_path frequency market asset_class)) →
  (get_stooq_prices_and_tickers fs frequency market asset_class w).2 = Raise ValueError.
Proof.
  intros Hall. unfold get_stooq_prices_and_tickers, bind.
  unfold print. rewrite emit_eq.
  destruct (process_files_returns frequency
              (glob_txt fs (data_path frequency market asset_class)) 1
              {| prices := []; tickers := ∅ |}
              {| console := console w ++ [Print (data_path frequency market asset_class)];
                 store := store w |}) as (w1 & l1 & Hloop).
  { eapply Forall_impl; [done|]. by intros ? [? _]. }
  rewrite Hloop. apply process_files_Ok in Hloop as (_ & Hp & _). simpl in Hp.
  destruct (decide (omap (frame_of frequency)
                      (glob_txt fs (data_path frequency market asset_class)) = []))
    as [Hnil|Hne].
  - unfold lift. by rewrite Hp, Hnil.
  - apply has_frame_omap, Exists_exists in Hne as (file & Hin & Hf).
    rewrite Forall_forall in Hall. by destruct (Hall file Hin).
Qed.

(** ** One pass, one schema, one concatenation *)

(** C7. [get_stooq_prices_and_tickers] makes one pass over the files below
    the dataset directory: each is read once, in enumeration order and with
    the one schema of the call, its console lines come before the next
    read, and the combined table is the concatenation of the per-file
    tables in that order (indexed by ticker and date or date_time, with the
    columns open, high, low, close and volume). *)
Theorem single_pass_concatenation fs frequency market asset_class w w' prices tickers :
  get_stooq_prices_and_tickers fs frequency market asset_class w
  = (w', Ok (prices, tickers)) →
  let dir := data_path frequency market asset_class in
  let files := filter (λ f, startswith (dir +:+ "/") (path f)
                            && endswith ".txt" (name (path f))) fs in
  console w' = console w ++ Print dir :: files_trace frequency 1 files
  ∧ filter is_read (console w')
    = filter is_read (console w)
      ++ ((λ file, Read (path file) names (usecols frequency) (parse_dates frequency))
            <$> files)
  ∧ index_names prices = ["ticker"; date_label frequency]
  ∧ (date_label frequency = "date" ∨ date_label frequency = "date_time")
  ∧ columns prices = ["open"; "high"; "low"; "close"; "volume"]
  ∧ ∃ combined,
      pd_concat (omap (frame_of frequency) files) = Ok combined
      ∧ rows combined = mjoin (rows <$> omap (frame_of frequency) files)
      ∧ rows combined = mjoin (data_of <$> files)
      ∧ rows prices = to_numeric_row <$> rows combined.
Proof.
  intros Hget dir files.
  apply get_stooq_Ok in Hget as (_ & Hex & -> & _ & _ & Hc).
  fold dir in Hex, Hc. fold (glob_txt fs dir) in files. fold files in Hex, Hc |- *.
  split; [done|]. split.
  { rewrite Hc, filter_app, filter_cons_False by (by intros ?).
    by rewrite reads_of_trace. }
  split; [done|]. split; [apply date_label_cases|]. split; [done|].
  apply (has_frame_omap frequency) in Hex.
  destruct (omap (frame_of frequency) files) as [|df frames] eqn:Hframes; [done|].
  destruct (combine_frames frequency files df frames Hframes)
    as (combined & Hcat & Hrows & _).
  exists combined. split; [done|]. split; [|split; [done|]].
  - rewrite Hrows, <- Hframes. symmetry. apply frame_of_rows.
  - cbn [rows]. by rewrite Hrows.
Qed.

(** ** The tickers series *)

Lemma add_ticker_first acc file :
  add_ticker acc file
  = match first_ticker file with
    | Some k => <[k := stem_key file]> acc
    | None => acc
    end.
Proof. unfold add_ticker, first_ticker. by destruct (data_of file). Qed.

Lemma tickers_keep files : ∀ (acc : gmap string string) k v,
  acc !! k = Some v →
  Forall (λ g, first_ticker g ≠ Some k) files →
  foldl add_ticker acc files !! k = Some v.
Proof.
  induction files as [|g files IH]; intros acc k v Hk Hall; [done|].
  apply Forall_cons in Hall as [Hg Hall]. simpl. apply IH; [|done].
  rewrite add_ticker_first. destruct (first_ticker g) as [k'|]; [|done].
  rewrite lookup_insert_ne; [done|congruence].
Qed.

Lemma tickers_dom files : ∀ (acc : gmap string string),
  dom (foldl add_ticker acc files)
  = dom acc ∪ list_to_set (omap first_ticker files).
Proof.
  induction files as [|g files IH]; intros acc; csimpl.
  - by rewrite (right_id_L ∅ (∪)).
  - rewrite IH, add_ticker_first. destruct (first_ticker g) as [k|]; [|done].
    rewrite dom_insert_L. csimpl. by rewrite (comm_L (∪) {[k]}), (assoc_L (∪)).
Qed.

Lemma parsed_first_ticker files :
  length (filter parsed files) = length (omap first_ticker files).
Proof.
  induction files as [|g files IH]; [done|]. csimpl.
  unfold first_ticker at 1. destruct (decide (parsed g)) as [Hp|Hp].
  - rewrite filter_cons_True by done. unfold parsed in Hp.
    destruct (data_of g); [done|]. simpl. by rewrite IH.
  - rewrite filter_cons_False by done. unfold parsed in Hp.
    destruct (data_of g); [done|]. by destruct Hp.
Qed.

Lemma size_union_le (X Y : gset string) : size (X ∪ Y) ≤ size X + size Y.
Proof.
  rewrite size_union_alt. apply Nat.add_le_mono_l, subseteq_size.
  apply subseteq_difference_l. done.
Qed.

Lemma size_list_to_set_le (ks : list string) :
  size (list_to_set ks : gset string) ≤ length ks.
Proof.
  induction ks as [|k ks IH].
  - by rewrite list_to_set_nil, size_empty.
  - rewrite list_to_set_cons. etrans; [apply size_union_le|].
    rewrite size_singleton. simpl. lia.
Qed.

Lemma omap_lookup_lt {A B} (f : A → option B) (xs : list A) : ∀ i j x y k,
  i < j → xs !! i = Some x → xs !! j = Some y →
  f x = Some k → f y = Some k →
  ∃ i' j', i' < j' ∧ omap f xs !! i' = Some k ∧ omap f xs !! j' = Some k.
Proof.
  induction xs as [|a xs IH]; intros i j x y k Hij Hi Hj Hx Hy; [done|].
  destruct j as [|j]; [lia|]. simpl in Hj. destruct i as [|i]; simpl in Hi.
  - simplify_eq. csimpl. rewrite Hx.
    assert (k ∈ omap f xs) as [j' Hj']%list_elem_of_lookup.
    { apply list_elem_of_omap. exists y. split; [|done].
      apply list_elem_of_lookup. eauto. }
    exists 0, (S j'). split; [lia|done].
  - destruct (IH i j x y k) as (i' & j' & ? & ? & ?); [lia|done..|].
    csimpl. destruct (f a).
    + exists (S i'), (S j'). split; [lia|done].
    + exists i', j'. done.
Qed.

Lemma size_list_to_set_lt (ks : list string) : ∀ i j k,
  i < j → ks !! i = Some k → ks !! j = Some k →
  size (list_to_set ks : gset string) < length ks.
Proof.
  induction ks as [|k0 ks IH]; intros i j k Hij Hi Hj; [done|].
  destruct j as [|j]; [lia|]. simpl in Hj. rewrite list_to_set_cons.
  destruct i as [|i]; simpl in Hi |- *.
  - simplify_eq.
    assert (Hin : k ∈ (list_to_set ks : gset string)).
    { apply elem_of_list_to_set, list_elem_of_lookup. eauto. }
    replace ({[k]} ∪ list_to_set ks : gset string) with (list_to_set ks : gset string).
    + pose proof (size_list_to_set_le ks). lia.
    + apply set_eq. intros x. rewrite elem_of_union, elem_of_singleton.
      split; [auto|]. by intros [->|?].
  - assert (size (list_to_set ks : gset string) < length ks)
      by (apply (IH i j k); [lia|done..]).
    pose proof (size_union_le ({[k0]} : gset string) (list_to_set ks)) as Hle.
    rewrite size_singleton in Hle. lia.
Qed.

(** C10. In the returned tickers series every parsed file maps the ticker
    of its first data row to its lower-cased name stem before the first
    dot; the file enumerated last wins, and when two parsed files share the
    first-row ticker the series has fewer entries than there are parsed
    files. *)
Theorem tickers_last_write_wins fs frequency market asset_class w w' prices tickers :
  get_stooq_prices_and_tickers fs frequency market asset_class w
  = (w', Ok (prices, tickers)) →
  let files := glob_txt fs (data_path frequency market asset_class) in
  tickers = foldl add_ticker ∅ files
  ∧ (∀ k, is_Some (tickers !! k)
          ↔ ∃ file r data, file ∈ files ∧ data_of file = r :: data ∧ ticker r = k)
  ∧ (∀ pre file post r data,
       files = pre ++ file :: post →
       data_of file = r :: data →
       Forall (λ g, first_ticker g ≠ Some (ticker r)) post →
       tickers !! ticker r
       = Some (lower (split_head "." (stem (path file)))))
  ∧ size tickers ≤ length (filter parsed files)
  ∧ (∀ i j fi fj k,
       i < j → files !! i = Some fi → files !! j = Some fj →
       first_ticker fi = Some k → first_ticker fj = Some k →
       size tickers < length (filter parsed files)).
Proof.
  intros Hget files.
  apply get_stooq_Ok in Hget as (_ & _ & _ & -> & _). fold files.
  split; [done|]. split; [|split; [|split]].
  - intros k. rewrite <- elem_of_dom, tickers_dom, dom_empty_L, (left_id_L ∅ (∪)).
    rewrite elem_of_list_to_set, list_elem_of_omap. unfold first_ticker. split.
    + intros (file & Hin & Hk). destruct (data_of file) as [|r data] eqn:Hd; [done|].
      exists file, r, data. by simplify_eq.
    + intros (file & r & data & Hin & Hd & <-). exists file. by rewrite Hd.
  - intros pre file post r data -> Hd Hpost.
    rewrite foldl_app. simpl. apply tickers_keep; [|done].
    unfold add_ticker. rewrite Hd. apply lookup_insert_eq.
  - rewrite parsed_first_ticker, <- size_dom, tickers_dom, dom_empty_L, (left_id_L ∅ (∪)).
    apply size_list_to_set_le.
  - intros i j fi fj k Hij Hi Hj Hki Hkj.
    rewrite parsed_first_ticker, <- size_dom, tickers_dom, dom_empty_L, (left_id_L ∅ (∪)).
    destruct (omap_lookup_lt first_ticker files i j fi fj k) as (i' & j' & ? & ? & ?);
      [done..|].
    by apply (size_list_to_set_lt _ i' j' k).
Qed.

(** ** The deduplication step *)

Lemma elem_of_take_fmap {A B} (f : A → B) (xs : list A) i k :
  k ∈ take i (f <$> xs) ↔ ∃ j x, j < i ∧ xs !! j = Some x ∧ f x = k.
Proof.
  rewrite list_elem_of_lookup. split.
  - intros (j & Hj). apply lookup_take_Some in Hj as [Hj Hlt].
    rewrite list_lookup_fmap in Hj.
    destruct (xs !! j) as [x|] eqn:Hx; simplify_eq/=. eauto.
  - intros (j & x & Hlt & Hx & <-). exists j.
    rewrite lookup_take_lt, list_lookup_fmap, Hx by done. done.
Qed.

Lemma length_duplicated_from {K} `{EqDecision K} (ks : list K) : ∀ seen,
  length (duplicated_from seen ks) = length ks.
Proof. induction ks as [|k ks IH]; intros seen; simpl; by rewrite ?IH. Qed.

(** C4. The deduplication step of the store loop removes a row of the
    year slice exactly when an earlier row is equal to it in ticker, date and
    every price and volume field; one copy of every row stays, so rows that
    differ in a field are both retained, and the rows that stay are the rows
    of the table handed to the store. *)
Theorem drop_duplicates_removes_exact_duplicates fs market asset_class w w' :
  store_asset_class fs market asset_class w = (w', Ok ()) →
  ∃ w1 prices tickers before table,
    get_stooq_prices_and_tickers fs frequency market asset_class
      {| console := console w ++ [Print (newline +:+ asset_class)]; store := store w |}
    = (w1, Ok (prices, tickers))
    ∧ loc_years 2000 2019 (sort_index prices) = Ok before
    ∧ written_table prices = Ok table
    ∧ store w' !! (store_key market asset_class +:+ "prices")
      = held_after (Prices table)
          (store w !! (store_key market asset_class +:+ "prices"))
    ∧ let mask := duplicated (reset_index before) in
      rows table = merge_sort index_le (select (negb <$> mask) (rows before))
      ∧ length mask = length (rows before)
      ∧ (∀ i r, rows before !! i = Some r →
           (mask !! i = Some true
            ↔ ∃ j r', j < i ∧ rows before !! j = Some r'
                ∧ ticker r' = ticker r ∧ date r' = date r
                ∧ open r' = open r ∧ high r' = high r ∧ low r' = low r
                ∧ close r' = close r ∧ volume r' = volume r))
      ∧ (∀ r, r ∈ rows table ↔ r ∈ rows before)
      ∧ NoDup (rows table)
      ∧ select (negb <$> mask) (rows before) `sublist_of` rows before.
Proof.
  intros (w1 & Hget & Hw & Hlook & _)%store_asset_class_written.
  set (files := glob_txt fs (data_path frequency market asset_class)) in *.
  exists w1, (combined_prices frequency files), (foldl add_ticker ∅ files),
    (selected_years (combined_prices frequency files)), (stored_prices files).
  split; [done|]. split.
  { rewrite loc_years_sorted, decide_True; [done|]. by eapply written_table_sliceable. }
  split; [done|]. split; [done|].
  set (before := selected_years (combined_prices frequency files)).
  assert (Hidx : index_names before = ["ticker"; "date"]) by done.
  assert (Hcols : columns before = price_columns) by done.
  assert (Hrows : rows (stored_prices files)
                  = merge_sort index_le (rows (deduplicated before))) by done.
  clearbody before. intros mask.
  split; [done|]. split; [|split; [|split; [|split]]].
  - unfold mask, duplicated. by rewrite length_duplicated_from, length_fmap.
  - intros i r Hi. unfold mask, duplicated.
    change (rows (reset_index before)) with (rows before).
    erewrite duplicated_from_lookup; [|by rewrite list_lookup_fmap, Hi].
    split.
    + intros [= [[]%elem_of_nil|(j & r' & Hlt & Hj & Heq)%elem_of_take_fmap]%bool_decide_eq_true].
      exists j, r'. split; [done|]. split; [done|].
      unfold column_values, reset_index in Heq. cbn [columns] in Heq.
      rewrite Hidx, Hcols in Heq. apply (column_values_inj "date") in Heq; [|auto].
      by subst r'.
    + intros (j & r' & Hlt & Hj & ? & ? & ? & ? & ? & ? & ?).
      f_equal. apply bool_decide_eq_true. right. apply elem_of_take_fmap. exists j, r'.
      split; [done|]. split; [done|]. f_equal. destruct r, r'; simpl in *; by subst.
  - intros r. rewrite Hrows, merge_sort_Permutation.
    by apply (deduplicated_elem "date"); auto.
  - rewrite Hrows, merge_sort_Permutation. apply deduplicated_NoDup.
  - apply (deduplicated_sublist before).
Qed.

(** ** Uniqueness after deduplication *)

(** C3, amended. In the prices table that the store loop hands to the
    store no two rows are equal in every field: two rows with the same
    (ticker, date) pair differ in a price or volume field. The table is
    under its key afterwards unless it has no row. *)
Theorem written_rows_differ_in_a_field fs market asset_class w w' :
  store_asset_class fs market asset_class w = (w', Ok ()) →
  ∃ w1 prices tickers table,
    get_stooq_prices_and_tickers fs frequency market asset_class
      {| console := console w ++ [Print (newline +:+ asset_class)]; store := store w |}
    = (w1, Ok (prices, tickers))
    ∧ written_table prices = Ok table
    ∧ store w' !! (store_key market asset_class +:+ "prices")
      = held_after (Prices table)
          (store w !! (store_key market asset_class +:+ "prices"))
    ∧ NoDup (rows table)
    ∧ ∀ i j r1 r2,
        i ≠ j → rows table !! i = Some r1 → rows table !! j = Some r2 →
        ticker r1 = ticker r2 → date r1 = date r2 →
        open r1 ≠ open r2 ∨ high r1 ≠ high r2 ∨ low r1 ≠ low r2
        ∨ close r1 ≠ close r2 ∨ volume r1 ≠ volume r2.
Proof.
  intros (w1 & Hget & Hw & Hlook & _)%store_asset_class_written.
  exists w1. do 3 eexists. split; [exact Hget|]. split; [exact Hw|].
  split; [exact Hlook|]. split; [apply written_rows_NoDup|].
  intros i j r1 r2 Hij H1 H2 Ht Hd.
  assert (Hne : r1 ≠ r2).
  { intros ->. apply Hij. eapply NoDup_lookup; [apply written_rows_NoDup|done..]. }
  destruct (decide (open r1 = open r2)); [|auto].
  destruct (decide (high r1 = high r2)); [|auto].
  destruct (decide (low r1 = low r2)); [|auto].
  destruct (decide (close r1 = close r2)); [|auto].
  destruct (decide (volume r1 = volume r2)); [|auto 6].
  destruct Hne. destruct r1, r2; simpl in *; by subst.
Qed.

(** ** The year slice *)

(** C8. The prices table that the store loop hands to the store holds
    exactly the parsed observations dated in the years 2000 to 2019, each
    once: the other years are dropped by the slice, before the duplicates
    are. The table is under its key afterwards unless it has no row. *)
Theorem written_table_is_the_year_slice fs market asset_class w w' :
  store_asset_class fs market asset_class w = (w', Ok ()) →
  ∃ w1 prices tickers before table,
    get_stooq_prices_and_tickers fs frequency market asset_class
      {| console := console w ++ [Print (newline +:+ asset_class)];
         store := store w |}
    = (w1, Ok (prices, tickers))
    ∧ loc_years 2000 2019 (sort_index prices) = Ok before
    ∧ written_table prices = Ok table
    ∧ store w' !! (store_key market asset_class +:+ "prices")
      = held_after (Prices table)
          (store w !! (store_key market asset_class +:+ "prices"))
    ∧ (∀ r, r ∈ rows before
            ↔ r ∈ rows prices
              ∧ ∃ t, date r = Some t ∧ (2000 ≤ year t ≤ 2019)%Z)
    ∧ rows table = merge_sort index_le (rows (deduplicated before))
    ∧ NoDup (rows table)
    ∧ ∀ r, r ∈ rows table
           ↔ r ∈ rows prices
             ∧ ∃ t, date r = Some t ∧ (2000 ≤ year t ≤ 2019)%Z.
Proof.
  intros (w1 & Hget & Hw & Hlook & _)%store_asset_class_written.
  set (files := glob_txt fs (data_path frequency market asset_class)) in *.
  assert (Hyears : ∀ r, in_years 2000 2019 r
                        ↔ ∃ t, date r = Some t ∧ (2000 ≤ year t ≤ 2019)%Z).
  { intros r. unfold in_years. destruct (date r) as [t|].
    - split; [eauto|]. by intros (t' & [= <-] & ?).
    - split; [done|]. by intros (t' & [=] & ?). }
  exists w1, (combined_prices frequency files), (foldl add_ticker ∅ files),
    (selected_years (combined_prices frequency files)), (stored_prices files).
  split; [done|]. split.
  { rewrite loc_years_sorted, decide_True; [done|]. by eapply written_table_sliceable. }
  split; [done|]. split; [done|]. split.
  { intros r. by rewrite elem_of_selected_years, Hyears. }
  split; [done|]. split; [apply written_rows_NoDup|].
  intros r. by rewrite written_rows, Hyears.
Qed.

(** ** What becomes of the parsed values *)


(** ** The keys of the store *)



End Properties.

(** ** Unpacking the archive *)

Section DownloadProperties.
Import Download.
Variable cannot_create : string → bool.
Implicit Types (d : Disk) (m : string * string) (members : list (string * string)).

Lemma mkdir_parent_cases path d :
  (∃ e, mkdir_parent path d = (d, Raise e) ∧ e ≠ FileNotFoundError)
  ∨ mkdir_parent path d
    = ({| files := files d;
          dirs := dirs d ∪ list_to_set (ancestors path);
          console := console d |}, Ok ()).
Proof.
  unfold mkdir_parent. destruct (decide (Exists _ _)); [left|by right].
  eexists. split; [done|]. by destruct (decide _).
Qed.

(** One member: either an error other than [FileNotFoundError], or the
    disk after the member. *)
Lemma extract_member_cases m d :
  (∃ d' e, extract_member cannot_create m d = (d', Raise e) ∧ e ≠ FileNotFoundError)
  ∨ ∃ d', extract_member cannot_create m d = (d', Ok ())
      ∧ files d' = (if extracted cannot_create m then write (files d) m else files d)
      ∧ console d' = console d
          ++ (if refused cannot_create m then [errno2 (local_file m)] else [])
      ∧ dirs d' = dirs d
          ∪ (if is_txt m then list_to_set (ancestors (local_file m)) else ∅).
Proof.
  destruct m as [file data].
  unfold extract_member, extracted, refused, is_txt, write, local_file. simpl.
  destruct (endswith ".txt" file); simpl.
  2:{ right. exists d. by rewrite app_nil_r, (right_id_L ∅ (∪)). }
  destruct (mkdir_parent_cases (stooq_path // file) d) as [(e & -> & He)| ->];
    [left; eauto|].
  unfold write_member. cbn [files dirs console].
  destruct (decide _); [left; by eauto|].
  destruct (cannot_create (stooq_path // file)); simpl; right; eexists;
    (split; [done|]); simpl; by rewrite ?app_nil_r.
Qed.

Lemma extract_members_never_FileNotFoundError members : ∀ d,
  (extract_members cannot_create members d).2 ≠ Raise FileNotFoundError.
Proof.
  induction members as [|m members IH]; intros d; simpl; [done|].
  destruct (extract_member_cases m d) as [(d' & e & -> & He)|(d' & -> & _)].
  - simpl. congruence.
  - apply IH.
Qed.

Lemma extract_members_Ok members : ∀ d d',
  extract_members cannot_create members d = (d', Ok ()) →
  files d' = foldl write (files d) (filter (extracted cannot_create) members)
  ∧ console d' = console d
      ++ (errno2 ∘ local_file <$> filter (refused cannot_create) members)
  ∧ dirs d ⊆ dirs d'
  ∧ ∀ m, m ∈ members → is_txt m = true →
      list_to_set (ancestors (local_file m)) ⊆ dirs d'.
Proof.
  induction members as [|m members IH]; intros d d' Hrun; simpl in Hrun.
  - simplify_eq. rewrite app_nil_r. repeat split; [done|].
    by intros m ?%elem_of_nil.
  - destruct (extract_member_cases m d) as [(d1 & e & Hm & _)|(d1 & Hm & Hf & Hc & Hd)];
      rewrite Hm in Hrun; [done|].
    apply IH in Hrun as (-> & -> & Hsub & Hdirs). rewrite Hf, Hc.
    split; [|split; [|split]]; last first.
    { intros m' [->|Hin]%elem_of_cons Htxt; [|by apply Hdirs].
      rewrite Htxt in Hd. etrans; [|exact Hsub]. rewrite Hd.
      apply union_subseteq_r. }
    { etrans; [|exact Hsub]. rewrite Hd. apply union_subseteq_l. }
    + destruct (refused cannot_create m) eqn:He.
      * rewrite filter_cons_True by by apply Is_true_true_2.
        by rewrite <- (assoc_L (++)).
      * rewrite filter_cons_False by by apply Is_true_false_2. by rewrite app_nil_r.
    + destruct (extracted cannot_create m) eqn:He.
      * by rewrite filter_cons_True by by apply Is_true_true_2.
      * by rewrite filter_cons_False by by apply Is_true_false_2.
Qed.

Lemma written_untouched members : ∀ (fs : gmap string content) path,
  Forall (λ m, local_file m ≠ path) members →
  foldl write fs members !! path = fs !! path.
Proof.
  induction members as [|m members IH]; intros fs path Hall; [done|].
  apply Forall_cons in Hall as [Hm Hall]. simpl. rewrite IH by done.
  by apply lookup_insert_ne.
Qed.

Lemma written_last pre m post (fs : gmap string content) :
  Forall (λ m', local_file m' ≠ local_file m) post →
  foldl write fs (pre ++ m :: post) !! local_file m = Some (Bytes m.2).
Proof.
  intros Hpost. rewrite foldl_app. simpl. rewrite written_untouched by done.
  apply lookup_insert_eq.
Qed.

(** C9, amended. [download_price_data] raises [FileNotFoundError] exactly
    when the archive does not exist. When the archive is there and the call
    returns, the [.txt] members whose local file can be opened for writing
    are extracted and every other member is skipped: a [.txt] member whose
    open raises [FileNotFoundError] is printed and left out. *)
Theorem download_extracts_creatable_txt_members market freq d :
  ((download_price_data cannot_create market freq d).2 = Raise FileNotFoundError
   ↔ path_exists d (data_name market freq) = false)
  ∧ ∀ members d',
      files d !! data_name market freq = Some (ZipArchive members) →
      download_price_data cannot_create market freq d = (d', Ok ()) →
      files d' = foldl write (files d) (filter (extracted cannot_create) members)
      ∧ (∀ pre m post,
           members = pre ++ m :: post →
           extracted cannot_create m = true →
           Forall (λ m', extracted cannot_create m' = true
                         → local_file m' ≠ local_file m) post →
           files d' !! local_file m = Some (Bytes m.2))
      ∧ (∀ path,
           Forall (λ m, extracted cannot_create m = true → local_file m ≠ path) members →
           files d' !! path = files d !! path)
      ∧ console d' = console d
          ++ (errno2 ∘ local_file <$> filter (refused cannot_create) members)
      ∧ (∀ m dir,
           m ∈ members → is_txt m = true → dir ∈ ancestors (local_file m) →
           dir ∈ dirs d').
Proof.
  split.
  - unfold download_price_data.
    destruct (path_exists d (data_name market freq)) eqn:Hex; simpl; [|done].
    split; [|done]. intros Hraise. exfalso.
    unfold ZipFile in Hraise. unfold path_exists in Hex.
    apply bool_decide_eq_true in Hex.
    destruct (files d !! data_name market freq) as [[data|members]|] eqn:Hf.
    + done.
    + by apply extract_members_never_FileNotFoundError in Hraise.
    + destruct (decide _) as [|Hd]; [done|].
      destruct Hex as [Hex%elem_of_dom|?]; [|done].
      rewrite Hf in Hex. by destruct Hex.
  - intros members d' Hzip Hrun. unfold download_price_data in Hrun.
    assert (Hex : path_exists d (data_name market freq) = true).
    { apply bool_decide_eq_true. left. apply elem_of_dom. by rewrite Hzip. }
    rewrite Hex in Hrun. unfold ZipFile in Hrun. rewrite Hzip in Hrun. simpl in Hrun.
    apply extract_members_Ok in Hrun as (Hf & Hc & _ & Hdirs).
    split; [done|]. split; [|split; [|split; [done|]]].
    + intros pre m post -> Hm Hpost.
      rewrite Hf, filter_app, filter_cons_True by by apply Is_true_true_2.
      apply written_last. apply Forall_forall.
      intros m' [Hm' Hin]%list_elem_of_filter.
      rewrite Forall_forall in Hpost. apply Hpost; [done|].
      by apply Is_true_true.
    + intros path Hall. rewrite Hf. apply written_untouched.
      apply Forall_forall. intros m [Hm Hin]%list_elem_of_filter.
      rewrite Forall_forall in Hall. apply Hall; [done|]. by apply Is_true_true.
    + intros m dir Hin Htxt Hdir. apply (Hdirs m Hin Htxt).
      by apply elem_of_list_to_set.
Qed.
End DownloadProperties.


(** * The properties on the example tree *)

Import Example Scenario.
#[local] Existing Instance whole_numbers.

(** The file [acwx.us.txt] without data is logged and skipped; the rows of
    the files before and after it make up the result. *)
Lemma skipped_file_witness :
  glob_txt fs (data_path "daily" "us" "nasdaq etfs")
  = [aadr] ++ no_data :: [header_only; aadr_again]
  ∧ skipped no_data
  ∧ Forall (λ f, ¬ aborts f) [aadr]
  ∧ read_etfs
    = (read_etfs.1, Ok (combined_prices "daily" etfs_files, foldl add_ticker ∅ etfs_files))
  ∧ rows (combined_prices "daily" etfs_files)
    = to_numeric_row <$> mjoin (data_of <$> [aadr] ++ [header_only; aadr_again])
  ∧ missing_line no_data ∈ console read_etfs.1.
Proof.
  assert (H1 : glob_txt fs (data_path "daily" "us" "nasdaq etfs")
               = [aadr] ++ no_data :: [header_only; aadr_again])
    by (vm_compute; reflexivity).
  assert (H2 : skipped no_data) by (right; right; reflexivity).
  assert (H3 : Forall (λ f, ¬ aborts f) [aadr])
    by (apply (bool_decide_unpack _); vm_compute; exact I).
  assert (H4 : get_stooq_prices_and_tickers fs "daily" "us" "nasdaq etfs" w0
               = (read_etfs.1,
                  Ok (combined_prices "daily" etfs_files, foldl add_ticker ∅ etfs_files)))
    by (vm_compute; reflexivity).
  split; [exact H1|]. split; [exact H2|]. split; [exact H3|]. split; [exact H4|].
  destruct (skipped_file_logged_and_skipped
              fs "daily" "us" "nasdaq etfs" w0 [aadr] no_data
              [header_only; aadr_again] H1 H2 H3)
    as (w1 & l1 & w2 & l2 & _ & _ & _ & _ & _ & _ & _ & Hresult).
  exact (Hresult _ _ _ H4).
Defined.

(** Without a frame to concatenate, and on a file that is not valid text,
    the call raises. *)
Lemma get_stooq_can_raise :
  (get_stooq_prices_and_tickers no_files "daily" "us" "nasdaq etfs" w0).2
  = Raise ValueError
  ∧ (get_stooq_prices_and_tickers with_garbled "daily" "us" "nasdaq etfs" w0).2
    = Raise UnicodeDecodeError
  ∧ ¬ returns (get_stooq_prices_and_tickers no_files "daily" "us" "nasdaq etfs" w0).2
  ∧ ¬ returns (get_stooq_prices_and_tickers with_garbled "daily" "us" "nasdaq etfs" w0).2.
Proof.
  split; [by vm_compute|]. split; [by vm_compute|].
  split; vm_compute; exact (λ H, H).
Qed.

Lemma get_stooq_returns_witness :
  Forall (λ file, ¬ aborts file) (glob_txt fs (data_path "daily" "us" "nasdaq etfs"))
  ∧ Exists has_frame (glob_txt fs (data_path "daily" "us" "nasdaq etfs"))
  ∧ returns (get_stooq_prices_and_tickers fs "daily" "us" "nasdaq etfs" w0).2.
Proof.
  assert (H1 : Forall (λ file, ¬ aborts file)
                 (glob_txt fs (data_path "daily" "us" "nasdaq etfs")))
    by (apply (bool_decide_unpack _); vm_compute; exact I).
  assert (H2 : Exists has_frame (glob_txt fs (data_path "daily" "us" "nasdaq etfs")))
    by (apply (bool_decide_unpack _); vm_compute; exact I).
  split; [exact H1|]. split; [exact H2|].
  exact (get_stooq_returns_normally fs "daily" "us" "nasdaq etfs" w0 H1 H2).
Defined.

(** The read of [nasdaq etfs] inside its step of the store loop. *)
Lemma read_etfs_in_step :
  get_stooq_prices_and_tickers fs frequency "us" "nasdaq etfs"
    {| console := console w0 ++ [Print (newline +:+ "nasdaq etfs")]; store := store w0 |}
  = ((get_stooq_prices_and_tickers fs frequency "us" "nasdaq etfs"
        {| console := console w0 ++ [Print (newline +:+ "nasdaq etfs")];
           store := store w0 |}).1,
     Ok (combined_prices "daily" etfs_files, foldl add_ticker ∅ etfs_files)).
Proof. vm_compute. reflexivity. Qed.

(** The two bars of 2010-07-21 that differ in the close are both written. *)
Lemma ticker_date_pairs_can_repeat :
  stored_etfs.2 = Ok ()
  ∧ store stored_etfs.1 !! "stooq/us/nasdaq/etfs/prices"
    = Some (Prices (stored_prices etfs_files))
  ∧ rows (stored_prices etfs_files) !! 0 = Some aadr_1
  ∧ rows (stored_prices etfs_files) !! 1 = Some aadr_2
  ∧ ticker aadr_1 = ticker aadr_2 ∧ date aadr_1 = date aadr_2
  ∧ ¬ (∀ i j r1 r2,
         i ≠ j →
         rows (stored_prices etfs_files) !! i = Some r1 →
         rows (stored_prices etfs_files) !! j = Some r2 →
         (ticker r1, date r1) ≠ (ticker r2, date r2)).
Proof.
  split; [by vm_compute|]. split; [by vm_compute|]. split; [by vm_compute|].
  split; [by vm_compute|]. split; [done|]. split; [done|].
  intros Huniq. apply (Huniq 0 1 aadr_1 aadr_2); [lia|by vm_compute..|done].
Qed.

Lemma written_rows_differ_witness :
  stored_etfs = (stored_etfs.1, Ok ())
  ∧ ∃ table,
      written_table (combined_prices "daily" etfs_files) = Ok table
      ∧ store stored_etfs.1 !! (store_key "us" "nasdaq etfs" +:+ "prices")
        = held_after (Prices table) None
      ∧ NoDup (rows table).
Proof.
  assert (H1 : store_asset_class fs "us" "nasdaq etfs" w0 = (stored_etfs.1, Ok ()))
    by (vm_compute; reflexivity).
  split; [exact H1|].
  destruct (written_rows_differ_in_a_field fs "us" "nasdaq etfs" w0 _ H1)
    as (w1 & prices & tickers & table & Hget & Hw & Hlook & Hnodup & _).
  rewrite read_etfs_in_step in Hget. injection Hget as _ <- _.
  exists table. split; [exact Hw|]. split; [exact Hlook|exact Hnodup].
Defined.

(** The second copy of the first bar is the one row the mask removes. *)
Lemma drop_duplicates_witness :
  stored_etfs = (stored_etfs.1, Ok ())
  ∧ duplicated (reset_index (selected_years (combined_prices "daily" etfs_files)))
    = [false; false; true; false; false]
  ∧ ∃ before table,
      loc_years 2000 2019 (sort_index (combined_prices "daily" etfs_files)) = Ok before
      ∧ written_table (combined_prices "daily" etfs_files) = Ok table
      ∧ store stored_etfs.1 !! (store_key "us" "nasdaq etfs" +:+ "prices")
        = held_after (Prices table) None
      ∧ rows table
        = merge_sort index_le
            (select (negb <$> duplicated (reset_index before)) (rows before))
      ∧ (∀ r, r ∈ rows table ↔ r ∈ rows before)
      ∧ NoDup (rows table).
Proof.
  assert (H1 : store_asset_class fs "us" "nasdaq etfs" w0 = (stored_etfs.1, Ok ()))
    by (vm_compute; reflexivity).
  split; [exact H1|]. split; [by vm_compute|].
  destruct (drop_duplicates_removes_exact_duplicates fs "us" "nasdaq etfs" w0 _ H1)
    as (w1 & prices & tickers & before & table & Hget & Hloc & Hw & Hlook
        & Hrows & _ & _ & Helem & Hnodup & _).
  rewrite read_etfs_in_step in Hget. injection Hget as _ <- _.
  exists before, table. split; [exact Hloc|]. split; [exact Hw|].
  split; [exact Hlook|]. split; [exact Hrows|]. split; [exact Helem|exact Hnodup].
Defined.



(** An asset class whose only file has the header line: the loop returns
    and neither object of the class is in the store; an asset class whose
    bars are all of 1999: the older table, with its row twice, stays under
    the key. *)
Lemma empty_objects_are_not_stored :
  (store_loop with_empty_class w0).2 = Ok ()
  ∧ ("us", ["nasdaq etfs"; "nasdaq stocks"; "nyse etfs"; "nyse stocks"; "nysemkt stocks"])
    ∈ markets
  ∧ "nyse etfs" ∈ ["nasdaq etfs"; "nasdaq stocks"; "nyse etfs"; "nyse stocks";
                   "nysemkt stocks"]
  ∧ store (store_loop with_empty_class w0).1 !! "stooq/us/nyse/etfs/prices" = None
  ∧ store (store_loop with_empty_class w0).1 !! "stooq/us/nyse/etfs/tickers" = None
  ∧ (store_loop with_old_class w_old).2 = Ok ()
  ∧ store (store_loop with_old_class w_old).1 !! "stooq/us/nyse/etfs/prices"
    = Some (Prices old_table)
  ∧ ¬ NoDup (rows old_table)
  ∧ ¬ (∀ asset_class,
         asset_class ∈ ["nasdaq etfs"; "nasdaq stocks"; "nyse etfs"; "nyse stocks";
                        "nysemkt stocks"] →
         store (store_loop with_empty_class w0).1
           !! (store_key "us" asset_class +:+ "prices")
         = Some (Prices (stored_prices
                           (glob_txt with_empty_class
                              (data_path frequency "us" asset_class))))
         ∧ store (store_loop with_empty_class w0).1
             !! (store_key "us" asset_class +:+ "tickers")
           = Some (Tickers (foldl add_ticker ∅
                              (glob_txt with_empty_class
                                 (data_path frequency "us" asset_class))))).
Proof.
  assert (Hin : "nyse etfs" ∈ ["nasdaq etfs"; "nasdaq stocks"; "nyse etfs"; "nyse stocks";
                               "nysemkt stocks"])
    by (apply (bool_decide_unpack _); vm_compute; exact I).
  split; [by vm_compute|]. split; [by left|]. split; [exact Hin|].
  split; [by vm_compute|]. split; [by vm_compute|]. split; [by vm_compute|].
  split; [by vm_compute|]. split.
  - intros Hnodup. apply NoDup_cons in Hnodup as [Hnot _]. apply Hnot. by left.
  - intros Hall. destruct (Hall _ Hin) as [Hprices _]. vm_compute in Hprices.
    discriminate Hprices.
Qed.


Lemma single_pass_witness :
  read_etfs
  = (read_etfs.1, Ok (combined_prices "daily" etfs_files, foldl add_ticker ∅ etfs_files))
  ∧ filter is_read (console read_etfs.1)
    = (λ file, Read (path file) names (usecols "daily") (parse_dates "daily"))
        <$> [aadr; no_data; header_only; aadr_again]
  ∧ rows (combined_prices "daily" etfs_files)
    = to_numeric_row <$> (data_of aadr ++ data_of aadr_again).
Proof.
  assert (H1 : get_stooq_prices_and_tickers fs "daily" "us" "nasdaq etfs" w0
               = (read_etfs.1,
                  Ok (combined_prices "daily" etfs_files, foldl add_ticker ∅ etfs_files)))
    by (vm_compute; reflexivity).
  split; [exact H1|].
  destruct (single_pass_concatenation fs "daily" "us" "nasdaq etfs" w0 _ _ _ H1)
    as (_ & Hreads & _ & _ & _ & combined & _ & _ & Hrows & Hprices).
  split.
  - etrans; [exact Hreads|]. by vm_compute.
  - etrans; [exact Hprices|]. rewrite Hrows. by vm_compute.
Defined.

Lemma year_slice_witness :
  stored_etfs = (stored_etfs.1, Ok ())
  ∧ ∃ table,
      written_table (combined_prices "daily" etfs_files) = Ok table
      ∧ store stored_etfs.1 !! (store_key "us" "nasdaq etfs" +:+ "prices")
        = held_after (Prices table) None
      ∧ NoDup (rows table)
      ∧ ∀ r, r ∈ rows table
             ↔ r ∈ rows (combined_prices "daily" etfs_files)
               ∧ ∃ t, date r = Some t ∧ (2000 ≤ year t ≤ 2019)%Z.
Proof.
  assert (H1 : store_asset_class fs "us" "nasdaq etfs" w0 = (stored_etfs.1, Ok ()))
    by (vm_compute; reflexivity).
  split; [exact H1|].
  destruct (written_table_is_the_year_slice fs "us" "nasdaq etfs" w0 _ H1)
    as (w1 & prices & tickers & before & table & Hget & _ & Hw & Hlook & _ & _
        & Hnodup & Hrows).
  rewrite read_etfs_in_step in Hget. injection Hget as _ <- _.
  exists table. split; [exact Hw|]. split; [exact Hlook|]. split; [exact Hnodup|exact Hrows].
Defined.

(** Two parsed files with the first-row ticker AADR.US: one entry, for the
    file enumerated last. *)
Lemma tickers_witness :
  read_etfs
  = (read_etfs.1, Ok (combined_prices "daily" etfs_files, foldl add_ticker ∅ etfs_files))
  ∧ foldl add_ticker ∅ etfs_files = {[ "AADR.US" := "aadr_old" ]}
  ∧ size (foldl add_ticker ∅ etfs_files) < length (filter parsed etfs_files)
  ∧ length (filter parsed etfs_files) = 2.
Proof.
  assert (H1 : get_stooq_prices_and_tickers fs "daily" "us" "nasdaq etfs" w0
               = (read_etfs.1,
                  Ok (combined_prices "daily" etfs_files, foldl add_ticker ∅ etfs_files)))
    by (vm_compute; reflexivity).
  split; [exact H1|].
  destruct (tickers_last_write_wins fs "daily" "us" "nasdaq etfs" w0 _ _ _ H1)
    as (_ & _ & _ & _ & Hlt).
  split; [by vm_compute|]. split; [|by vm_compute].
  apply (Hlt 0 3 aadr aadr_again "AADR.US"); [lia|by vm_compute..].
Defined.

(** The member [prn.us.txt] ends in [.txt] and is not extracted. *)
Lemma refused_txt_member_is_not_extracted :
  unpacked.2 = Ok ()
  ∧ Download.files disk0 !! Download.data_name "us" "d"
    = Some (Download.ZipArchive zip_members)
  ∧ ("data/daily/us/nyse etfs/prn.us.txt", "PRN.US,D,20150601,000000,1,2,1,2,3,0")
    ∈ zip_members
  ∧ endswith ".txt" "data/daily/us/nyse etfs/prn.us.txt" = true
  ∧ Download.files unpacked.1 !! "stooq/data/daily/us/nyse etfs/prn.us.txt" = None
  ∧ ¬ (∀ m, m ∈ zip_members → endswith ".txt" m.1 = true →
         Download.files unpacked.1 !! (stooq_path // m.1) = Some (Download.Bytes m.2)).
Proof.
  assert (Hin : ("data/daily/us/nyse etfs/prn.us.txt",
                 "PRN.US,D,20150601,000000,1,2,1,2,3,0") ∈ zip_members)
    by (apply (bool_decide_unpack _); vm_compute; exact I).
  split; [by vm_compute|]. split; [by vm_compute|]. split; [exact Hin|].
  split; [by vm_compute|]. split; [by vm_compute|].
  intros Hall. specialize (Hall _ Hin). vm_compute in Hall.
  specialize (Hall eq_refl). discriminate Hall.
Qed.

Lemma download_witness :
  Download.files disk0 !! Download.data_name "us" "d"
  = Some (Download.ZipArchive zip_members)
  ∧ unpacked = (unpacked.1, Ok ())
  ∧ Download.files unpacked.1 !! "stooq/data/daily/us/nyse etfs/spy.us.txt"
    = Some (Download.Bytes "SPY.US,D,20150601,000000,1,2,1,2,3,0")
  ∧ Download.console unpacked.1
    = ["[Errno 2] No such file or directory: 'stooq/data/daily/us/nyse etfs/prn.us.txt'"].
Proof.
  assert (H1 : Download.files disk0 !! Download.data_name "us" "d"
               = Some (Download.ZipArchive zip_members)) by (vm_compute; reflexivity).
  assert (H2 : Download.download_price_data refuses "us" "d" disk0 = (unpacked.1, Ok ()))
    by (vm_compute; reflexivity).
  split; [exact H1|]. split; [exact H2|].
  destruct (download_extracts_creatable_txt_members refuses "us" "d" disk0)
    as [_ Hextract].
  destruct (Hextract zip_members unpacked.1 H1 H2) as (_ & Hlast & _ & Hconsole & _).
  split.
  - apply (Hlast [("data/daily/us/nyse etfs/", "")]
             ("data/daily/us/nyse etfs/spy.us.txt", "SPY.US,D,20150601,000000,1,2,1,2,3,0")
             [("data/daily/us/nyse etfs/prn.us.txt", "PRN.US,D,20150601,000000,1,2,1,2,3,0");
              ("data/daily/us/readme.md", "notes")]); [done|by vm_compute|].
    apply (bool_decide_unpack _). vm_compute. exact I.
  - etrans; [exact Hconsole|]. by vm_compute.
Defined.


(** * Further properties of the notebook *)

Section Reading.
Context `{Float64}.
Implicit Types (w : World) (l : Locals) (file : File) (df : DataFrame).

(** ** What a call leaves behind, however it ends *)

Lemma iteration_world frequency i file l w :
  ∃ evs, console (iteration frequency i file l w).1 = console w ++ evs
         ∧ store (iteration frequency i file l w).1 = store w.
Proof.
  destruct (content file) as [e|[|r data]] eqn:Hc.
  - rewrite (iteration_unreadable _ _ _ _ _ _ Hc). destruct (caught e); eauto.
  - rewrite (iteration_empty _ _ _ _ _ Hc). eauto.
  - rewrite (iteration_table _ _ _ _ _ _ _ Hc). eauto.
Qed.

Lemma iteration_outcome frequency i file l w w0 :
  (iteration frequency i file l w).2 = (iteration frequency i file l w0).2.
Proof.
  destruct (content file) as [e|[|r data]] eqn:Hc.
  - rewrite !(iteration_unreadable _ _ _ _ _ _ Hc). by destruct (caught e).
  - by rewrite !(iteration_empty _ _ _ _ _ Hc).
  - by rewrite !(iteration_table _ _ _ _ _ _ _ Hc).
Qed.

Lemma process_files_world frequency files : ∀ i l w,
  ∃ evs, console (process_files frequency i files l w).1 = console w ++ evs
         ∧ store (process_files frequency i files l w).1 = store w.
Proof.
  induction files as [|file files IH]; intros i l w; simpl.
  - exists []. by rewrite app_nil_r.
  - unfold bind.
    destruct (iteration_world frequency i file l w) as (evs & Hc & Hs).
    destruct (iteration frequency i file l w) as [w1 [l1|e]]; simpl in *.
    + destruct (IH (S i) l1 w1) as (evs' & Hc' & Hs').
      exists (evs ++ evs'). by rewrite Hc', Hs', Hc, Hs, (assoc_L (++)).
    + eauto.
Qed.

Lemma process_files_outcome frequency files : ∀ i l w w0,
  (process_files frequency i files l w).2 = (process_files frequency i files l w0).2.
Proof.
  induction files as [|file files IH]; intros i l w w0; simpl; [done|].
  unfold bind. pose proof (iteration_outcome frequency i file l w w0) as Ho.
  destruct (iteration frequency i file l w) as [w1 [l1|e]],
           (iteration frequency i file l w0) as [w1' [l1'|e']];
    simpl in Ho; simplify_eq; [apply IH|done].
Qed.

Lemma get_stooq_outcome fs frequency market asset_class w w0 :
  (get_stooq_prices_and_tickers fs frequency market asset_class w).2
  = (get_stooq_prices_and_tickers fs frequency market asset_class w0).2.
Proof.
  unfold get_stooq_prices_and_tickers, bind. unfold print. rewrite !emit_eq.
  pose proof (process_files_outcome frequency
                (glob_txt fs (data_path frequency market asset_class)) 1
                {| prices := []; tickers := ∅ |}
                {| console := console w ++ [Print (data_path frequency market asset_class)];
                   store := store w |}
                {| console := console w0 ++ [Print (data_path frequency market asset_class)];
                   store := store w0 |}) as Ho.
  destruct (process_files _ _ _ _ _) as [w1 [l1|e]],
           (process_files _ _ _ _ _) as [w1' [l1'|e']];
    simpl in Ho; simplify_eq; [|done].
  unfold lift. destruct (pd_concat (prices l1')) as [combined|e]; [|done].
  by destruct (set_index _ _).
Qed.

Lemma get_stooq_world fs frequency market asset_class w :
  store (get_stooq_prices_and_tickers fs frequency market asset_class w).1 = store w
  ∧ console w
    `prefix_of` console (get_stooq_prices_and_tickers fs frequency market asset_class w).1.
Proof.
  unfold get_stooq_prices_and_tickers, bind. unfold print. rewrite emit_eq.
  match goal with
  | |- context [process_files ?f ?i ?fl ?l ?w0] =>
      destruct (process_files_world f fl i l w0) as (evs & Hc & Hs);
      destruct (process_files f i fl l w0) as [w1 [l1|e]]
  end; simpl in Hc, Hs.
  - unfold lift. destruct (pd_concat (prices l1)) as [combined|e]; simpl.
    + destruct (set_index _ _); simpl; rewrite Hs, Hc, <- (assoc_L (++));
        (split; [done|by apply prefix_app_r]).
    + rewrite Hs, Hc, <- (assoc_L (++)). split; [done|by apply prefix_app_r].
  - simpl. rewrite Hs, Hc, <- (assoc_L (++)). split; [done|by apply prefix_app_r].
Qed.

(** X1. Whether it returns or raises, [get_stooq_prices_and_tickers] leaves
    the store as it was and only appends to the console. *)
Theorem get_stooq_leaves_the_store fs frequency market asset_class w :
  store (get_stooq_prices_and_tickers fs frequency market asset_class w).1 = store w
  ∧ console w
    `prefix_of` console (get_stooq_prices_and_tickers fs frequency market asset_class w).1.
Proof. apply get_stooq_world. Qed.

(** ** Errors that end the call *)

(** X2. An error that the [except] clause does not list ends the call at
    the file that raised it: the error reaches the caller, the files listed
    after it are never read, and the store is left alone. *)
Theorem uncaught_error_stops_the_loop
    fs frequency market asset_class w pre file post e :
  glob_txt fs (data_path frequency market asset_class) = pre ++ file :: post →
  Forall (λ f, ¬ aborts f) pre →
  content file = Unreadable e →
  caught e = false →
  (get_stooq_prices_and_tickers fs frequency market asset_class w).2 = Raise e
  ∧ filter is_read
      (console (get_stooq_prices_and_tickers fs frequency market asset_class w).1)
    = filter is_read (console w) ++ (read_event frequency <$> pre ++ [file])
  ∧ store (get_stooq_prices_and_tickers fs frequency market asset_class w).1 = store w.
Proof.
  intros Hglob Hpre Hc He. unfold get_stooq_prices_and_tickers, bind.
  unfold print. rewrite emit_eq, Hglob, process_files_app.
  destruct (process_files_returns frequency pre 1 {| prices := []; tickers := ∅ |}
              {| console := console w ++ [Print (data_path frequency market asset_class)];
                 store := store w |} Hpre) as (w1 & l1 & Hloop).
  rewrite Hloop. apply process_files_Ok in Hloop as (_ & _ & _ & Hs & Hcon).
  cbn [process_files]. unfold bind.
  rewrite (iteration_unreadable _ _ _ _ _ _ Hc), He. cbn [fst snd console store].
  split; [done|]. split; [|by rewrite Hs].
  rewrite Hcon. cbn [console]. rewrite !filter_app.
  rewrite (filter_cons_False _ (Print _)) by (by intros ?).
  rewrite reads_of_trace, reads_of_counter, fmap_app.
  rewrite filter_cons_True by done. rewrite !filter_nil, app_nil_r.
  by rewrite <- !(assoc_L (++)).
Qed.

(** X3. When no file matches the pattern, nothing is read: the call prints
    the path and raises [ValueError] at [pd.concat], leaving the store
    alone. *)
Theorem no_matching_file_raises_ValueError fs frequency market asset_class w :
  glob_txt fs (data_path frequency market asset_class) = [] →
  (get_stooq_prices_and_tickers fs frequency market asset_class w).2 = Raise ValueError
  ∧ console (get_stooq_prices_and_tickers fs frequency market asset_class w).1
    = console w ++ [Print (data_path frequency market asset_class)]
  ∧ filter is_read
      (console (get_stooq_prices_and_tickers fs frequency market asset_class w).1)
    = filter is_read (console w)
  ∧ store (get_stooq_prices_and_tickers fs frequency market asset_class w).1 = store w.
Proof.
  intros Hglob. unfold get_stooq_prices_and_tickers, bind.
  unfold print. rewrite emit_eq, Hglob. cbn [process_files ret lift pd_concat prices].
  cbn [fst snd console store]. split; [done|]. split; [done|]. split; [|done].
  rewrite filter_app, filter_cons_False by (by intros ?).
  by rewrite filter_nil, app_nil_r.
Qed.

Lemma data_of_header_only (files : list File) :
  Forall (λ file, content file = Table []) files →
  mjoin (data_of <$> files) = [] ∧ foldl add_ticker ∅ files = ∅.
Proof.
  intros Hall. split.
  - induction Hall as [|file files Hc _ IH]; [done|]. csimpl.
    unfold data_of at 1. by rewrite Hc.
  - generalize (∅ : gmap string string).
    induction Hall as [|file files Hc _ IH]; intros acc; [done|]. simpl.
    unfold add_ticker at 2, data_of. rewrite Hc. apply IH.
Qed.

(** X4. When every matching file holds a header and no data row, each one
    is logged as missing and the call returns a table without rows and a
    tickers series without entries. *)
Theorem header_only_files_give_an_empty_table fs frequency market asset_class w :
  glob_txt fs (data_path frequency market asset_class) ≠ [] →
  Forall (λ file, content file = Table [])
         (glob_txt fs (data_path frequency market asset_class)) →
  (get_stooq_prices_and_tickers fs frequency market asset_class w).2
  = Ok ({| index_names := ["ticker"; date_label frequency];
           columns := price_columns;
           rows := [] |}, ∅)
  ∧ Forall (λ file, missing_line file
                    ∈ console (get_stooq_prices_and_tickers fs frequency market asset_class w).1)
           (glob_txt fs (data_path frequency market asset_class)).
Proof.
  intros Hne Hall. set (files := glob_txt fs (data_path frequency market asset_class)) in *.
  assert (Hab : Forall (λ file, ¬ aborts file) files).
  { eapply Forall_impl; [exact Hall|]. intros file Hc (e & He & _). congruence. }
  assert (Hex : Exists has_frame files).
  { destruct files as [|file files']; [done|]. apply Exists_cons_hd.
    apply Forall_cons in Hall as [Hc _]. by exists []. }
  destruct (get_stooq_returns fs frequency market asset_class w Hab Hex)
    as (w' & [df t] & Hget).
  rewrite Hget. cbn [fst snd].
  apply get_stooq_Ok in Hget as (_ & _ & -> & -> & _ & Hcon). fold files in Hcon |- *.
  destruct (data_of_header_only files Hall) as [-> ->]. split; [done|].
  apply Forall_forall. intros file Hin.
  assert (Hskip : skipped file).
  { rewrite Forall_forall in Hall. right; right. by apply Hall. }
  apply list_elem_of_split in Hin as (pre & post & Hsplit).
  rewrite Hcon, Hsplit, files_trace_app. simpl.
  apply elem_of_app. right. apply elem_of_cons. right.
  apply elem_of_app. right. apply elem_of_app. left.
  by apply missing_line_in_trace.
Qed.

(** X5. Every key of the returned tickers series is the ticker of a row of
    the returned prices table. *)
Theorem tickers_keys_occur_in_prices fs frequency market asset_class w w' prices tickers :
  get_stooq_prices_and_tickers fs frequency market asset_class w
  = (w', Ok (prices, tickers)) →
  ∀ k, is_Some (tickers !! k) → ∃ r, r ∈ rows prices ∧ ticker r = k.
Proof.
  intros Hget k Hk.
  apply get_stooq_Ok in Hget as (_ & _ & -> & -> & _).
  apply elem_of_dom in Hk.
  rewrite tickers_dom, dom_empty_L, (left_id_L ∅ (∪)) in Hk.
  apply elem_of_list_to_set, list_elem_of_omap in Hk as (file & Hin & Hfirst).
  unfold first_ticker in Hfirst.
  destruct (data_of file) as [|r data] eqn:Hd; [done|]. simplify_eq.
  exists (to_numeric_row r). split; [|done]. cbn [rows].
  apply list_elem_of_fmap. exists r. split; [done|].
  apply list_elem_of_join. exists (data_of file). split.
  - rewrite Hd. by left.
  - by apply list_elem_of_fmap_2.
Qed.

(** ** The progress counter *)

Lemma files_trace_below_500 frequency files : ∀ i,
  0 < i → i + length files ≤ 500 →
  files_trace frequency i files
  = mjoin ((λ file, read_event frequency file
                    :: (if decide (skipped file) then [missing_line file] else []))
           <$> files).
Proof.
  induction files as [|file files IH]; intros i Hpos Hlen; [done|].
  simpl in Hlen |- *. rewrite IH by lia. unfold iteration_trace, counter_line.
  rewrite decide_False; [done|]. rewrite Nat.mod_small; lia.
Qed.

(** X18. The progress counter is printed at every 500th file only: a call
    that returns on fewer than 500 matching files prints the path and then,
    file by file, the read and the missing-data line of the skipped ones,
    and nothing else. *)
Theorem fewer_than_500_files_print_no_counter
    fs frequency market asset_class w w' prices tickers :
  get_stooq_prices_and_tickers fs frequency market asset_class w
  = (w', Ok (prices, tickers)) →
  length (glob_txt fs (data_path frequency market asset_class)) < 500 →
  console w'
  = console w
    ++ Print (data_path frequency market asset_class)
    :: mjoin ((λ file, read_event frequency file
                       :: (if decide (skipped file) then [missing_line file] else []))
              <$> glob_txt fs (data_path frequency market asset_class)).
Proof.
  intros Hget Hlen. apply get_stooq_Ok in Hget as (_ & _ & _ & _ & _ & ->).
  rewrite files_trace_below_500; [done|lia|lia].
Qed.
End Reading.

Section Storing.
Context `{Float64}.
Implicit Types (w : World) (df : DataFrame).

(** ** The order of the written table *)

Lemma Timestamp_leb_spec (a b : Timestamp) :
  Timestamp_leb a b
  ↔ (year a < year b
     ∨ year a = year b
       ∧ (month a < month b
          ∨ month a = month b
            ∧ (day a < day b ∨ day a = day b ∧ time a ≤ time b)))%Z.
Proof.
  unfold Timestamp_leb.
  destruct (Z.compare_spec (year a) (year b));
    [destruct (Z.compare_spec (month a) (month b));
       [destruct (Z.compare_spec (day a) (day b))|..]|..];
    rewrite ?bool_decide_spec; simpl; lia.
Qed.

Lemma date_leb_total (d1 d2 : option Timestamp) : date_leb d1 d2 ∨ date_leb d2 d1.
Proof.
  destruct d1 as [a|], d2 as [b|]; simpl; auto.
  rewrite !Timestamp_leb_spec. lia.
Qed.

Lemma date_leb_trans (d1 d2 d3 : option Timestamp) :
  date_leb d1 d2 → date_leb d2 d3 → date_leb d1 d3.
Proof.
  destruct d1 as [a|], d2 as [b|], d3 as [c|]; simpl; try done.
  rewrite !Timestamp_leb_spec. lia.
Qed.

Lemma index_le_total : Total index_le.
Proof.
  intros r1 r2. unfold index_le, index_leb.
  destruct (decide (ticker r1 = ticker r2)) as [Heq|Hne].
  - rewrite decide_True by done. apply date_leb_total.
  - rewrite decide_False by done. apply (total String.le).
Qed.

Lemma index_le_trans : Transitive index_le.
Proof.
  intros r1 r2 r3. unfold index_le, index_leb.
  destruct (decide (ticker r1 = ticker r2)) as [H12|H12],
           (decide (ticker r2 = ticker r3)) as [H23|H23].
  - rewrite decide_True by congruence. apply date_leb_trans.
  - rewrite decide_False by congruence. rewrite H12. tauto.
  - rewrite decide_False by congruence. rewrite <- H23. tauto.
  - intros Hle12 Hle23. destruct (decide (ticker r1 = ticker r3)) as [H13|H13].
    + destruct H12. apply (anti_symm String.le); [done|]. by rewrite H13.
    + by trans (ticker r2 : string).
Qed.

Lemma StronglySorted_lookup {A} (R : relation A) (xs : list A) :
  StronglySorted R xs →
  ∀ i j x y, i < j → xs !! i = Some x → xs !! j = Some y → R x y.
Proof.
  induction 1 as [|x0 xs Hsorted IH Hall]; intros i j x y Hij Hi Hj; [done|].
  destruct j as [|j]; [lia|]. simpl in Hj. destruct i as [|i]; simpl in Hi.
  - simplify_eq. rewrite Forall_forall in Hall. apply Hall.
    apply list_elem_of_lookup. eauto.
  - apply (IH i j); [lia|done..].
Qed.

Lemma stored_prices_sorted files : StronglySorted index_le (rows (stored_prices files)).
Proof.
  unfold stored_prices. cbn [rows].
  apply StronglySorted_merge_sort; [apply index_le_trans|apply index_le_total].
Qed.

Lemma codes_le_trans : Transitive codes_le.
Proof.
  intros r1 r2 r3. unfold codes_le, codes_leb.
  destruct (decide (ticker r1 = ticker r2)) as [H12|H12],
           (decide (ticker r2 = ticker r3)) as [H23|H23].
  - rewrite decide_True by congruence.
    destruct (date r1) as [a|], (date r2) as [b|], (date r3) as [c|]; simpl; try done.
    rewrite !Timestamp_leb_spec. lia.
  - rewrite decide_False by congruence. rewrite H12. tauto.
  - rewrite decide_False by congruence. rewrite <- H23. tauto.
  - intros Hle12 Hle23. destruct (decide (ticker r1 = ticker r3)) as [H13|H13].
    + destruct H12. apply (anti_symm String.le); [done|]. by rewrite H13.
    + by trans (ticker r2 : string).
Qed.

Lemma is_lexsorted_Sorted (rs : list Row) : is_lexsorted rs ↔ Sorted codes_le rs.
Proof.
  induction rs as [|r1 rs IH]; [split; [intros _; constructor|intros _; exact I]|].
  cbn [is_lexsorted]. destruct rs as [|r2 rs].
  - split; [intros _; repeat constructor|intros _; exact I].
  - rewrite andb_True, IH. split.
    + intros [Hle Hs]. constructor; [exact Hs|]. constructor. exact Hle.
    + intros [Hs Hhd]%Sorted_inv. by apply HdRel_inv in Hhd.
Qed.

(** The sorted table can be sliced exactly when no ticker has a row with a
    date and a row without one. *)
Lemma sorted_lexsorted_iff (rs : list Row) :
  StronglySorted index_le rs →
  is_lexsorted rs
  ↔ ∀ r1 r2, r1 ∈ rs → r2 ∈ rs → ticker r1 = ticker r2 →
             date r1 = None → date r2 = None.
Proof.
  intros Hsorted. split.
  - intros Hlex%is_lexsorted_Sorted r1 r2 H1 H2 Ht Hd.
    eapply Sorted_StronglySorted in Hlex; [|apply codes_le_trans].
    destruct (date r2) as [t|] eqn:Hd2; [exfalso|done].
    apply list_elem_of_lookup in H1 as [i Hi], H2 as [j Hj].
    destruct (Nat.lt_trichotomy i j) as [Hlt|[->|Hgt]].
    + pose proof (StronglySorted_lookup _ _ Hsorted i j r1 r2 Hlt Hi Hj) as Hle.
      unfold index_le, index_leb in Hle. rewrite decide_True in Hle by done.
      by rewrite Hd, Hd2 in Hle.
    + simplify_eq.
    + pose proof (StronglySorted_lookup _ _ Hlex j i r2 r1 Hgt Hj Hi) as Hle.
      unfold codes_le, codes_leb in Hle. rewrite decide_True in Hle by done.
      by rewrite Hd, Hd2 in Hle.
  - intros Hfree. induction Hsorted as [|r1 rs Hsorted IH Hall]; [done|].
    cbn [is_lexsorted]. destruct rs as [|r2 rs]; [done|].
    apply Forall_cons in Hall as [Hle _]. apply andb_True. split.
    + unfold index_le, index_leb in Hle. unfold codes_leb.
      destruct (decide (ticker r1 = ticker r2)) as [Ht|]; [|done].
      destruct (date r1) as [a|] eqn:Hd1, (date r2) as [b|] eqn:Hd2; try done.
      assert (Hnone : date r1 = None); [|congruence].
      apply (Hfree r2 r1); [by right; left|by left|done..].
    + apply IH. intros r r' Hr Hr'. apply Hfree; by right.
Qed.

Lemma sliceable_iff df :
  sliceable df
  ↔ ∀ r1 r2, r1 ∈ rows df → r2 ∈ rows df → ticker r1 = ticker r2 →
             date r1 = None → date r2 = None.
Proof.
  unfold sliceable, sort_index. cbn [rows]. rewrite sorted_lexsorted_iff.
  - by setoid_rewrite merge_sort_Permutation.
  - apply StronglySorted_merge_sort; [apply index_le_trans|apply index_le_total].
Qed.

(** A table whose rows all have a date can be sliced. *)
Lemma dated_rows_are_sliceable df :
  Forall (λ r, is_Some (date r)) (rows df) → sliceable df.
Proof.
  rewrite Forall_forall. intros Hdated. apply sliceable_iff.
  intros r1 r2 H1 _ _ Hd. destruct (Hdated r1 H1) as [t Ht]. congruence.
Qed.

(** X6. The prices table that the store loop hands to the store is sorted
    by its index: tickers in ascending order and, within one ticker, dates
    in ascending order, every row having a date. The table is under its key
    afterwards unless it has no row. *)
Theorem written_table_is_sorted fs market asset_class w w' :
  store_asset_class fs market asset_class w = (w', Ok ()) →
  ∃ w1 prices tickers table,
    get_stooq_prices_and_tickers fs frequency market asset_class
      {| console := console w ++ [Print (newline +:+ asset_class)]; store := store w |}
    = (w1, Ok (prices, tickers))
    ∧ written_table prices = Ok table
    ∧ store w' !! (store_key market asset_class +:+ "prices")
      = held_after (Prices table)
          (store w !! (store_key market asset_class +:+ "prices"))
    ∧ StronglySorted index_le (rows table)
    ∧ ∀ i j r1 r2,
        i < j → rows table !! i = Some r1 → rows table !! j = Some r2 →
        String.leb (ticker r1) (ticker r2)
        ∧ (ticker r1 = ticker r2 →
           ∃ t1 t2, date r1 = Some t1 ∧ date r2 = Some t2 ∧ Timestamp_leb t1 t2).
Proof.
  intros (w1 & Hget & Hw & Hlook & _)%store_asset_class_written.
  set (files := glob_txt fs (data_path frequency market asset_class)) in *.
  exists w1. do 3 eexists. split; [exact Hget|]. split; [exact Hw|].
  split; [exact Hlook|]. split; [apply stored_prices_sorted|].
  intros i j r1 r2 Hij H1 H2.
  pose proof (StronglySorted_lookup _ _ (stored_prices_sorted files) i j r1 r2 Hij H1 H2)
    as Hle.
  assert (Hdated : ∀ i r, rows (stored_prices files) !! i = Some r → is_Some (date r)).
  { intros k r Hk. apply list_elem_of_lookup_2, written_rows in Hk as [_ Hy].
    unfold in_years in Hy. by destruct (date r). }
  destruct (Hdated _ _ H1) as [t1 Ht1], (Hdated _ _ H2) as [t2 Ht2].
  unfold index_le, index_leb in Hle.
  destruct (decide (ticker r1 = ticker r2)) as [Heq|Hne].
  - split; [rewrite Heq; apply (reflexivity (R := String.le))|].
    intros _. exists t1, t2. by rewrite Ht1, Ht2 in Hle |- *.
  - split; [done|]. by intros ?.
Qed.


(** ** The loop over the asset classes, step by step *)

(** One step: it follows the read, and then the slice. *)
Lemma store_asset_class_cases fs market asset_class w :
  let files := glob_txt fs (data_path frequency market asset_class) in
  ((get_stooq_prices_and_tickers fs frequency market asset_class w).2
   = Ok (combined_prices frequency files, foldl add_ticker ∅ files)
   ∧ sliceable (combined_prices frequency files)
   ∧ (store_asset_class fs market asset_class w).2 = Ok ()
   ∧ store (store_asset_class fs market asset_class w).1
     = write_asset_class fs market (store w) asset_class)
  ∨ ((get_stooq_prices_and_tickers fs frequency market asset_class w).2
     = Ok (combined_prices frequency files, foldl add_ticker ∅ files)
     ∧ ¬ sliceable (combined_prices frequency files)
     ∧ (store_asset_class fs market asset_class w).2 = Raise UnsortedIndexError
     ∧ store (store_asset_class fs market asset_class w).1 = store w)
  ∨ ∃ e, (get_stooq_prices_and_tickers fs frequency market asset_class w).2 = Raise e
         ∧ (store_asset_class fs market asset_class w).2 = Raise e
         ∧ store (store_asset_class fs market asset_class w).1 = store w.
Proof.
  intros files.
  pose proof (get_stooq_outcome fs frequency market asset_class w
                {| console := console w ++ [Print (newline +:+ asset_class)];
                   store := store w |}) as Ho.
  pose proof (get_stooq_world fs frequency market asset_class
                {| console := console w ++ [Print (newline +:+ asset_class)];
                   store := store w |}) as [Hs _].
  unfold store_asset_class, bind. unfold print. rewrite emit_eq.
  destruct (get_stooq_prices_and_tickers fs frequency market asset_class
              {| console := console w ++ [Print (newline +:+ asset_class)];
                 store := store w |}) as [w1 [[prices t]|e]] eqn:Hget;
    cbn [fst snd store] in Ho, Hs |- *.
  - apply get_stooq_Ok in Hget as (_ & _ & -> & -> & _). fold files.
    fold (combined_prices frequency files). fold (combined_prices frequency files) in Ho.
    unfold lift.
    destruct (decide (sliceable (combined_prices frequency files))) as [Hsl|Hsl].
    + left.
      rewrite (written_table_Ok "date" (combined_prices frequency files)
                 (or_introl eq_refl) eq_refl eq_refl Hsl).
      rewrite !emit_eq, !to_hdf_eq. cbn [fst snd store console].
      split; [done|]. split; [done|]. split; [done|]. by rewrite Hs.
    + right; left. rewrite (written_table_unsorted _ Hsl). cbn [fst snd].
      split; [done|]. split; [done|]. done.
  - right; right. exists e. done.
Qed.

(** The outcome of a step does not depend on the world it starts from. *)
Lemma store_asset_class_outcome fs market asset_class w w0 :
  (store_asset_class fs market asset_class w).2
  = (store_asset_class fs market asset_class w0).2.
Proof.
  pose proof (get_stooq_outcome fs frequency market asset_class w w0) as Ho.
  destruct (store_asset_class_cases fs market asset_class w)
    as [(Hg & Hsl & -> & _)|[(Hg & Hsl & -> & _)|(e & Hg & -> & _)]],
    (store_asset_class_cases fs market asset_class w0)
    as [(Hg0 & Hsl0 & -> & _)|[(Hg0 & Hsl0 & -> & _)|(e0 & Hg0 & -> & _)]];
    rewrite Hg, Hg0 in Ho; simplify_eq; done.
Qed.


Lemma for_each_app {A} (body : A → Py unit) (pre post : list A) w :
  for_each (pre ++ post) body w
  = match for_each pre body w with
    | (w1, Ok _) => for_each post body w1
    | (w1, Raise e) => (w1, Raise e)
    end.
Proof.
  revert w. induction pre as [|x pre IH]; intros w; simpl; [done|].
  unfold bind. destruct (body x w) as [w1 [[]|e]]; [apply IH|done].
Qed.

Lemma store_loop_unfold fs w :
  store_loop fs w
  = for_each ["nasdaq etfs"; "nasdaq stocks"; "nyse etfs"; "nyse stocks"; "nysemkt stocks"]
      (store_asset_class fs "us") w.
Proof.
  unfold store_loop, markets. cbn [for_each]. unfold bind at 1.
  match goal with |- match ?r with _ => _ end = _ => change (match r with
    | (w', Ok a) => (λ _ : unit, ret ()) a w' | (w', Raise e) => (w', Raise e) end = r);
    by destruct r as [w' [[]|e]] end.
Qed.

Lemma store_asset_class_step fs market asset_class w :
  (store_asset_class fs market asset_class w).2 = Ok () →
  store (store_asset_class fs market asset_class w).1
  = write_asset_class fs market (store w) asset_class.
Proof.
  destruct (store_asset_class_cases fs market asset_class w)
    as [(_ & _ & _ & Hs)|[(_ & _ & -> & _)|(e & _ & -> & _)]]; done.
Qed.


(** The asset classes whose steps return are all written. *)
Lemma for_each_writes fs market (asset_classes : list string) : ∀ w,
  Forall (λ a, (store_asset_class fs market a w).2 = Ok ()) asset_classes →
  (for_each asset_classes (store_asset_class fs market) w).2 = Ok ()
  ∧ store (for_each asset_classes (store_asset_class fs market) w).1
    = foldl (write_asset_class fs market) (store w) asset_classes.
Proof.
  induction asset_classes as [|a acs IH]; intros w Hall; [done|].
  apply Forall_cons in Hall as [Ha Hall]. simpl. unfold bind.
  pose proof (store_asset_class_step fs market a w Ha) as Hstore.
  destruct (store_asset_class fs market a w) as [w1 [[]|e]]; simpl in Ha, Hstore; [|done].
  rewrite <- Hstore. apply IH. eapply Forall_impl; [exact Hall|].
  intros a' Hret. by rewrite (store_asset_class_outcome _ _ _ w1 w).
Qed.

Lemma for_each_outcome fs market (asset_classes : list string) : ∀ w w0,
  (for_each asset_classes (store_asset_class fs market) w).2
  = (for_each asset_classes (store_asset_class fs market) w0).2.
Proof.
  induction asset_classes as [|a acs IH]; intros w w0; simpl; [done|]. unfold bind.
  pose proof (store_asset_class_outcome fs market a w w0) as Ho.
  destruct (store_asset_class fs market a w) as [w1 [[]|e1]],
           (store_asset_class fs market a w0) as [w1' [[]|e1']];
    simpl in Ho; simplify_eq; [apply IH|done].
Qed.

(** A key that no asset class of the list writes keeps its object. *)
Lemma for_each_other_key fs market (asset_classes : list string) k : ∀ w,
  Forall (λ a, k ≠ store_key market a +:+ "prices"
               ∧ k ≠ store_key market a +:+ "tickers") asset_classes →
  store (for_each asset_classes (store_asset_class fs market) w).1 !! k = store w !! k.
Proof.
  induction asset_classes as [|a acs IH]; intros w Hall; [done|].
  apply Forall_cons in Hall as [[Hp Ht] Hall]. simpl. unfold bind.
  assert (Hstep : store (store_asset_class fs market a w).1 !! k = store w !! k).
  { destruct (store_asset_class_cases fs market a w)
      as [(_ & _ & _ & ->)|[(_ & _ & _ & ->)|(e & _ & _ & ->)]]; [|done..].
    unfold write_asset_class. cbv zeta. by rewrite !put_lookup_ne. }
  destruct (store_asset_class fs market a w) as [w1 [[]|e]]; simpl in Hstep |- *; [|done].
  rewrite <- Hstep. by apply IH.
Qed.

Lemma put_union key obj (store : gmap string stored) :
  put key obj store = put key obj ∅ ∪ store.
Proof.
  unfold put. destruct (is_empty obj).
  - by rewrite (left_id_L ∅ (∪)).
  - by rewrite <- insert_union_l, (left_id_L ∅ (∪)).
Qed.

Lemma write_asset_class_union fs market (store : gmap string stored) a :
  write_asset_class fs market store a = write_asset_class fs market ∅ a ∪ store.
Proof.
  unfold write_asset_class. cbv zeta.
  rewrite put_union, (put_union _ _ store), (put_union _ _ (put _ _ ∅)).
  by rewrite !(assoc_L (∪)).
Qed.

Lemma writes_union fs market (asset_classes : list string) :
  ∀ store : gmap string stored,
    foldl (write_asset_class fs market) store asset_classes
    = foldl (write_asset_class fs market) ∅ asset_classes ∪ store.
Proof.
  induction asset_classes as [|a acs IH]; intros store; simpl.
  - by rewrite (left_id_L ∅ (∪)).
  - rewrite IH, (IH (write_asset_class fs market ∅ a)), write_asset_class_union.
    by rewrite (assoc_L (∪)).
Qed.

(** X9. Running the store loop again on the same files changes nothing in
    the store: the second run returns as well and leaves the store of the
    first. *)
Theorem store_loop_twice fs w w1 :
  store_loop fs w = (w1, Ok ()) →
  ∃ w2, store_loop fs w1 = (w2, Ok ()) ∧ store w2 = store w1.
Proof.
  rewrite !store_loop_unfold. intros Hrun.
  set (acs := ["nasdaq etfs"; "nasdaq stocks"; "nyse etfs"; "nyse stocks";
               "nysemkt stocks"]) in *.
  assert (Hall : ∀ w0, Forall (λ a, (store_asset_class fs "us" a w0).2 = Ok ()) acs).
  { intros w0. apply Forall_forall. intros a Hin.
    apply list_elem_of_split in Hin as (pre & post & Hsplit).
    rewrite Hsplit, for_each_app in Hrun.
    destruct (for_each pre (store_asset_class fs "us") w) as [wp [[]|e]]; [|done].
    simpl in Hrun. unfold bind in Hrun.
    rewrite (store_asset_class_outcome _ _ _ w0 wp).
    by destruct (store_asset_class fs "us" a wp) as [wq [[]|e']]. }
  destruct (for_each_writes fs "us" acs w (Hall w)) as [_ Hs1].
  destruct (for_each_writes fs "us" acs w1 (Hall w1)) as [Ho2 Hs2].
  rewrite Hrun in Hs1. cbn [fst] in Hs1.
  destruct (for_each acs (store_asset_class fs "us") w1) as [w2 [[]|e]]; [|done].
  exists w2. split; [done|]. cbn [fst] in Hs2. rewrite Hs2, Hs1.
  rewrite writes_union, (writes_union _ _ _ (store w)).
  by rewrite (assoc_L (∪)), (idemp_L (∪)).
Qed.

(** X10. The store loop touches no other key of the shared store: an object
    under a key that is none of the [prices] and [tickers] keys of [markets]
    is the same after the loop, however the loop ends. *)
Theorem store_loop_keeps_other_keys fs w k :
  (∀ market asset_classes asset_class,
     (market, asset_classes) ∈ markets → asset_class ∈ asset_classes →
     k ≠ store_key market asset_class +:+ "prices"
     ∧ k ≠ store_key market asset_class +:+ "tickers") →
  store (store_loop fs w).1 !! k = store w !! k.
Proof.
  intros Hk. rewrite store_loop_unfold. apply for_each_other_key.
  apply Forall_forall. intros a Ha. eapply Hk; [by left|done].
Qed.


End Storing.

(** ** Strings and paths *)

Section Strings.
Implicit Types (s t p : string) (c : ascii).

Lemma app_cons_string a s t : String a s +:+ t = String a (s +:+ t).
Proof. reflexivity. Qed.

Lemma app_nil_r_string s : s +:+ "" = s.
Proof. induction s as [|a s IH]; [done|]. by rewrite app_cons_string, IH. Qed.

Lemma app_assoc_string s t p : s +:+ (t +:+ p) = (s +:+ t) +:+ p.
Proof. induction s as [|a s IH]; [done|]. by rewrite !app_cons_string, IH. Qed.

Lemma length_app_string s t :
  String.length (s +:+ t) = String.length s + String.length t.
Proof. induction s as [|a s IH]; [done|]. rewrite app_cons_string. simpl. by rewrite IH. Qed.

(** The directories above a path have shorter names than the path. *)
Lemma prefixes_at_length c s : ∀ acc a,
  a ∈ Download.prefixes_at c acc s →
  String.length acc ≤ String.length a < String.length acc + String.length s.
Proof.
  induction s as [|x s IH]; intros acc a Ha; simpl in Ha.
  { by apply elem_of_nil in Ha. }
  assert (Hrec : a ∈ Download.prefixes_at c (acc +:+ String x "") s →
                 String.length acc ≤ String.length a
                 < String.length acc + String.length (String x s)).
  { intros Hin%IH. rewrite length_app_string in Hin. simpl in *. lia. }
  destruct (decide (x = c)); [|by apply Hrec].
  apply elem_of_cons in Ha as [->|Ha]; [simpl; lia|by apply Hrec].
Qed.

Lemma ancestors_shorter path a :
  a ∈ Download.ancestors path → String.length a < String.length path.
Proof. intros Ha%prefixes_at_length. simpl in Ha. lia. Qed.

Lemma rev_app_append s : ∀ t, String.rev_app s t = String.rev_app s "" +:+ t.
Proof.
  induction s as [|a s IH]; intros t; [done|]. cbn [String.rev_app].
  rewrite (IH (String a t)), (IH (String a "")).
  by rewrite <- app_assoc_string.
Qed.

Lemma rev_append s t : String.rev (s +:+ t) = String.rev t +:+ String.rev s.
Proof.
  unfold String.rev. induction s as [|a s IH].
  - by rewrite app_nil_r_string.
  - rewrite app_cons_string. cbn [String.rev_app].
    rewrite (rev_app_append (s +:+ t)), IH, (rev_app_append s (String a "")).
    by rewrite app_assoc_string.
Qed.

Lemma prefix_nil s : String.prefix "" s = true.
Proof. by destruct s. Qed.

Lemma prefix_append p : ∀ s t,
  String.prefix p s = true → String.prefix p (s +:+ t) = true.
Proof.
  induction p as [|a p IH]; intros s t Hp; [apply prefix_nil|].
  destruct s as [|b s]; [done|]. rewrite app_cons_string. simpl in *.
  destruct (ascii_dec a b); [by apply IH|done].
Qed.

Lemma endswith_append p s t : endswith p t = true → endswith p (s +:+ t) = true.
Proof. unfold endswith. rewrite rev_append. apply prefix_append. Qed.

Lemma txt_is_no_zip s : endswith ".txt" (s +:+ "_txt.zip") = false.
Proof. unfold endswith. by rewrite rev_append. Qed.

Lemma prefix_refl s : String.prefix s s = true.
Proof. induction s as [|a s IH]; [done|]. simpl. by destruct (ascii_dec a a). Qed.

Lemma prefix_inv p : ∀ s, String.prefix p s = true → ∃ v, s = p +:+ v.
Proof.
  induction p as [|a p IH]; intros s Hp; [by exists s|].
  destruct s as [|b s]; [done|]. simpl in Hp.
  destruct (ascii_dec a b) as [->|]; [|done].
  destruct (IH s Hp) as [v ->]. by exists v.
Qed.

Lemma rev_cons a s : String.rev (String a s) = String.rev s +:+ String a "".
Proof. unfold String.rev. cbn [String.rev_app]. apply rev_app_append. Qed.

Lemma rev_involutive s : String.rev (String.rev s) = s.
Proof.
  induction s as [|a s IH]; [done|]. by rewrite rev_cons, rev_append, IH.
Qed.

Lemma endswith_inv p s : endswith p s = true → ∃ u, s = u +:+ p.
Proof.
  unfold endswith. intros [v Hv]%prefix_inv. exists (String.rev v).
  by rewrite <- (rev_involutive s), Hv, rev_append, rev_involutive.
Qed.

Lemma endswith_suffix p u : endswith p (u +:+ p) = true.
Proof. apply endswith_append. unfold endswith. apply prefix_refl. Qed.

(** ** Joining paths *)

(** A suffix without a slash and of two characters or more is a suffix of
    the last component of a string, and so of every path the string is
    joined to. *)
Lemma rfind_cons_None c a s :
  rfind c (String a s) = None → a ≠ c ∧ rfind c s = None.
Proof. simpl. destruct (rfind c s); [done|]. by destruct (decide (a = c)). Qed.

Lemma parts_from_slashfree t : ∀ cur,
  rfind "/" t = None → parts_from cur t = component (cur +:+ t).
Proof.
  induction t as [|x t IH]; intros cur Ht; simpl.
  - by rewrite app_nil_r_string.
  - apply rfind_cons_None in Ht as [Hx Ht]. rewrite decide_False by done.
    rewrite IH by done. by rewrite <- app_assoc_string.
Qed.

Lemma parts_from_suffix u : ∀ cur,
  ∃ ps cur', ∀ t,
    rfind "/" t = None →
    parts_from cur (u +:+ t) = ps ++ component (cur' +:+ t).
Proof.
  induction u as [|x u IH]; intros cur.
  - exists [], cur. intros t Ht. by apply parts_from_slashfree.
  - destruct (decide (x = "/"%char)) as [->|Hx].
    + destruct (IH "") as (ps & cur' & Hps). exists (component cur ++ ps), cur'.
      intros t Ht. rewrite app_cons_string. simpl.
      by rewrite Hps, (assoc_L (++)).
    + destruct (IH (cur +:+ String x "")) as (ps & cur' & Hps). exists ps, cur'.
      intros t Ht. rewrite app_cons_string. simpl.
      rewrite decide_False by done. by apply Hps.
Qed.

Lemma component_long s : 2 ≤ String.length s → component s = [s].
Proof.
  intros Hlen. unfold component. rewrite decide_False; [done|].
  intros [-> | ->]; simpl in Hlen; lia.
Qed.

Lemma join_parts_last (ps : list string) (last : string) :
  ∃ v, join_parts (ps ++ [last]) = v +:+ last.
Proof.
  induction ps as [|p0 ps [v IH]]; [by exists ""|].
  exists (p0 +:+ "/" +:+ v). simpl.
  destruct (ps ++ [last]) as [|q l] eqn:Hl; [by destruct ps|].
  by rewrite IH, !app_assoc_string.
Qed.

Lemma as_posix_last (r : string) (ps : list string) (last : string) :
  ∃ v, as_posix r (ps ++ [last]) = v +:+ last.
Proof.
  destruct (join_parts_last ps last) as [v Hv]. exists (r +:+ v).
  unfold as_posix. destruct (ps ++ [last]) as [|q l] eqn:Hl; [by destruct ps|].
  by rewrite Hv, app_assoc_string.
Qed.

Lemma joinpath_suffix t a u :
  rfind "/" t = None → 2 ≤ String.length t →
  ∃ z, a // (u +:+ t) = z +:+ t.
Proof.
  intros Ht Hlen.
  destruct (parts_from_suffix u "") as (ps & cur' & Hps).
  assert (Hparts : parts (u +:+ t) = ps ++ [cur' +:+ t]).
  { unfold parts. rewrite Hps by done. rewrite component_long; [done|].
    rewrite length_app_string. lia. }
  unfold joinpath. rewrite Hparts.
  destruct (decide (root (u +:+ t) = "")).
  - rewrite (assoc_L (++)).
    destruct (as_posix_last (root a) (parts a ++ ps) (cur' +:+ t)) as [v ->].
    exists (v +:+ cur'). by rewrite app_assoc_string.
  - destruct (as_posix_last (root (u +:+ t)) ps (cur' +:+ t)) as [v ->].
    exists (v +:+ cur'). by rewrite app_assoc_string.
Qed.

Lemma endswith_joinpath t a b :
  rfind "/" t = None → 2 ≤ String.length t →
  endswith t b = true → endswith t (a // b) = true.
Proof.
  intros Ht Hlen [u ->]%endswith_inv.
  destruct (joinpath_suffix t a u Ht Hlen) as [z ->]. apply endswith_suffix.
Qed.

(** The local file of a member that ends in [.txt] ends in [.txt], and the
    archive does not. *)
Lemma local_file_is_txt m :
  Download.is_txt m = true → endswith ".txt" (Download.local_file m) = true.
Proof.
  intros Htxt. unfold Download.local_file.
  apply endswith_joinpath; [done|simpl; lia|done].
Qed.

Lemma data_name_is_no_txt market freq :
  endswith ".txt" (Download.data_name market freq) = false.
Proof.
  unfold Download.data_name.
  destruct (joinpath_suffix "_txt.zip" (stooq_path // ".downloaded")
              (freq +:+ "_" +:+ market)) as [z Hz]; [done|simpl; lia|].
  rewrite <- !app_assoc_string in Hz. rewrite Hz.
  apply txt_is_no_zip.
Qed.

(** Lower-casing neither makes nor removes a dot, and is idempotent. *)
Lemma lower_char_dot c : lower_char c = "."%char ↔ c = "."%char.
Proof. destruct c as [[] [] [] [] [] [] [] []]; by vm_compute. Qed.

Lemma lower_char_idemp c : lower_char (lower_char c) = lower_char c.
Proof. destruct c as [[] [] [] [] [] [] [] []]; by vm_compute. Qed.

Lemma lower_idemp s : lower (lower s) = lower s.
Proof. induction s as [|a s IH]; [done|]. simpl. by rewrite lower_char_idemp, IH. Qed.

Lemma split_head_lower s : split_head "." (lower s) = lower (split_head "." s).
Proof.
  induction s as [|a s IH]; [done|]. simpl.
  destruct (decide (a = "."%char)) as [->|Hne].
  - by rewrite decide_True by done.
  - rewrite decide_False by (by rewrite lower_char_dot). simpl. by rewrite IH.
Qed.

Lemma split_head_idemp c s : split_head c (split_head c s) = split_head c s.
Proof.
  induction s as [|a s IH]; [done|]. simpl.
  destruct (decide (a = c)); [done|]. simpl. by rewrite decide_False, IH.
Qed.

Lemma rfind_get c s : ∀ i, rfind c s = Some i → String.get i s = Some c.
Proof.
  induction s as [|a s IH]; intros i Hi; [done|]. simpl in Hi.
  destruct (rfind c s) as [j|].
  - simplify_eq. simpl. by apply IH.
  - destruct (decide (a = c)); by simplify_eq.
Qed.

Lemma split_head_substring c s : ∀ i,
  String.get i s = Some c →
  split_head c (String.substring 0 i s) = split_head c s.
Proof.
  induction s as [|a s IH]; intros i Hi; [done|].
  destruct i as [|i]; simpl in *.
  - simplify_eq. by rewrite decide_True.
  - destruct (decide (a = c)); [done|]. by rewrite IH.
Qed.

Lemma split_head_stem path :
  split_head "." (stem path) = split_head "." (name path).
Proof.
  unfold stem. destruct (rfind "." (name path)) as [i|] eqn:Hi; [|done].
  destruct (_ && _); [|done]. by apply split_head_substring, rfind_get.
Qed.

(** X12. The value stored for a file in the tickers series is the part of
    the file name before its first dot, in lower case: taking the stem first
    changes nothing, and the value holds no dot and is not changed by
    lower-casing it again. *)
Theorem stem_key_is_the_lowered_name_head `{Float64} (file : File) :
  stem_key file = lower (split_head "." (name (path file)))
  ∧ split_head "." (stem_key file) = stem_key file
  ∧ rfind "." (stem_key file) = None
  ∧ lower (stem_key file) = stem_key file.
Proof.
  unfold stem_key. rewrite split_head_stem.
  assert (Hhead : split_head "." (lower (split_head "." (name (path file))))
                  = lower (split_head "." (name (path file)))).
  { by rewrite split_head_lower, split_head_idemp. }
  split; [done|]. split; [done|]. split; [|apply lower_idemp].
  revert Hhead. generalize (lower (split_head "." (name (path file)))).
  intros s. induction s as [|a s IH]; [done|]. simpl.
  destruct (decide (a = "."%char)); [done|]. intros [= Hs].
  by rewrite (IH Hs).
Qed.
End Strings.

(** ** What unpacking leaves alone *)

Section Unpacking.
Import Download.
Variable cannot_create : string → bool.
Implicit Types (d : Disk) (m : string * string) (members : list (string * string)).

(** One member, however it ends: the directories only grow, and the files
    are as before or hold the member at its local file. *)
Lemma extract_member_frame m d :
  dirs d ⊆ dirs (extract_member cannot_create m d).1
  ∧ (files (extract_member cannot_create m d).1 = files d
     ∨ is_txt m = true
       ∧ files (extract_member cannot_create m d).1 = write (files d) m).
Proof.
  destruct m as [file data]. unfold extract_member, is_txt, write, local_file. simpl.
  destruct (endswith ".txt" file); simpl; [|by auto].
  destruct (mkdir_parent_cases (stooq_path // file) d) as [(e & -> & He)| ->];
    [by auto|].
  unfold write_member. cbn [files dirs console].
  destruct (decide _); simpl; [split; [apply union_subseteq_l|by left]|].
  destruct (cannot_create (stooq_path // file)); simpl;
    (split; [apply union_subseteq_l|by auto]).
Qed.

Lemma extract_members_frame members : ∀ d,
  dirs d ⊆ dirs (extract_members cannot_create members d).1
  ∧ ∀ path,
      files (extract_members cannot_create members d).1 !! path ≠ files d !! path →
      (∃ m, m ∈ members ∧ is_txt m = true ∧ path = local_file m)
      ∧ ∃ data, files (extract_members cannot_create members d).1 !! path
                = Some (Bytes data).
Proof.
  induction members as [|m members IH]; intros d; simpl; [by split|].
  destruct (extract_member_frame m d) as [Hdirs Hfiles].
  destruct (extract_member cannot_create m d) as [d1 [[]|e]]; simpl in Hdirs, Hfiles.
  - destruct (IH d1) as [Hdirs' Hfiles']. split; [by etrans|].
    intros path Hne.
    destruct (decide (files (extract_members cannot_create members d1).1 !! path
                      = files d1 !! path)) as [Heq|Hne'].
    + rewrite Heq in Hne |- *. destruct Hfiles as [Hsame|[Htxt Hw]];
        [by rewrite Hsame in Hne|].
      rewrite Hw in Hne |- *. unfold write in *.
      destruct (decide (local_file m = path)) as [<-|Hp].
      * rewrite lookup_insert_eq. split; [|by eauto].
        exists m. split; [by left|done].
      * by rewrite lookup_insert_ne in Hne.
    + destruct (Hfiles' path Hne') as [(m' & Hin & Htxt & ->) Hdata].
      split; [|done]. exists m'. split; [by right|done].
  - simpl. split; [done|]. intros path Hne.
    destruct Hfiles as [Hsame|[Htxt Hw]]; [by rewrite Hsame in Hne|].
    rewrite Hw in Hne |- *. unfold write in *.
    destruct (decide (local_file m = path)) as [<-|Hp].
    + rewrite lookup_insert_eq. split; [|by eauto].
      exists m. split; [by left|done].
    + by rewrite lookup_insert_ne in Hne.
Qed.

Lemma download_frame market freq d :
  dirs d ⊆ dirs (download_price_data cannot_create market freq d).1
  ∧ ∀ path,
      files (download_price_data cannot_create market freq d).1 !! path
      ≠ files d !! path →
      endswith ".txt" path = true
      ∧ (∃ members m,
           files d !! data_name market freq = Some (ZipArchive members)
           ∧ m ∈ members ∧ is_txt m = true ∧ path = local_file m)
      ∧ ∃ data, files (download_price_data cannot_create market freq d).1 !! path
                = Some (Bytes data).
Proof.
  unfold download_price_data.
  destruct (negb _); [by split|].
  unfold ZipFile.
  destruct (files d !! data_name market freq) as [[data|members]|] eqn:Hzip;
    [by split| |by destruct (decide _)].
  destruct (extract_members_frame members d) as [Hdirs Hfiles].
  split; [done|]. intros path Hne.
  destruct (Hfiles path Hne) as [(m & Hin & Htxt & ->) Hdata].
  split; [by apply local_file_is_txt|]. split; [|done].
  by exists members, m.
Qed.


(** X14. The loop over the markets stops at the first market whose archive
    is missing: [FileNotFoundError] reaches the caller, the markets before
    it stay unpacked and no later market is unpacked. *)
Theorem download_markets_stops_at_missing_archive pre market post d d1 :
  download_markets cannot_create pre d = (d1, Ok ()) →
  path_exists d1 (data_name market "d") = false →
  download_markets cannot_create (pre ++ market :: post) d
  = (d1, Raise FileNotFoundError).
Proof.
  revert d. induction pre as [|m0 pre IH]; intros d Hpre Hmissing; simpl in *.
  - simplify_eq. unfold download_price_data. by rewrite Hmissing.
  - destruct (download_price_data cannot_create m0 "d" d) as [d0 [[]|e]]; [|done].
    by apply IH.
Qed.

(** ** Unpacking a second time *)

(** A member that ends in [.txt] and is passed without an error. *)
Lemma extract_member_Ok_txt m d d' :
  extract_member cannot_create m d = (d', Ok ()) →
  is_txt m = true →
  Forall (λ a, a ∉ dom (files d)) (ancestors (local_file m))
  ∧ (local_file m ∉ dirs d')
  ∧ dirs d' = dirs d ∪ list_to_set (ancestors (local_file m))
  ∧ files d' = (if cannot_create (local_file m) then files d else write (files d) m).
Proof.
  destruct m as [file data]. unfold extract_member, is_txt, write, local_file. simpl.
  intros Hrun Htxt. rewrite Htxt in Hrun. simpl in Hrun.
  unfold mkdir_parent in Hrun.
  destruct (decide (Exists _ _)) as [|Hnone]; [done|].
  unfold write_member in Hrun. cbn [files dirs console] in Hrun.
  destruct (decide (_ ∈ _)) as [|Hdir]; [done|].
  assert (Hanc : Forall (λ a, a ∉ dom (files d)) (ancestors (stooq_path // file))).
  { apply Forall_forall. intros a Ha Hin. apply Hnone, Exists_exists. eauto. }
  destruct (cannot_create (stooq_path // file)); simplify_eq; simpl; done.
Qed.

(** Files and directories stay apart: no file is written where a directory
    is, and no directory is made where a file is. *)
Lemma extract_member_apart m d d' :
  extract_member cannot_create m d = (d', Ok ()) →
  dom (files d) ⊆ dom (files d') ∧ dirs d ⊆ dirs d'
  ∧ (∀ p, p ∈ dirs d → p ∉ dom (files d) → p ∉ dom (files d'))
  ∧ (∀ p, p ∈ dom (files d) → p ∉ dirs d → p ∉ dirs d').
Proof.
  intros Hrun. destruct (is_txt m) eqn:Htxt.
  - destruct (extract_member_Ok_txt m d d' Hrun Htxt) as (Hanc & Hlf & Hdirs & Hfiles).
    rewrite Forall_forall in Hanc.
    assert (Hdom : dom (files d') ⊆ {[local_file m]} ∪ dom (files d)
                   ∧ dom (files d) ⊆ dom (files d')).
    { rewrite Hfiles. destruct (cannot_create (local_file m)).
      - split; [apply union_subseteq_r|done].
      - unfold write. rewrite dom_insert_L. split; [done|apply union_subseteq_r]. }
    destruct Hdom as [Hup Hlow].
    split; [done|]. split; [rewrite Hdirs; apply union_subseteq_l|]. split.
    + intros p Hp Hfile Hfile'. apply Hup, elem_of_union in Hfile' as [Heq|?]; [|done].
      apply elem_of_singleton in Heq as ->. apply Hlf. rewrite Hdirs.
      by apply elem_of_union_l.
    + intros p Hp Hdir. rewrite Hdirs.
      intros [?|Hin%elem_of_list_to_set]%elem_of_union; [done|].
      by apply (Hanc p).
  - destruct m as [file data]. unfold extract_member, is_txt in *. simpl in Htxt.
    rewrite Htxt in Hrun. simpl in Hrun. by simplify_eq.
Qed.

Lemma extract_members_apart members : ∀ d d',
  extract_members cannot_create members d = (d', Ok ()) →
  dom (files d) ⊆ dom (files d') ∧ dirs d ⊆ dirs d'
  ∧ (∀ p, p ∈ dirs d → p ∉ dom (files d) → p ∉ dom (files d'))
  ∧ (∀ p, p ∈ dom (files d) → p ∉ dirs d → p ∉ dirs d').
Proof.
  induction members as [|m members IH]; intros d d' Hrun; simpl in Hrun.
  - by simplify_eq.
  - destruct (extract_member cannot_create m d) as [d0 [[]|e]] eqn:Hm; [|done].
    apply extract_member_apart in Hm as (Hf0 & Hd0 & Hfile0 & Hdir0).
    apply IH in Hrun as (Hf & Hd & Hfile & Hdir).
    split; [by etrans|]. split; [by etrans|]. split.
    + intros p Hp Hnew. apply Hfile; [by apply Hd0|by apply Hfile0].
    + intros p Hp Hnew. apply Hdir; [by apply Hf0|by apply Hdir0].
Qed.

(** After a run that returns, every [.txt] member has its directories in
    place with no file among them, and every extracted one is a file. *)
Lemma extract_members_settled members : ∀ d d',
  extract_members cannot_create members d = (d', Ok ()) →
  ∀ m, m ∈ members → is_txt m = true →
    Forall (λ a, (a ∉ dom (files d')) ∧ a ∈ dirs d') (ancestors (local_file m))
    ∧ (cannot_create (local_file m) = false →
       local_file m ∈ dom (files d') ∧ local_file m ∉ dirs d').
Proof.
  induction members as [|m0 members IH]; intros d d' Hrun m Hin Htxt; simpl in Hrun.
  { by apply elem_of_nil in Hin. }
  destruct (extract_member cannot_create m0 d) as [d0 [[]|e]] eqn:Hm0; [|done].
  apply elem_of_cons in Hin as [<-|Hin]; [|by apply (IH d0)].
  destruct (extract_member_Ok_txt m d d0 Hm0 Htxt) as (Hanc & Hlf & Hdirs & Hfiles).
  destruct (extract_members_apart members d0 d' Hrun) as (Hf & Hd & Hfile & Hdir).
  rewrite Forall_forall in Hanc. split.
  - apply Forall_forall. intros a Ha.
    assert (Ha0 : a ∈ dirs d0).
    { rewrite Hdirs. by apply elem_of_union_r, elem_of_list_to_set. }
    split; [|by apply Hd]. apply Hfile; [done|]. rewrite Hfiles.
    destruct (cannot_create (local_file m)); [by apply Hanc|].
    unfold write. rewrite dom_insert_L.
    intros [Heq%elem_of_singleton|?]%elem_of_union; [by subst|by apply (Hanc a)].
  - intros Hcan. rewrite Hcan in Hfiles.
    assert (Hm : local_file m ∈ dom (files d0)).
    { rewrite Hfiles. unfold write. rewrite dom_insert_L.
      by apply elem_of_union_l, elem_of_singleton. }
    split; [by apply Hf|by apply Hdir].
Qed.

(** A run on a disk where the members are settled: it returns, writes the
    extracted members and prints the refused ones; the directories and the
    names of the files are as before. *)
Lemma extract_members_again members : ∀ d,
  Forall (λ m, is_txt m = true →
            Forall (λ a, (a ∉ dom (files d)) ∧ a ∈ dirs d) (ancestors (local_file m))
            ∧ (local_file m ∉ dirs d)
            ∧ (cannot_create (local_file m) = false → local_file m ∈ dom (files d)))
         members →
  extract_members cannot_create members d
  = ({| files := foldl write (files d) (filter (extracted cannot_create) members);
        dirs := dirs d;
        console := console d
          ++ (errno2 ∘ local_file <$> filter (refused cannot_create) members) |},
     Ok ()).
Proof.
  induction members as [|m members IH]; intros d Hall.
  { simpl. rewrite app_nil_r. by destruct d. }
  apply Forall_cons in Hall as [Hm Hall]. cbn [extract_members].
  destruct (is_txt m) eqn:Htxt.
  - destruct (Hm eq_refl) as (Hanc & Hlf & Hfile).
    assert (Hdirs : dirs d ∪ list_to_set (ancestors (local_file m)) = dirs d).
    { apply (anti_symm (⊆)); [|apply union_subseteq_l].
      apply union_least; [done|]. intros a Ha%elem_of_list_to_set.
      rewrite Forall_forall in Hanc. by apply Hanc. }
    assert (Hstep : extract_member cannot_create m d
              = ({| files := if cannot_create (local_file m) then files d
                             else write (files d) m;
                    dirs := dirs d;
                    console := console d
                      ++ (if cannot_create (local_file m)
                          then [errno2 (local_file m)] else []) |}, Ok ())).
    { destruct m as [file data]. unfold is_txt in Htxt.
      unfold local_file, write in *. cbn [fst snd] in *.
      unfold extract_member. rewrite Htxt. cbn [negb]. unfold mkdir_parent.
      rewrite decide_False.
      2:{ intros (a & Ha & Hin)%Exists_exists. rewrite Forall_forall in Hanc.
          by destruct (Hanc a Ha). }
      unfold write_member. cbn [files dirs console]. rewrite Hdirs.
      rewrite decide_False by done.
      destruct (cannot_create (stooq_path // file)); simpl; [done|].
      by rewrite app_nil_r. }
    rewrite Hstep.
    assert (Hdom : dom (if cannot_create (local_file m) then files d
                        else write (files d) m) = dom (files d)).
    { destruct (cannot_create (local_file m)); [done|].
      unfold write. rewrite dom_insert_L.
      apply (anti_symm (⊆)); [|apply union_subseteq_r].
      apply union_least; [|done]. apply singleton_subseteq_l. by apply Hfile. }
    rewrite IH; cbn [files dirs console]; [|by rewrite Hdom].
    assert (Hex : filter (extracted cannot_create) (m :: members)
                  = if cannot_create (local_file m)
                    then filter (extracted cannot_create) members
                    else m :: filter (extracted cannot_create) members).
    { destruct (cannot_create (local_file m)) eqn:Hcan;
        [rewrite filter_cons_False|rewrite filter_cons_True]; try done;
        [apply Is_true_false_2|apply Is_true_true_2];
        unfold extracted; by rewrite Htxt, Hcan. }
    assert (Hre : filter (refused cannot_create) (m :: members)
                  = if cannot_create (local_file m)
                    then m :: filter (refused cannot_create) members
                    else filter (refused cannot_create) members).
    { destruct (cannot_create (local_file m)) eqn:Hcan;
        [rewrite filter_cons_True|rewrite filter_cons_False]; try done;
        [apply Is_true_true_2|apply Is_true_false_2];
        unfold refused; by rewrite Htxt, Hcan. }
    rewrite Hex, Hre. destruct (cannot_create (local_file m)); simpl.
    + by rewrite <- (assoc_L (++)).
    + by rewrite app_nil_r.
  - assert (Hstep : extract_member cannot_create m d = (d, Ok ())).
    { destruct m as [file data]. unfold extract_member, is_txt in *. simpl in Htxt.
      by rewrite Htxt. }
    rewrite Hstep, IH by done.
    assert (Hex : extracted cannot_create m = false)
      by (unfold extracted; by rewrite Htxt).
    assert (Hre : refused cannot_create m = false)
      by (unfold refused; by rewrite Htxt).
    by rewrite !(filter_cons_False _ m) by (by apply Is_true_false_2).
Qed.

Lemma write_union (fs : gmap string content) m : write fs m = write ∅ m ∪ fs.
Proof. unfold write. by rewrite <- insert_union_l, (left_id_L ∅ (∪)). Qed.

Lemma foldl_write_union members : ∀ fs : gmap string content,
  foldl write fs members = foldl write ∅ members ∪ fs.
Proof.
  induction members as [|m members IH]; intros fs; simpl.
  - by rewrite (left_id_L ∅ (∪)).
  - rewrite IH, (IH (write ∅ m)), (write_union fs). by rewrite (assoc_L (∪)).
Qed.

(** X19. Unpacking an archive again after a run that returned changes no
    file and no directory: the second run returns as well and prints the
    refused members once more, provided no refused member's path was made a
    directory by the first run. *)
Theorem download_twice market freq d d1 members :
  files d !! data_name market freq = Some (ZipArchive members) →
  download_price_data cannot_create market freq d = (d1, Ok ()) →
  Forall (λ m, refused cannot_create m = true → local_file m ∉ dirs d1) members →
  ∃ d2, download_price_data cannot_create market freq d1 = (d2, Ok ())
        ∧ files d2 = files d1
        ∧ dirs d2 = dirs d1
        ∧ console d2
          = console d1
            ++ (errno2 ∘ local_file <$> filter (refused cannot_create) members).
Proof.
  intros Hzip Hrun Hrefused.
  assert (Harchive : files d1 !! data_name market freq = Some (ZipArchive members)).
  { destruct (download_frame market freq d) as [_ Hfiles].
    rewrite Hrun in Hfiles. cbn [fst] in Hfiles. rewrite <- Hzip.
    destruct (decide (files d1 !! data_name market freq
                      = files d !! data_name market freq)) as [|Hne]; [done|].
    destruct (Hfiles _ Hne) as (Htxt & _).
    by rewrite data_name_is_no_txt in Htxt. }
  assert (Hex : ∀ d0, files d0 !! data_name market freq = Some (ZipArchive members) →
                      download_price_data cannot_create market freq d0
                      = extract_members cannot_create members d0).
  { intros d0 Hd0. unfold download_price_data, path_exists, ZipFile.
    rewrite bool_decide_eq_true_2, Hd0; [done|].
    left. apply elem_of_dom. by rewrite Hd0. }
  rewrite (Hex d Hzip) in Hrun. rewrite (Hex d1 Harchive).
  pose proof (extract_members_settled members d d1 Hrun) as Hsettled.
  apply extract_members_Ok in Hrun as (Hfiles & _).
  rewrite extract_members_again.
  - eexists. split; [done|]. cbn [files dirs console]. split; [|done].
    rewrite Hfiles, foldl_write_union.
    rewrite (foldl_write_union _ (files d)).
    by rewrite (assoc_L (∪)), (idemp_L (∪)).
  - apply Forall_forall. intros m Hin Htxt.
    destruct (Hsettled m Hin Htxt) as [Hanc Hextracted]. split; [done|].
    destruct (cannot_create (local_file m)) eqn:Hcan.
    + split; [|done]. rewrite Forall_forall in Hrefused. apply Hrefused; [done|].
      unfold refused. by rewrite Htxt, Hcan.
    + destruct (Hextracted eq_refl). by split.
Qed.
End Unpacking.

(** ** The symbols cell *)

Section FirstRows.
Context {A K : Type} `{EqDecision K} (key : A → K).
Implicit Types (xs : list A) (seen : list K).

(** An element is kept exactly when its key is new and it is the first
    element of the list with that key. *)
Lemma kept_elem_first xs : ∀ seen x,
  x ∈ kept key seen xs
  ↔ (key x ∉ seen)
    ∧ ∃ i, xs !! i = Some x ∧ ∀ j y, j < i → xs !! j = Some y → key y ≠ key x.
Proof.
  induction xs as [|x0 xs IH]; intros seen x.
  { split; [by intros ?%elem_of_nil|by intros (_ & i & ? & _)]. }
  rewrite kept_cons. split.
  - intros Hx.
    assert (Hcase : x = x0 ∧ key x0 ∉ seen ∨ x ∈ kept key (key x0 :: seen) xs).
    { destruct (decide (key x0 ∈ seen)); [by right|].
      apply elem_of_cons in Hx as [->|Hx]; [by left|by right]. }
    destruct Hcase as [[-> Hnew]|Hin].
    + split; [done|]. exists 0. split; [done|]. intros j y Hj. lia.
    + apply IH in Hin as (Hnew & i & Hi & Hfirst). split.
      * intros Hseen. apply Hnew. by right.
      * exists (S i). split; [done|]. intros [|j] y Hj Hy; simpl in Hy.
        -- simplify_eq. intros Heq. apply Hnew, elem_of_cons. by left.
        -- apply (Hfirst j); [lia|done].
  - intros (Hnew & i & Hi & Hfirst). destruct i as [|i]; simpl in Hi.
    + simplify_eq. rewrite decide_False by done. by left.
    + assert (Hx : x ∈ kept key (key x0 :: seen) xs).
      { apply IH. split.
        - intros [Heq|Hseen]%elem_of_cons; [|done].
          by apply (Hfirst 0 x0); [lia|done|].
        - exists i. split; [done|]. intros j y Hj Hy.
          apply (Hfirst (S j)); [lia|done]. }
      destruct (decide (key x0 ∈ seen)); [done|by right].
Qed.
End FirstRows.

Section Symbols.
Import Metadata.
Implicit Types (d : Disk) (columns : list column) (df rows : list Symbol).

Lemma strip_columns_Done columns : ∀ stripped,
  strip_columns columns = Done stripped →
  ∃ values, columns = Text <$> values ∧ stripped = fmap strip_cell <$> values.
Proof.
  induction columns as [|[vals|] columns IH]; intros stripped Hs; simpl in Hs.
  - simplify_eq. by exists [].
  - destruct (strip_columns columns) as [stripped'|e]; [|done]. simplify_eq.
    destruct (IH stripped' eq_refl) as (values & -> & ->). by exists (vals :: values).
  - done.
Qed.

Lemma symbols_of_Done columns df :
  symbols_of columns = Done df →
  ∃ tickers names,
    columns = [Text tickers; Text names]
    ∧ df = dropna (drop_duplicates_ticker
                     (zip (strip_cell <$> tickers) (strip_cell <$> names))).
Proof.
  unfold symbols_of. intros Hs.
  destruct (strip_columns columns) as [stripped|e] eqn:Hstrip; [|done].
  apply strip_columns_Done in Hstrip as (values & -> & ->).
  destruct values as [|ts [|ns [|? ?]]]; simplify_eq/=. by exists ts, ns.
Qed.

(** The rows that are written, for the rows the two columns pair up to. *)
Lemma cleaned_rows rows :
  dropna (drop_duplicates_ticker rows) `sublist_of` rows
  ∧ NoDup (fst <$> dropna (drop_duplicates_ticker rows))
  ∧ Forall complete (dropna (drop_duplicates_ticker rows))
  ∧ ∀ r, r ∈ dropna (drop_duplicates_ticker rows)
         ↔ complete r
           ∧ ∃ i, rows !! i = Some r
                  ∧ ∀ j r', j < i → rows !! j = Some r' → r'.1 ≠ r.1.
Proof.
  unfold dropna, drop_duplicates_ticker. split; [|split; [|split]].
  - etrans; [apply sublist_filter|apply kept_sublist].
  - eapply (sublist_NoDup _ (fst <$> kept fst [] rows)).
    + apply kept_NoDup_keys.
    + apply fmap_sublist, sublist_filter.
  - apply Forall_forall. by intros r [? _]%list_elem_of_filter.
  - intros r. rewrite list_elem_of_filter, kept_elem_first, elem_of_nil. tauto.
Qed.

Lemma store_symbols_Done market asset_class freq d d' :
  store_symbols market asset_class freq d = (d', Done ()) →
  ∃ tickers names,
    masters d !! master_path market asset_class freq
    = Some (Parsed [Text tickers; Text names])
    ∧ masters d' = masters d
    ∧ csvs d'
      = <[tickers_csv market asset_class :=
            dropna (drop_duplicates_ticker
                      (zip (strip_cell <$> tickers) (strip_cell <$> names)))]> (csvs d)
    ∧ tickers_dir market ∈ dirs d'
    ∧ console d'
      = console d
        ++ [market +:+ " " +:+ asset_class +:+ " " +:+ "# tickers: "
            +:+ thousands (length (dropna (drop_duplicates_ticker
                  (zip (strip_cell <$> tickers) (strip_cell <$> names)))))].
Proof.
  unfold store_symbols, read_csv. intros Hrun.
  destruct (masters d !! master_path market asset_class freq) as [[e|columns]|] eqn:Hm;
    [done| |done].
  destruct (symbols_of columns) as [df|e] eqn:Hs; [|done].
  apply symbols_of_Done in Hs as (tickers & names & -> & ->).
  exists tickers, names. split; [done|].
  unfold ensure_dir, to_csv in Hrun.
  destruct (path_exists _ _) eqn:Hex; [|destruct (decide (Exists _ _)); [done|]];
    cbn [dirs masters csvs console] in Hrun;
    destruct (decide (_ ∉ _)) as [|Hdir%dec_stable]; try done;
    destruct (decide (_ ∈ _)); try done; by simplify_eq.
Qed.

(** X15. When the symbols cell returns, the file it wrote holds, for the
    stripped (ticker, name) rows of the master file in their order, exactly
    the rows that are the first of their ticker and have both fields: no
    ticker twice, no missing value. *)
Theorem symbols_file_holds_first_complete_rows market asset_class freq d d' :
  store_symbols market asset_class freq d = (d', Done ()) →
  ∃ tickers names df,
    masters d !! master_path market asset_class freq
    = Some (Parsed [Text tickers; Text names])
    ∧ csvs d' !! tickers_csv market asset_class = Some df
    ∧ df `sublist_of` zip (strip_cell <$> tickers) (strip_cell <$> names)
    ∧ NoDup (fst <$> df)
    ∧ Forall complete df
    ∧ (∀ r, r ∈ df
            ↔ complete r
              ∧ ∃ i, zip (strip_cell <$> tickers) (strip_cell <$> names) !! i = Some r
                     ∧ ∀ j r', j < i →
                         zip (strip_cell <$> tickers) (strip_cell <$> names) !! j = Some r' →
                         r'.1 ≠ r.1)
    ∧ console d'
      = console d ++ [market +:+ " " +:+ asset_class +:+ " # tickers: "
                      +:+ thousands (length df)].
Proof.
  intros (tickers & names & Hm & _ & Hcsv & _ & Hcon)%store_symbols_Done.
  exists tickers, names. eexists. split; [done|].
  split; [rewrite Hcsv; apply lookup_insert_eq|].
  destruct (cleaned_rows (zip (strip_cell <$> tickers) (strip_cell <$> names)))
    as (Hsub & Hnodup & Hcomplete & Hiff).
  done.
Qed.

(** X16. A ticker whose first row has no name is not written at all, also
    when a later row of that ticker has one: the duplicates are dropped
    before the rows with a missing value. *)
Theorem nameless_first_row_loses_the_ticker
    market asset_class freq d d' tickers names i t :
  store_symbols market asset_class freq d = (d', Done ()) →
  masters d !! master_path market asset_class freq
  = Some (Parsed [Text tickers; Text names]) →
  zip (strip_cell <$> tickers) (strip_cell <$> names) !! i = Some (Some t, None) →
  (∀ j r', j < i →
     zip (strip_cell <$> tickers) (strip_cell <$> names) !! j = Some r' →
     r'.1 ≠ Some t) →
  ∃ df, csvs d' !! tickers_csv market asset_class = Some df
        ∧ ∀ r, r ∈ df → r.1 ≠ Some t.
Proof.
  intros (tickers' & names' & Hm & _ & Hcsv & _)%store_symbols_Done Hm' Hi Hfirst.
  rewrite Hm in Hm'. injection Hm' as <- <-. eexists.
  split; [rewrite Hcsv; apply lookup_insert_eq|].
  intros r Hr Hticker.
  apply cleaned_rows in Hr as [[_ [name Hname]] (i' & Hi' & Hfirst')].
  destruct (Nat.lt_trichotomy i' i) as [Hlt|[->|Hgt]].
  - by apply (Hfirst i' r).
  - assert (Heq : Some r = Some (Some t, None))
      by (etrans; [symmetry; exact Hi'|exact Hi]).
    injection Heq as ->. discriminate Hname.
  - apply (Hfirst' i (Some t, None)); [done..|]. exact (eq_sym Hticker).
Qed.

(** X17. A run of the symbols cell that fails writes no symbols file, and
    an unreadable master file (the notebook's own run ends in a
    [UnicodeDecodeError]) fails with the read error before anything is
    printed or created. *)
Theorem failed_symbols_run_writes_nothing market asset_class freq d :
  (∀ d' e, store_symbols market asset_class freq d = (d', Fails e) →
           csvs d' = csvs d ∧ masters d' = masters d)
  ∧ (∀ e, masters d !! master_path market asset_class freq = Some (Unreadable e) →
          store_symbols market asset_class freq d = (d, Fails (Base e)))
  ∧ (∀ columns,
       masters d !! master_path market asset_class freq = Some (Parsed columns) →
       Numbers ∈ columns →
       store_symbols market asset_class freq d = (d, Fails AttributeError))
  ∧ (∀ values,
       masters d !! master_path market asset_class freq
       = Some (Parsed (Text <$> values)) →
       length values ≠ 2 →
       store_symbols market asset_class freq d = (d, Fails (Base ValueError))).
Proof.
  split; [|split; [|split]].
  - intros d' e. unfold store_symbols.
    destruct (read_csv d _) as [columns|e0]; [|by intros [= <- _]].
    destruct (symbols_of columns) as [df|e0]; [|by intros [= <- _]].
    unfold ensure_dir, to_csv.
    destruct (path_exists _ _); [|destruct (decide (Exists _ _))];
      cbn [dirs masters csvs console];
      try (by intros [= <- _]);
      destruct (decide (_ ∉ _)); try (by intros [= <- _]);
      destruct (decide (_ ∈ _)); try (by intros [= <- _]); done.
  - intros e Hm. unfold store_symbols, read_csv. by rewrite Hm.
  - intros columns Hm Hin. unfold store_symbols, read_csv. rewrite Hm.
    assert (Hs : symbols_of columns = Fails AttributeError); [|by rewrite Hs].
    unfold symbols_of.
    assert (Hstrip : strip_columns columns = Fails AttributeError); [|by rewrite Hstrip].
    clear Hm. induction columns as [|[vals|] columns IH]; simpl.
    + by apply elem_of_nil in Hin.
    + apply elem_of_cons in Hin as [[=]|Hin]. by rewrite (IH Hin).
    + done.
  - intros values Hm Hlen. unfold store_symbols, read_csv. rewrite Hm.
    assert (Hs : symbols_of (Text <$> values) = Fails (Base ValueError));
      [|by rewrite Hs].
    unfold symbols_of.
    assert (Hstrip : strip_columns (Text <$> values)
                     = Done (fmap (M:=list) strip_cell <$> values)).
    { clear. induction values as [|v values IH]; [done|].
      rewrite !fmap_cons. cbn [strip_columns]. by rewrite IH. }
    rewrite Hstrip. by destruct values as [|? [|? [|? ?]]].
Qed.

End Symbols.


(** * The further properties on the example trees *)

(** The file [airr.us.txt] is not valid text: the call ends there and
    [AADR_old.US.txt] is never read. *)
Lemma uncaught_error_witness :
  glob_txt with_garbled (data_path "daily" "us" "nasdaq etfs")
  = [aadr] ++ garbled :: [aadr_again]
  ∧ (get_stooq_prices_and_tickers with_garbled "daily" "us" "nasdaq etfs" w0).2
    = Raise UnicodeDecodeError
  ∧ filter is_read
      (console (get_stooq_prices_and_tickers with_garbled "daily" "us" "nasdaq etfs" w0).1)
    = read_event "daily" <$> [aadr; garbled].
Proof.
  assert (H1 : glob_txt with_garbled (data_path "daily" "us" "nasdaq etfs")
               = [aadr] ++ garbled :: [aadr_again]) by (vm_compute; reflexivity).
  assert (H2 : Forall (λ f, ¬ aborts f) [aadr])
    by (apply (bool_decide_unpack _); vm_compute; exact I).
  assert (H3 : content garbled = Unreadable UnicodeDecodeError) by reflexivity.
  assert (H4 : caught UnicodeDecodeError = false) by reflexivity.
  split; [exact H1|].
  destruct (uncaught_error_stops_the_loop with_garbled "daily" "us" "nasdaq etfs" w0
              [aadr] garbled [aadr_again] UnicodeDecodeError H1 H2 H3 H4)
    as (Hraise & Hreads & _).
  split; [exact Hraise|exact Hreads].
Defined.

(** A tree without any file. *)
Lemma no_matching_file_witness :
  glob_txt no_files (data_path "daily" "us" "nasdaq etfs") = []
  ∧ (get_stooq_prices_and_tickers no_files "daily" "us" "nasdaq etfs" w0).2
    = Raise ValueError
  ∧ console (get_stooq_prices_and_tickers no_files "daily" "us" "nasdaq etfs" w0).1
    = [Print "stooq/data/data/daily/us/nasdaq etfs"].
Proof.
  assert (H1 : glob_txt no_files (data_path "daily" "us" "nasdaq etfs") = [])
    by reflexivity.
  split; [exact H1|].
  destruct (no_matching_file_raises_ValueError no_files "daily" "us" "nasdaq etfs" w0 H1)
    as (Hraise & Hconsole & _).
  split; [exact Hraise|]. etrans; [exact Hconsole|]. by vm_compute.
Defined.

Lemma header_only_witness :
  glob_txt only_headers (data_path "daily" "us" "nasdaq etfs") = [header_only]
  ∧ (get_stooq_prices_and_tickers only_headers "daily" "us" "nasdaq etfs" w0).2
    = Ok ({| index_names := ["ticker"; "date"]; columns := price_columns; rows := [] |}, ∅).
Proof.
  assert (H0 : glob_txt only_headers (data_path "daily" "us" "nasdaq etfs") = [header_only])
    by (vm_compute; reflexivity).
  assert (H1 : glob_txt only_headers (data_path "daily" "us" "nasdaq etfs") ≠ [])
    by (rewrite H0; discriminate).
  assert (H2 : Forall (λ file, content file = Table [])
                 (glob_txt only_headers (data_path "daily" "us" "nasdaq etfs")))
    by (rewrite H0; repeat constructor).
  split; [exact H0|].
  destruct (header_only_files_give_an_empty_table
              only_headers "daily" "us" "nasdaq etfs" w0 H1 H2) as [Hget _].
  exact Hget.
Defined.

Lemma tickers_keys_witness :
  read_etfs
  = (read_etfs.1, Ok (combined_prices "daily" etfs_files, foldl add_ticker ∅ etfs_files))
  ∧ is_Some (foldl add_ticker ∅ etfs_files !! "AADR.US")
  ∧ ∃ r, r ∈ rows (combined_prices "daily" etfs_files) ∧ ticker r = "AADR.US".
Proof.
  assert (H1 : get_stooq_prices_and_tickers fs "daily" "us" "nasdaq etfs" w0
               = (read_etfs.1,
                  Ok (combined_prices "daily" etfs_files, foldl add_ticker ∅ etfs_files)))
    by (vm_compute; reflexivity).
  assert (H2 : is_Some (foldl add_ticker ∅ etfs_files !! "AADR.US"))
    by (exists "aadr_old"; vm_compute; reflexivity).
  split; [exact H1|]. split; [exact H2|].
  exact (tickers_keys_occur_in_prices fs "daily" "us" "nasdaq etfs" w0 _ _ _ H1 _ H2).
Defined.

(** The four files of [nasdaq etfs]: two reads with a missing-data line, no
    counter. *)
Lemma no_counter_witness :
  read_etfs
  = (read_etfs.1, Ok (combined_prices "daily" etfs_files, foldl add_ticker ∅ etfs_files))
  ∧ length (glob_txt fs (data_path "daily" "us" "nasdaq etfs")) < 500
  ∧ console read_etfs.1
    = [Print "stooq/data/data/daily/us/nasdaq etfs";
       read_event "daily" aadr;
       read_event "daily" no_data; missing_line no_data;
       read_event "daily" header_only; missing_line header_only;
       read_event "daily" aadr_again].
Proof.
  assert (H1 : get_stooq_prices_and_tickers fs "daily" "us" "nasdaq etfs" w0
               = (read_etfs.1,
                  Ok (combined_prices "daily" etfs_files, foldl add_ticker ∅ etfs_files)))
    by (vm_compute; reflexivity).
  assert (H2 : length (glob_txt fs (data_path "daily" "us" "nasdaq etfs")) < 500)
    by (vm_compute; lia).
  split; [exact H1|]. split; [exact H2|].
  etrans; [exact (fewer_than_500_files_print_no_counter
                    fs "daily" "us" "nasdaq etfs" w0 _ _ _ H1 H2)|].
  by vm_compute.
Defined.

Lemma sorted_witness :
  stored_etfs = (stored_etfs.1, Ok ())
  ∧ ∃ table,
      written_table (combined_prices "daily" etfs_files) = Ok table
      ∧ store stored_etfs.1 !! (store_key "us" "nasdaq etfs" +:+ "prices")
        = held_after (Prices table) None
      ∧ StronglySorted index_le (rows table).
Proof.
  assert (H1 : store_asset_class fs "us" "nasdaq etfs" w0 = (stored_etfs.1, Ok ()))
    by (vm_compute; reflexivity).
  split; [exact H1|].
  destruct (written_table_is_sorted fs "us" "nasdaq etfs" w0 _ H1)
    as (w1 & prices & tickers & table & Hget & Hw & Hlook & Hsorted & _).
  rewrite read_etfs_in_step in Hget. injection Hget as _ <- _.
  exists table. split; [exact Hw|]. split; [exact Hlook|exact Hsorted].
Defined.



Lemma store_loop_twice_witness :
  stored_all = (stored_all.1, Ok ())
  ∧ ∃ w2, store_loop fs stored_all.1 = (w2, Ok ()) ∧ store w2 = store stored_all.1.
Proof.
  assert (H1 : store_loop fs w0 = (stored_all.1, Ok ())) by (vm_compute; reflexivity).
  split; [exact H1|].
  exact (store_loop_twice fs w0 _ H1).
Defined.

(** The tickers of the Japanese market are still in the store after the
    loop. *)
Lemma other_keys_witness :
  (∀ market asset_classes asset_class,
     (market, asset_classes) ∈ markets → asset_class ∈ asset_classes →
     "stooq/jp/tse/stocks/tickers" ≠ store_key market asset_class +:+ "prices"
     ∧ "stooq/jp/tse/stocks/tickers" ≠ store_key market asset_class +:+ "tickers")
  ∧ store (store_loop fs w_jp).1 !! "stooq/jp/tse/stocks/tickers"
    = Some (Tickers {[ "7203.JP" := "7203" ]}).
Proof.
  assert (H1 : ∀ market asset_classes asset_class,
             (market, asset_classes) ∈ markets → asset_class ∈ asset_classes →
             "stooq/jp/tse/stocks/tickers" ≠ store_key market asset_class +:+ "prices"
             ∧ "stooq/jp/tse/stocks/tickers" ≠ store_key market asset_class +:+ "tickers").
  { intros market acs a [= -> ->]%list_elem_of_singleton Ha.
    repeat (apply elem_of_cons in Ha as [->|Ha]); [..|by apply elem_of_nil in Ha];
      split; vm_compute; discriminate. }
  split; [exact H1|].
  etrans; [exact (store_loop_keeps_other_keys fs w_jp _ H1)|]. reflexivity.
Defined.



(** The archive of the Japanese market is not there: the US archive is
    unpacked and the loop raises. *)
Lemma missing_archive_witness :
  download_markets refuses ["us"] disk0 = (unpacked.1, Ok ())
  ∧ Download.path_exists unpacked.1 (Download.data_name "jp" "d") = false
  ∧ download_all refuses disk0 = (unpacked.1, Raise FileNotFoundError).
Proof.
  assert (H1 : download_markets refuses ["us"] disk0 = (unpacked.1, Ok ()))
    by (vm_compute; reflexivity).
  assert (H2 : Download.path_exists unpacked.1 (Download.data_name "jp" "d") = false)
    by (vm_compute; reflexivity).
  split; [exact H1|]. split; [exact H2|].
  exact (download_markets_stops_at_missing_archive refuses ["us"] "jp" [] disk0 _ H1 H2).
Defined.

(** Unpacking the US archive again: the same files and directories, and
    the line of [prn.us.txt] a second time. *)
Lemma download_twice_witness :
  Download.files disk0 !! Download.data_name "us" "d"
  = Some (Download.ZipArchive zip_members)
  ∧ unpacked = (unpacked.1, Ok ())
  ∧ ∃ d2, Download.download_price_data refuses "us" "d" unpacked.1 = (d2, Ok ())
          ∧ Download.files d2 = Download.files unpacked.1
          ∧ Download.dirs d2 = Download.dirs unpacked.1
          ∧ Download.console d2
            = ["[Errno 2] No such file or directory: 'stooq/data/daily/us/nyse etfs/prn.us.txt'";
               "[Errno 2] No such file or directory: 'stooq/data/daily/us/nyse etfs/prn.us.txt'"].
Proof.
  assert (H1 : Download.files disk0 !! Download.data_name "us" "d"
               = Some (Download.ZipArchive zip_members)) by (vm_compute; reflexivity).
  assert (H2 : Download.download_price_data refuses "us" "d" disk0 = (unpacked.1, Ok ()))
    by (vm_compute; reflexivity).
  assert (H3 : Forall (λ m, Download.refused refuses m = true
                            → Download.local_file m ∉ Download.dirs unpacked.1)
                 zip_members)
    by (apply (bool_decide_unpack _); vm_compute; exact I).
  split; [exact H1|]. split; [exact H2|].
  destruct (download_twice refuses "us" "d" disk0 _ zip_members H1 H2 H3)
    as (d2 & Hrun & Hfiles & Hdirs & Hcon).
  exists d2. split; [exact Hrun|]. split; [exact Hfiles|]. split; [exact Hdirs|].
  etrans; [exact Hcon|]. by vm_compute.
Defined.

(** The symbols file of the example master file. *)
Lemma symbols_file_witness :
  symbols_stored = (symbols_stored.1, Metadata.Done ())
  ∧ Metadata.csvs symbols_stored.1 !! "stooq/tickers/us/nasdaq etfs.csv"
    = Some [(Some "AADR.US", Some "ADVISORSHARES"); (Some "ACWX.US", Some "ISHARES")]
  ∧ ∃ df, Metadata.csvs symbols_stored.1 !! Metadata.tickers_csv "us" "nasdaq etfs" = Some df
          ∧ NoDup (fst <$> df)
          ∧ Forall Metadata.complete df
          ∧ Metadata.console symbols_stored.1
            = ["us nasdaq etfs # tickers: " +:+ Metadata.thousands (length df)].
Proof.
  assert (H1 : Metadata.store_symbols "us" "nasdaq etfs" "d" meta_disk
               = (symbols_stored.1, Metadata.Done ())) by (vm_compute; reflexivity).
  split; [exact H1|]. split; [by vm_compute|].
  destruct (symbols_file_holds_first_complete_rows "us" "nasdaq etfs" "d" meta_disk _ H1)
    as (tickers & names & df & _ & Hcsv & _ & Hnodup & Hcomplete & _ & Hcon).
  exists df. split; [exact Hcsv|]. split; [exact Hnodup|]. split; [exact Hcomplete|].
  exact Hcon.
Defined.

(** AGZD.US is first listed without a name: its later, named row is not
    written either. *)
Lemma nameless_first_row_witness :
  symbols_stored = (symbols_stored.1, Metadata.Done ())
  ∧ ∃ df, Metadata.csvs symbols_stored.1 !! Metadata.tickers_csv "us" "nasdaq etfs" = Some df
          ∧ ∀ r, r ∈ df → r.1 ≠ Some "AGZD.US".
Proof.
  assert (H1 : Metadata.store_symbols "us" "nasdaq etfs" "d" meta_disk
               = (symbols_stored.1, Metadata.Done ())) by (vm_compute; reflexivity).
  assert (H2 : Metadata.masters meta_disk !! Metadata.master_path "us" "nasdaq etfs" "d"
               = Some (Metadata.Parsed
                   [Metadata.Text [Some "AADR.US"; Some "AADR.US "; Some "ACWX.US"; None;
                                   Some "AGZD.US"; Some "AGZD.US"];
                    Metadata.Text [Some "ADVISORSHARES"; Some "DORSEY"; Some " ISHARES";
                                   Some "NAMEONLY"; None; Some "WISDOMTREE"]]))
    by (vm_compute; reflexivity).
  split; [exact H1|].
  apply (nameless_first_row_loses_the_ticker "us" "nasdaq etfs" "d" meta_disk _ _ _ 4
           "AGZD.US" H1 H2).
  - vm_compute. reflexivity.
  - intros j r' Hj Hlook. destruct j as [|[|[|[|j]]]]; [..|lia];
      vm_compute in Hlook; injection Hlook as <-; vm_compute; discriminate.
Defined.


(** With absolute names the csv path can be a directory that the pass
    itself makes: the pass then fails at [to_csv] although the tickers
    directory could be made and no directory was at the csv path before. *)
Lemma symbols_csv_can_be_a_directory :
  Metadata.tickers_dir "/a.csv/b" = "/a.csv/b"
  ∧ Metadata.tickers_csv "/a.csv/b" "/a" = "/a.csv"
  ∧ Metadata.masters absolute_disk !! Metadata.master_path "/a.csv/b" "/a" "d"
    = Some emaster
  ∧ Metadata.path_exists absolute_disk (Metadata.tickers_dir "/a.csv/b") = false
  ∧ Forall (λ a, ¬ Metadata.is_file absolute_disk a)
           (Download.ancestors (Metadata.tickers_dir "/a.csv/b"))
  ∧ Metadata.tickers_csv "/a.csv/b" "/a" ∉ Metadata.dirs absolute_disk
  ∧ Metadata.tickers_csv "/a.csv/b" "/a"
    ∈ Download.ancestors (Metadata.tickers_dir "/a.csv/b")
  ∧ (Metadata.store_symbols "/a.csv/b" "/a" "d" absolute_disk).2
    = Metadata.Fails (Metadata.Base IsADirectoryError).
Proof.
  split; [by vm_compute|]. split; [by vm_compute|]. split; [by vm_compute|].
  split; [by vm_compute|].
  split; [apply (bool_decide_unpack _); vm_compute; exact I|].
  split; [apply (bool_decide_unpack _); vm_compute; exact I|].
  split; [apply (bool_decide_unpack _); vm_compute; exact I|].
  by vm_compute.
Qed.

(** The master file of the notebook's own run cannot be decoded. *)
Lemma failed_symbols_run_witness :
  Metadata.masters undecodable_disk !! Metadata.master_path "us" "nasdaq etfs" "d"
  = Some (Metadata.Unreadable UnicodeDecodeError)
  ∧ Metadata.store_symbols "us" "nasdaq etfs" "d" undecodable_disk
    = (undecodable_disk, Metadata.Fails (Metadata.Base UnicodeDecodeError)).
Proof.
  assert (H1 : Metadata.masters undecodable_disk
                 !! Metadata.master_path "us" "nasdaq etfs" "d"
               = Some (Metadata.Unreadable UnicodeDecodeError))
    by (vm_compute; reflexivity).
  split; [exact H1|].
  destruct (failed_symbols_run_writes_nothing "us" "nasdaq etfs" "d" undecodable_disk)
    as (_ & Hunreadable & _).
  exact (Hunreadable _ H1).
Defined.
